(** * dash3.py: the ingestion pipeline and the sidebar filters

    A shallow embedding of [load_data] (lines 26-63), [apply_filters]
    (lines 65-116) and the opening of [main] (lines 257-279) of [dash3.py],
    over a model of the Python values and of the pandas, requests and
    Streamlit calls they make.

    Layout: Python values and their text form; pandas tables and the column
    operations of lines 36-54; the HTTP exchange; [load_data] with its two
    handlers; the time-to-live cache of line 26; [apply_filters]; [main] up
    to the filter summary; then the lemmas and the theorems.

    What pandas does is written out where it is determined by the values
    alone.  Where it depends on the release of the library or on the
    rounding of its parsers (an int beyond [2^53], a text of more than 15
    digits stored as a float, the date parser, the inputs of the constructor
    other than a list of dicts), it is a field of the record [library], and
    a call can end in an exception. *)

From Stdlib Require Import List String Ascii Bool ZArith NArith QArith Lia.
From Stdlib Require Import Decimal DecimalString DecimalPos DecimalZ Sorted.
Import ListNotations.

Set Warnings "-register-all".

Local Open Scope string_scope.
Local Open Scope Z_scope.

(* ===================================================================== *)
(** ** Python values *)
(* ===================================================================== *)

Module Py.

(** The exception classes the two functions can meet.  The first four derive
    from [requests.exceptions.RequestException] ([JSONDecodeError] is the one
    of [requests], raised by [response.json()]); all but [KeyboardInterrupt]
    derive from [Exception]. *)
Inductive exn : Type :=
| ConnectionError
| Timeout
| HTTPError (status : Z)
| JSONDecodeError
| ValueError
| TypeError
| AttributeError
| KeyError
| OverflowError
| KeyboardInterrupt.

Definition is_RequestException (e : exn) : bool :=
  match e with
  | ConnectionError | Timeout | HTTPError _ | JSONDecodeError => true
  | _ => false
  end.

Definition is_Exception (e : exn) : bool :=
  match e with
  | KeyboardInterrupt => false
  | _ => true
  end.

(** A Python [float]. An integer-valued float carries its integer; any other
    finite float carries the output of the shortest round-trip conversion
    that [repr] starts from: a sign, the significant digits and the position
    of the decimal point (value [0.d1d2...dn * 10^decpt]). *)
Inductive pyfloat : Type :=
| FNaN
| FInf (neg : bool)
| FInt (z : Z)
| FFrac (neg : bool) (digits : string) (decpt : Z).

(** What [response.json()] can return (None, bool, int, float, str, list,
    dict with insertion order), and the three pandas scalars that appear in
    a normalized table: [pd.NA], [Timestamp] (nanoseconds since the epoch)
    and [NaT]. *)
Inductive pyval : Type :=
| PNone
| PBool (b : bool)
| PInt (z : Z)
| PFloat (f : pyfloat)
| PStr (s : string)
| PList (l : list pyval)
| PDict (d : list (string * pyval))
| PNA
| PTimestamp (ns : Z)
| PNaT.

(** [str(z)] for an int. *)
Definition int_str (z : Z) : string := NilZero.string_of_int (Z.to_int z).

Fixpoint zeros (n : nat) : string :=
  match n with
  | O => ""
  | S k => String "0" (zeros k)
  end.

(** Drops the zeros that end a digit text. *)
Fixpoint rstrip_zeros (s : string) : string :=
  match s with
  | EmptyString => EmptyString
  | String c r =>
      let r' := rstrip_zeros r in
      if (String.eqb r' "" && Ascii.eqb c "0")%bool then "" else String c r'
  end.

(** [repr] of a finite float from its digits and decimal point, as CPython
    formats it: exponent notation when [decpt <= -4] or [decpt > 16], and
    [.0] added to a result without a fractional part. *)
Definition format_short (neg : bool) (digits : string) (decpt : Z) : string :=
  let n := Z.of_nat (String.length digits) in
  let body :=
    if (decpt <=? -4) || (16 <? decpt) then
      let e := decpt - 1 in
      let mant :=
        match digits with
        | EmptyString => "0"
        | String c EmptyString => String c ""
        | String c r => String c ("." ++ r)
        end in
      let ev := int_str (Z.abs e) in
      let ev2 := if (String.length ev <? 2)%nat then "0" ++ ev else ev in
      mant ++ "e" ++ (if e <? 0 then "-" else "+") ++ ev2
    else if decpt <=? 0 then
      "0." ++ zeros (Z.to_nat (- decpt)) ++ digits
    else if n <=? decpt then
      digits ++ zeros (Z.to_nat (decpt - n)) ++ ".0"
    else
      substring 0 (Z.to_nat decpt) digits ++ "." ++
      substring (Z.to_nat decpt) (Z.to_nat (n - decpt)) digits
  in if neg then "-" ++ body else body.

(** Up to [2^53] in absolute value every integer is a float, and the digits
    of the integer are the shortest digits that read back as that float. *)
Definition FLOAT_EXACT : Z := 2 ^ 53.

(** [pd.isna] on a scalar. *)
Definition isna (v : pyval) : bool :=
  match v with
  | PNone | PNA | PNaT | PFloat FNaN => true
  | _ => false
  end.

Section Str.

(** [str] of the values whose text form is not written out in this file:
    lists, dicts, timestamps, and the integer-valued floats beyond [2^53]
    (their shortest round-trip digits are the float formatter's). *)
Variable str_object : pyval -> string.

(** [str(f)] for a float. *)
Definition float_str (f : pyfloat) : string :=
  match f with
  | FNaN => "nan"
  | FInf neg => if neg then "-inf" else "inf"
  | FInt z =>
      if z =? 0 then "0.0"
      else if Z.abs z <=? FLOAT_EXACT then
        let s := int_str (Z.abs z) in
        format_short (z <? 0) (rstrip_zeros s) (Z.of_nat (String.length s))
      else str_object (PFloat f)
  | FFrac neg ds p => format_short neg ds p
  end.

(** [str(v)], the text [astype(str)] stores for each cell. *)
Definition py_str (v : pyval) : string :=
  match v with
  | PNone => "None"
  | PBool b => if b then "True" else "False"
  | PInt z => int_str z
  | PFloat f => float_str f
  | PStr s => s
  | PNA => "<NA>"
  | PNaT => "NaT"
  | PList _ | PDict _ | PTimestamp _ => str_object v
  end.

End Str.

End Py.

Import Py.


(* ===================================================================== *)
(** ** pandas: tables and the column operations of lines 36-54 *)
(* ===================================================================== *)

Module Pandas.

(** A column label: a dict key, or a position when the table was built from
    rows without names. *)
Inductive label : Type :=
| LStr (s : string)
| LInt (i : Z).

Definition label_eqb (a b : label) : bool :=
  match a, b with
  | LStr s, LStr t => String.eqb s t
  | LInt i, LInt j => Z.eqb i j
  | _, _ => false
  end.

(** A [DataFrame]: the row labels and the columns in order, each column
    holding one cell per row. *)
Record table : Type := {
  index : list Z;
  columns : list (label * list pyval)
}.

(** [pd.DataFrame()] *)
Definition empty_table : table := {| index := []; columns := [] |}.

(** [len(df)] *)
Definition nrows (df : table) : nat := List.length (index df).

(** [df.columns] *)
Definition labels (df : table) : list label := map fst (columns df).

Fixpoint lookup_column (name : label) (cols : list (label * list pyval))
  : option (list pyval) :=
  match cols with
  | [] => None
  | (l, c) :: rest => if label_eqb l name then Some c else lookup_column name rest
  end.

(** [df[name]], [None] when [name not in df.columns]. *)
Definition get_column (df : table) (name : label) : option (list pyval) :=
  lookup_column name (columns df).

Fixpoint assign_column (name : label) (vals : list pyval)
  (cols : list (label * list pyval)) : list (label * list pyval) :=
  match cols with
  | [] => [(name, vals)]
  | (l, c) :: rest =>
      if label_eqb l name then (l, vals) :: rest
      else (l, c) :: assign_column name vals rest
  end.

(** [df[name] = vals]: replaces the column in place, appends a new one. *)
Definition set_column (df : table) (name : label) (vals : list pyval) : table :=
  {| index := index df; columns := assign_column name vals (columns df) |}.

(** *** The parts of the library taken as given *)

(** The exception classes a call into pandas ends in here. *)
Inductive library_error : Type :=
| RaisesValueError
| RaisesTypeError
| RaisesAttributeError
| RaisesKeyError
| RaisesOverflowError.

Definition raised (e : library_error) : exn :=
  match e with
  | RaisesValueError => ValueError
  | RaisesTypeError => TypeError
  | RaisesAttributeError => AttributeError
  | RaisesKeyError => KeyError
  | RaisesOverflowError => OverflowError
  end.

(** A result of the library, as the result of the call. *)
Definition from_library {A : Type} (r : library_error + A) : exn + A :=
  match r with
  | inr a => inr a
  | inl e => inl (raised e)
  end.

(** What the numeric parser makes of a text of digits it stores as a float:
    a float worth a non-negative integer, infinity, or NaN when it gives the
    text up. *)
Inductive parsed_float : Type :=
| ParsedCount (n : N)
| ParsedInf
| ParsedNaN.

(** [str_object]: the text form of lists, dicts, timestamps and of the
    integer-valued floats beyond [2^53].
    [frame_of_other]: the constructor on a non-empty list whose first element
    is not a dict and on a dict with a list or dict among its values.
    [records_error]: the exception of the constructor on a list that starts
    with a dict and holds an element that is not a dict.
    [infer_string]: whether a freshly built column of text is given the
    string type, whose missing cells are all NaN.
    [convert_big_ints]: the type inference on a column with an int beyond
    [2^53] that has to become a float, or with an int of [2^1023] or more:
    the cell stored for each value, or the exception of an int too large
    for a float.
    [float_of_run]: the float the numeric parser makes of a text of 16 to
    400 digits.
    [numeric_of_long]: the numeric parser on a column with a text of more
    than 4300 digits, or of more than 20 digits with a zero in front: the
    cell stored for each text.
    [infer_datetime]: the permissive date parser on a column with a cell
    that is neither a timestamp nor missing: the timestamp read from each
    cell ([None]: unparsable), or the exception the parser ends in. *)
Record library : Type := {
  str_object : pyval -> string;
  frame_of_other : pyval -> library_error + table;
  records_error : list pyval -> library_error;
  infer_string : bool;
  convert_big_ints : list pyval -> library_error + (pyval -> pyval);
  float_of_run : string -> parsed_float;
  numeric_of_long : list (option string) -> library_error + (option string -> pyval);
  infer_datetime : list pyval -> library_error + (pyval -> option Z)
}.

(** *** Building a table from a list of dicts *)

Fixpoint dict_get (k : string) (d : list (string * pyval)) : option pyval :=
  match d with
  | [] => None
  | (k', v) :: rest => if String.eqb k' k then Some v else dict_get k rest
  end.

Definition mem_string (k : string) (l : list string) : bool :=
  existsb (String.eqb k) l.

(** Keys in order of first appearance over the records. *)
Definition add_keys (seen : list string) (ks : list string) : list string :=
  fold_left (fun acc k => if mem_string k acc then acc else (acc ++ [k])%list) ks seen.

Definition record_keys (recs : list (list (string * pyval))) : list string :=
  fold_left (fun acc r => add_keys acc (map fst r)) recs [].

Definition INT64_MIN : Z := - 2 ^ 63.
Definition INT64_MAX : Z := 2 ^ 63 - 1.
Definition UINT64_MAX : Z := 2 ^ 64 - 1.

(** What the type inference of a freshly built column has seen so far. *)
Record seen : Type := {
  null_ : bool;
  nan_ : bool;
  bool_ : bool;
  float_ : bool;
  int_ : bool;
  uint_ : bool;
  sint_ : bool;
  object_ : bool
}.

Definition seen_nothing : seen :=
  {| null_ := false; nan_ := false; bool_ := false; float_ := false;
     int_ := false; uint_ := false; sint_ := false; object_ := false |}.

Definition see (s : seen) (v : pyval) : seen :=
  if object_ s then s
  else
    match v with
    | PNone =>
        {| null_ := true; nan_ := nan_ s; bool_ := bool_ s; float_ := float_ s;
           int_ := int_ s; uint_ := uint_ s; sint_ := sint_ s; object_ := false |}
    | PFloat FNaN =>
        {| null_ := null_ s; nan_ := true; bool_ := bool_ s; float_ := float_ s;
           int_ := int_ s; uint_ := uint_ s; sint_ := sint_ s; object_ := false |}
    | PBool _ =>
        {| null_ := null_ s; nan_ := nan_ s; bool_ := true; float_ := float_ s;
           int_ := int_ s; uint_ := uint_ s; sint_ := sint_ s; object_ := false |}
    | PFloat _ =>
        {| null_ := null_ s; nan_ := nan_ s; bool_ := bool_ s; float_ := true;
           int_ := int_ s; uint_ := uint_ s; sint_ := sint_ s; object_ := false |}
    | PInt z =>
        if null_ s then
          {| null_ := true; nan_ := nan_ s; bool_ := bool_ s; float_ := float_ s;
             int_ := true; uint_ := uint_ s; sint_ := sint_ s; object_ := false |}
        else
          let si := sint_ s || ((INT64_MIN <=? z) && (z <? 0)) in
          let ui := uint_ s || ((INT64_MAX <? z) && (z <=? UINT64_MAX)) in
          {| null_ := false; nan_ := nan_ s; bool_ := bool_ s; float_ := float_ s;
             int_ := true; uint_ := ui; sint_ := si;
             object_ := (ui && si) || (UINT64_MAX <? z) || (z <? INT64_MIN) |}
    | _ =>
        {| null_ := null_ s; nan_ := nan_ s; bool_ := bool_ s; float_ := float_ s;
           int_ := int_ s; uint_ := uint_ s; sint_ := sint_ s; object_ := true |}
    end.

(** The column becomes a float column: numbers with a float, a [None] or a
    NaN among them, and no text, nested value or boolean. *)
Definition float_bound (s : seen) : bool :=
  if object_ s then false
  else if bool_ s then false
  else if null_ s || nan_ s then float_ s || int_ s || nan_ s
  else float_ s.

Definition as_float (v : pyval) : pyval :=
  match v with
  | PNone => PFloat FNaN
  | PInt z => PFloat (FInt z)
  | _ => v
  end.

(** An int that is not a float exactly. *)
Definition needs_rounding (v : pyval) : bool :=
  match v with
  | PInt z => FLOAT_EXACT <? Z.abs z
  | _ => false
  end.

(** An int at the end of the float range, or beyond it. *)
Definition beyond_float (v : pyval) : bool :=
  match v with
  | PInt z => 2 ^ 1023 <=? Z.abs z
  | _ => false
  end.

Definition is_text (v : pyval) : bool :=
  match v with
  | PStr _ => true
  | _ => false
  end.

(** A cell of a column of text: text, or missing. *)
Definition text_or_missing (v : pyval) : bool :=
  match v with
  | PStr _ => true
  | _ => isna v
  end.

(** The missing cells of a column of the string type. *)
Definition null_as_nan (v : pyval) : pyval :=
  if isna v then PFloat FNaN else v.

(** The cell of record [r] under key [k]; a record without the key gets NaN. *)
Definition record_cell (k : string) (r : list (string * pyval)) : pyval :=
  match dict_get k r with
  | Some v => v
  | None => PFloat FNaN
  end.

(** [range(n)] as row labels. *)
Definition default_index (n : nat) : list Z := map Z.of_nat (seq 0 n).

(** The elements as dicts, [None] when one of them is not a dict (the
    constructor then fails on [x.keys()]). *)
Fixpoint as_records (l : list pyval) : option (list (list (string * pyval))) :=
  match l with
  | [] => Some []
  | PDict d :: rest =>
      match as_records rest with
      | Some rs => Some (d :: rs)
      | None => None
      end
  | _ :: _ => None
  end.

Definition is_scalar (v : pyval) : bool :=
  match v with
  | PList _ | PDict _ => false
  | _ => true
  end.

(** *** The numeric cleaning of lines 48-50, call by call *)

Definition is_digit (c : ascii) : bool :=
  ((48 <=? nat_of_ascii c) && (nat_of_ascii c <=? 57))%nat.

(** [re.sub(r'[^0-9]', '', s)] *)
Fixpoint strip_non_digits (s : string) : string :=
  match s with
  | EmptyString => EmptyString
  | String c r =>
      if is_digit c then String c (strip_non_digits r) else strip_non_digits r
  end.

(** [.str.replace(r'[^0-9]', '', regex=True)] on a column of text. *)
Definition str_replace_non_digits (col : list string) : list string :=
  map strip_non_digits col.

(** [.replace('', pd.NA)] on a column of text; [None] stands for [pd.NA]. *)
Definition replace_empty_NA (col : list string) : list (option string) :=
  map (fun s => if String.eqb s "" then None else Some s) col.

(** The number a text of decimal digits denotes.  The empty text and a text
    with any other character are unparsable (the library's parser also reads
    signs, fractions and exponents: no such text is left by line 48). *)
Definition parse_digits (s : string) : option Z :=
  match s with
  | EmptyString => None
  | _ => option_map Z.of_uint (NilEmpty.uint_of_string s)
  end.

Definition parse_cell (c : option string) : option Z :=
  match c with
  | Some s => parse_digits s
  | None => None
  end.

(** A text of digits the numeric parser turns into the float of the same
    value, whatever its rounding: at most 15 digits (every integer below
    [10^15] is a float, and 15 decimal digits are within the precision of
    every float parser). *)
Definition exact_run (s : string) : bool := (String.length s <=? 15)%nat.

(** A text of digits whose handling is the library's: more than 4300
    digits, or more than 20 digits with a zero in front. *)
Definition long_run (s : string) : bool :=
  (20 <? String.length s)%nat &&
  ((4300 <? String.length s)%nat ||
   match s with
   | String "0" _ => true
   | _ => false
   end).

Definition long_cell (c : option string) : bool :=
  match c with
  | Some s => long_run s
  | None => false
  end.

(** What a cell of a numeric column holds: the integer, or nothing. *)
Definition numeric_value (v : pyval) : option Z :=
  match v with
  | PInt n => Some n
  | PFloat (FInt n) => Some n
  | _ => None
  end.

Section WithLibrary.

Variable lib : library.

(** The type inference applied to each column built from records
    ([lib.maybe_convert_objects]): a column of ints and floats, or of numbers
    with [None] or NaN, becomes a float column; ints alone stay ints; a
    column with text, nested values or a mix with booleans keeps its Python
    objects, and a column of text may be given the string type.  The
    conversion of an int beyond [2^53] to a float is the library's. *)
Definition maybe_convert_objects (col : list pyval) : exn + list pyval :=
  let s := fold_left see col seen_nothing in
  if existsb beyond_float col || (float_bound s && existsb needs_rounding col) then
    match convert_big_ints lib col with
    | inr cell => inr (map cell col)
    | inl e => inl (raised e)
    end
  else if float_bound s then inr (map as_float col)
  else if existsb is_text col && forallb text_or_missing col && infer_string lib
  then inr (map null_as_nan col)
  else inr col.

(** The columns for the keys, in order; the first inference that raises ends
    the construction. *)
Fixpoint record_columns (recs : list (list (string * pyval))) (keys : list string)
  : exn + list (label * list pyval) :=
  match keys with
  | [] => inr []
  | k :: rest =>
      match maybe_convert_objects (map (record_cell k) recs) with
      | inl e => inl e
      | inr c =>
          match record_columns recs rest with
          | inl e => inl e
          | inr cols => inr ((LStr k, c) :: cols)
          end
      end
  end.

Definition from_records (recs : list (list (string * pyval))) : exn + table :=
  match record_columns recs (record_keys recs) with
  | inl e => inl e
  | inr cols => inr {| index := default_index (List.length recs); columns := cols |}
  end.

(** [.astype(str)] *)
Definition astype_str (col : list pyval) : list string :=
  map (py_str (str_object lib)) col.

(** The float cell the numeric parser stores for a text of digits (or for
    [pd.NA]): the float of the same value for a run of at most 15 digits,
    infinity for a run of more than 400 digits, the float of the library in
    between. *)
Definition float_cell (c : option string) : pyval :=
  match c with
  | None => PFloat FNaN
  | Some s =>
      match parse_digits s with
      | None => PFloat FNaN
      | Some n =>
          if exact_run s then PFloat (FInt n)
          else if (400 <? String.length s)%nat then PFloat (FInf false)
          else
            match float_of_run lib s with
            | ParsedCount m => PFloat (FInt (Z.of_N m))
            | ParsedInf => PFloat (FInf false)
            | ParsedNaN => PFloat FNaN
            end
      end
  end.

(** [pd.to_numeric(col, errors='coerce')]: unparsable and [pd.NA] cells
    become NaN.  The result is an integer column when every cell is present
    and fits 64 bits, a float column otherwise. *)
Definition to_numeric_coerce (col : list (option string)) : exn + list pyval :=
  if existsb long_cell col then
    match numeric_of_long lib col with
    | inr cell => inr (map cell col)
    | inl e => inl (raised e)
    end
  else
    let vals := map parse_cell col in
    if forallb (fun v => match v with Some n => n <=? UINT64_MAX | None => false end) vals
    then inr (map (fun v => match v with Some n => PInt n | None => PFloat FNaN end) vals)
    else inr (map float_cell col).

(** A cell the date parser has nothing to read in. *)
Definition settled (v : pyval) : bool :=
  match v with
  | PTimestamp _ | PNaT | PNone | PNA | PFloat FNaN => true
  | _ => false
  end.

Definition datetime_cell (parse : pyval -> option Z) (v : pyval) : pyval :=
  match v with
  | PTimestamp t => PTimestamp t
  | PNaT | PNone | PNA | PFloat FNaN => PNaT
  | _ =>
      match parse v with
      | Some t => PTimestamp t
      | None => PNaT
      end
  end.

(** [pd.to_datetime(col, errors='coerce')]: timestamps stay, missing and
    unparsable cells become [NaT]; the parser can still raise (as on texts
    that carry different UTC offsets). *)
Definition to_datetime_coerce (col : list pyval) : exn + list pyval :=
  if forallb settled col then inr (map (datetime_cell (fun _ => None)) col)
  else
    match infer_datetime lib col with
    | inr parse => inr (map (datetime_cell parse) col)
    | inl e => inl (raised e)
    end.

(** [pd.DataFrame(data)] for a value decoded from JSON. *)
Definition DataFrame (data : pyval) : exn + table :=
  match data with
  | PNone => inr empty_table
  | PList [] => inr empty_table
  | PList (PDict d :: rest) =>
      match as_records (PDict d :: rest) with
      | Some recs => from_records recs
      | None => inl (raised (records_error lib (PDict d :: rest)))
      end
  | PList _ => from_library (frame_of_other lib data)
  | PDict [] => inr empty_table
  | PDict d =>
      if forallb is_scalar (map snd d) then inl ValueError
      else from_library (frame_of_other lib data)
  | _ => inl ValueError
  end.

End WithLibrary.

End Pandas.

Import Pandas.

(* ===================================================================== *)
(** ** requests: one GET and what comes back *)
(* ===================================================================== *)

Module Requests.

Inductive body : Type :=
| Json (v : pyval)
| NotJson.

(** What a GET ends in: no connection, no answer within the timeout, or a
    response with its status and body. *)
Inductive http_outcome : Type :=
| Unreachable
| TimedOut
| Answer (status : Z) (b : body).

Record response : Type := {
  status_code : Z;
  content : body
}.

(** The two messages [load_data] passes to [st.error], each with the
    exception it formats into the text (lines 59 and 62). *)
Inductive report : Type :=
| FetchError (e : exn)
| ProcessingError (e : exn).

(** The world outside the function: what the endpoint does at the n-th
    request, the requests made so far (url and timeout), and the messages
    shown so far. *)
Record world : Type := {
  network : nat -> http_outcome;
  sent : list (string * Z);
  shown : list report
}.

(** A computation inside the [try] block: it may change the world and it
    ends in a value or in a raised exception. *)
Definition M (A : Type) : Type := world -> (exn + A) * world.

Definition ret {A : Type} (a : A) : M A := fun w => (inr a, w).

Definition lift {A : Type} (r : exn + A) : M A := fun w => (r, w).

Definition bind {A B : Type} (m : M A) (k : A -> M B) : M B :=
  fun w =>
    match m w with
    | (inr a, w') => k a w'
    | (inl e, w') => (inl e, w')
    end.

(** [requests.get(url, timeout=timeout)] *)
Definition get (url : string) (timeout : Z) : M response :=
  fun w =>
    let w' := {| network := network w;
                 sent := (sent w ++ [(url, timeout)])%list;
                 shown := shown w |} in
    match network w (List.length (sent w)) with
    | Unreachable => (inl ConnectionError, w')
    | TimedOut => (inl Timeout, w')
    | Answer st b => (inr {| status_code := st; content := b |}, w')
    end.

(** [response.raise_for_status()] *)
Definition raise_for_status (r : response) : exn + unit :=
  if (400 <=? status_code r) && (status_code r <? 600)
  then inl (HTTPError (status_code r))
  else inr tt.

(** [response.json()] *)
Definition json (r : response) : exn + pyval :=
  match content r with
  | Json v => inr v
  | NotJson => inl JSONDecodeError
  end.

(** [st.error(...)] *)
Definition st_error (m : report) (w : world) : world :=
  {| network := network w; sent := sent w; shown := (shown w ++ [m])%list |}.

End Requests.

Import Requests.

Declare Scope try_scope.
Notation "x <- m ;; k" := (bind m (fun x => k))
  (at level 61, m at next level, right associativity) : try_scope.

(* ===================================================================== *)
(** ** dash3.py *)
(* ===================================================================== *)

(** One statement after another, the first exception ending the run. *)
Definition and_then {A B : Type} (r : exn + A) (k : A -> exn + B) : exn + B :=
  match r with
  | inr a => k a
  | inl e => inl e
  end.

Section Dash.

Variable lib : library.

Local Open Scope try_scope.

Definition LAMBDA_URL : string :=
  "https://w7e62hoex6.execute-api.us-east-1.amazonaws.com/prod/getScrapingData".

(** Lines 47-50, for one [col] of the loop. *)
Definition clean_numeric (df : table) (col : string) : exn + table :=
  match get_column df (LStr col) with
  | Some c =>
      let cleaned := str_replace_non_digits (astype_str lib c) in
      let cleaned := replace_empty_NA cleaned in
      and_then (to_numeric_coerce lib cleaned)
               (fun vals => inr (set_column df (LStr col) vals))
  | None => inr df
  end.

(** Lines 53-54. *)
Definition convert_date (df : table) : exn + table :=
  match get_column df (LStr "DateScraping") with
  | Some c =>
      and_then (to_datetime_coerce lib c)
               (fun vals => inr (set_column df (LStr "DateScraping") vals))
  | None => inr df
  end.

(** Lines 46-54. *)
Definition normalize (df : table) : exn + table :=
  and_then
    (fold_left (fun r col => and_then r (fun df' => clean_numeric df' col))
               ["Km"; "Prix"; "Mc"] (inr df))
    convert_date.

(** Lines 30-56, the body of the [try]. *)
Definition load_data_try : M table :=
  response <- get LAMBDA_URL 30 ;;
  _ <- lift (raise_for_status response) ;;
  data <- lift (json response) ;;
  match data with
  | PList _ =>
      df <- lift (DataFrame lib data) ;;
      lift (normalize df)
  | PDict d =>
      match dict_get "data" d with
      | Some v =>
          df <- lift (DataFrame lib v) ;;
          lift (normalize df)
      | None =>
          df <- lift (DataFrame lib (PList [data])) ;;
          lift (normalize df)
      end
  | _ => ret empty_table
  end.

(** How a call ends for the caller. *)
Inductive result : Type :=
| Returned (df : table)
| Escaped (e : exn).

(** Lines 27-63: the [try] with its two handlers. *)
Definition load_data (w : world) : result * world :=
  match load_data_try w with
  | (inr df, w') => (Returned df, w')
  | (inl e, w') =>
      if is_RequestException e then
        (Returned empty_table, st_error (FetchError e) w')
      else if is_Exception e then
        (Returned empty_table, st_error (ProcessingError e) w')
      else (Escaped e, w')
  end.

(** *** The cache of line 26 *)

(** [ttl=300], in seconds. *)
Definition TTL : Z := 300.

(** One cached call: when it was stored, the value returned and the
    messages shown during the call (they are shown again on a hit). *)
Record entry : Type := {
  stored_at : Z;
  value : table;
  messages : list report
}.

Record session : Type := {
  env : world;
  cache : option entry
}.

Definition fresh (now : Z) (e : entry) : bool := now <? stored_at e + TTL.

(** [load_data()] as [main] calls it, through [@st.cache_data(ttl=300)], at
    time [now]: a fresh entry answers; otherwise the function runs and its
    return value is stored. *)
Definition cached_load_data (now : Z) (s : session) : result * session :=
  let run :=
    let (r, w') := load_data (env s) in
    match r with
    | Returned df =>
        (r, {| env := w';
               cache := Some {| stored_at := now; value := df;
                                messages := skipn (List.length (shown (env s))) (shown w') |} |})
    | Escaped _ => (r, {| env := w'; cache := cache s |})
    end in
  match cache s with
  | Some e =>
      if fresh now e then
        (Returned (value e),
         {| env := fold_left (fun w m => st_error m w) (messages e) (env s);
            cache := cache s |})
      else run
  | None => run
  end.


End Dash.
(* ===================================================================== *)
(** ** apply_filters (lines 65-116) *)
(* ===================================================================== *)

Module Filters.

(** The number a Python value compares as, with the two infinities. *)
Inductive number : Type :=
| MinusInf
| Finite (q : Q)
| PlusInf.

Definition digits_value (ds : string) : Z :=
  match NilEmpty.uint_of_string ds with
  | Some d => Z.of_uint d
  | None => 0
  end.

Definition py_number (v : pyval) : option number :=
  match v with
  | PBool b => Some (Finite (inject_Z (if b then 1 else 0)))
  | PInt z => Some (Finite (inject_Z z))
  | PFloat (FInt z) => Some (Finite (inject_Z z))
  | PFloat (FInf neg) => Some (if neg then MinusInf else PlusInf)
  | PFloat (FFrac neg ds p) =>
      let m := inject_Z (digits_value ds) in
      let q := Qmult m (Qpower (inject_Z 10) (p - Z.of_nat (String.length ds))) in
      Some (Finite (if neg then Qopp q else q))
  | _ => None
  end.

Definition number_eqb (a b : number) : bool :=
  match a, b with
  | MinusInf, MinusInf => true
  | PlusInf, PlusInf => true
  | Finite x, Finite y => Qeq_bool x y
  | _, _ => false
  end.

Definition number_ltb (a b : number) : bool :=
  match a, b with
  | MinusInf, MinusInf => false
  | MinusInf, _ => true
  | _, MinusInf => false
  | PlusInf, _ => false
  | _, PlusInf => true
  | Finite x, Finite y => Qle_bool x y && negb (Qeq_bool x y)
  end.

(** [cell == selected] as the comparison of a column with a scalar computes
    it for one cell: a missing cell equals nothing; text equals text;
    numbers and booleans compare by value. *)
Definition py_eq (cell selected : pyval) : bool :=
  if isna cell then false
  else
    match cell, selected with
    | PStr a, PStr b => String.eqb a b
    | PTimestamp a, PTimestamp b => Z.eqb a b
    | _, _ =>
        match py_number cell, py_number selected with
        | Some x, Some y => number_eqb x y
        | _, _ => false
        end
    end.

(** [a < b], [None] when Python refuses to order the two values. *)
Definition py_lt (a b : pyval) : option bool :=
  match a, b with
  | PStr x, PStr y => Some (String.ltb x y)
  | PTimestamp x, PTimestamp y => Some (Z.ltb x y)
  | _, _ =>
      match py_number a, py_number b with
      | Some x, Some y => Some (number_ltb x y)
      | _, _ => None
      end
  end.

Definition hashable (v : pyval) : bool :=
  match v with
  | PList _ | PDict _ => false
  | _ => true
  end.

(** [.dropna()] *)
Definition dropna (col : list pyval) : list pyval :=
  filter (fun v => negb (isna v)) col.

(** [.unique()]: first occurrences, in order; a list or a dict in the column
    cannot be hashed. *)
Definition unique (col : list pyval) : exn + list pyval :=
  if forallb hashable col then
    inr (fold_left
           (fun acc v => if existsb (fun u => py_eq u v) acc then acc else (acc ++ [v])%list)
           col [])
  else inl TypeError.

(** Inserts [x] after the elements of a sorted list that are not above it. *)
Fixpoint insert_sorted (x : pyval) (l : list pyval) : exn + list pyval :=
  match l with
  | [] => inr [x]
  | y :: rest =>
      match py_lt x y with
      | None => inl TypeError
      | Some true => inr (x :: y :: rest)
      | Some false =>
          match insert_sorted x rest with
          | inr r => inr (y :: r)
          | inl e => inl e
          end
      end
  end.

(** [sorted(l)]: raises [TypeError] on two values Python cannot order. *)
Definition sorted (l : list pyval) : exn + list pyval :=
  fold_left
    (fun acc x =>
       match acc with
       | inr done => insert_sorted x done
       | inl e => inl e
       end)
    l (inr []).

(** [['Tous'] + sorted(col.dropna().unique().tolist())] *)
Definition options (col : list pyval) : exn + list pyval :=
  match unique (dropna col) with
  | inl e => inl e
  | inr u =>
      match sorted u with
      | inl e => inl e
      | inr l => inr (PStr "Tous" :: l)
      end
  end.

(** Keeps the elements of [l] whose position holds [true] in the mask. *)
Fixpoint mask_filter {A : Type} (mask : list bool) (l : list A) : list A :=
  match mask, l with
  | b :: mask', x :: l' =>
      if b then x :: mask_filter mask' l' else mask_filter mask' l'
  | _, _ => []
  end.

(** [df[mask]] *)
Definition select_rows (mask : list bool) (df : table) : table :=
  {| index := mask_filter mask (index df);
     columns := map (fun lc => (fst lc, mask_filter mask (snd lc))) (columns df) |}.

(** The rows of a table, each with its row label. *)
Fixpoint rows_of (idx : list Z) (cols : list (list pyval)) : list (Z * list pyval) :=
  match idx with
  | [] => []
  | i :: idx' => (i, map (hd PNone) cols) :: rows_of idx' (map (@tl pyval) cols)
  end.

Definition rows (df : table) : list (Z * list pyval) :=
  rows_of (index df) (map snd (columns df)).

(** [l1] is [l2] with some elements left out, order kept. *)
Inductive subseq {A : Type} : list A -> list A -> Prop :=
| subseq_nil : subseq [] []
| subseq_skip : forall x l1 l2, subseq l1 l2 -> subseq l1 (x :: l2)
| subseq_keep : forall x l1 l2, subseq l1 l2 -> subseq (x :: l1) (x :: l2).

Section WithUser.

(** The user: for each select box (by its caption), the position of the
    option chosen; position 0, the first option, is what a box starts with. *)
Variable ui : string -> nat.

(** [st.sidebar.selectbox(caption, opts)]: the option at the chosen
    position, the first option when the position is past the end. *)
Definition selectbox (caption : string) (opts : list pyval) : pyval :=
  nth (ui caption) opts (hd PNone opts).

(** [selected != 'Tous'] *)
Definition not_tous (selected : pyval) : bool :=
  match selected with
  | PStr s => negb (String.eqb s "Tous")
  | _ => true
  end.

(** One of the six blocks: the options come from [df], the rows are taken
    out of [filtered_df]. *)
Definition filter_on (df : table) (col caption : string) (filtered_df : table)
  : exn + table :=
  match get_column df (LStr col) with
  | None => inr filtered_df
  | Some c =>
      match options c with
      | inl e => inl e
      | inr opts =>
          let selected := selectbox caption opts in
          if not_tous selected then
            match get_column filtered_df (LStr col) with
            | Some fc => inr (select_rows (map (fun v => py_eq v selected) fc) filtered_df)
            | None => inl KeyError
            end
          else inr filtered_df
      end
  end.

(** The six filters, in the order of the source: column and caption. *)
Definition filters : list (string * string) :=
  [ ("Source", "📍 Source");
    ("Transmission", "⚙️ Transmission");
    ("Carburant", "⛽ Carburant");
    ("Statut", "📊 Statut");
    ("Marque", "🏷️ Marque");
    ("Etat", "🔧 État") ].

Definition apply_filters (df : table) : exn + table :=
  fold_left
    (fun acc f =>
       match acc with
       | inr filtered_df => filter_on df (fst f) (snd f) filtered_df
       | inl e => inl e
       end)
    filters (inr df).

End WithUser.

End Filters.

Import Filters.

(* ===================================================================== *)
(** ** Vocabulary of the statements *)
(* ===================================================================== *)

(** [df[name] = f(df[name])] under [if name in df.columns]: the shape of
    lines 47-50 and of lines 53-54. *)
Definition update_column (f : list pyval -> exn + list pyval) (name : label) (df : table)
  : exn + table :=
  match get_column df name with
  | Some c => and_then (f c) (fun vals => inr (set_column df name vals))
  | None => inr df
  end.

(** The digits line 48 keeps of each cell of a column. *)
Definition digit_runs (lib : library) (c : list pyval) : list string :=
  str_replace_non_digits (astype_str lib c).

(** Lines 48-50 on one column. *)
Definition cleaned_column (lib : library) (c : list pyval) : exn + list pyval :=
  to_numeric_coerce lib (replace_empty_NA (digit_runs lib c)).

(** The float cell of a text of digits, [NaN] for the empty text. *)
Definition float_of_text (lib : library) (s : string) : pyval :=
  float_cell lib (if String.eqb s "" then None else Some s).

(** The int cell of a text of digits. *)
Definition int_of_text (s : string) : pyval :=
  match parse_digits s with
  | Some n => PInt n
  | None => PFloat FNaN
  end.

(** Every text of the column has digits and is worth at most [2^64-1]. *)
Definition fits_integers (runs : list string) : bool :=
  forallb (fun s => match parse_digits s with
                    | Some n => n <=? UINT64_MAX
                    | None => false
                    end) runs.

(** The value lines 35-41 hand to [pd.DataFrame]; [None] for the [else] of
    line 42. *)
Definition tabulated (data : pyval) : option pyval :=
  match data with
  | PList _ => Some data
  | PDict d =>
      match dict_get "data" d with
      | Some v => Some v
      | None => Some (PList [data])
      end
  | _ => None
  end.

(** The four columns lines 46-54 touch. *)
Definition recognized (l : label) : bool :=
  match l with
  | LStr s => existsb (String.eqb s) ["Km"; "Prix"; "Mc"; "DateScraping"]
  | LInt _ => false
  end.



(** A cell of a parsed date column: a timestamp or [NaT]. *)
Definition timestamp_or_missing (v : pyval) : bool :=
  match v with
  | PTimestamp _ | PNaT => true
  | _ => false
  end.

(** A cell of an integer column (64 bits) of non-negative values. *)
Definition stored_count (v : pyval) : bool :=
  match v with
  | PInt n => (0 <=? n) && (n <=? UINT64_MAX)
  | _ => false
  end.

(** The world after the request of line 30. *)
Definition requested (w : world) : world :=
  {| network := network w;
     sent := (sent w ++ [(LAMBDA_URL, 30)])%list;
     shown := shown w |}.

(** [raise_for_status] raises on this status. *)
Definition error_status (st : Z) : bool := (400 <=? st) && (st <? 600).


(** How a GET fails at the transport level: no connection, no answer in
    time, or a status [raise_for_status] raises on. *)
Definition transport_failure (o : http_outcome) : bool :=
  match o with
  | Unreachable | TimedOut => true
  | Answer st _ => error_status st
  end.

(** A value under [data] the constructor refuses: text, a number, a boolean,
    or a dict that has entries and only scalars as values. *)
Definition refused_value (v : pyval) : bool :=
  match v with
  | PBool _ | PInt _ | PFloat _ | PStr _ => true
  | PDict (kv :: rest) => forallb is_scalar (map snd (kv :: rest))
  | _ => false
  end.

(** An exception the handler of line 61 catches. *)
Definition processing_exception (e : exn) : Prop :=
  is_RequestException e = false /\ is_Exception e = true.

(** How one column changes when [f] is applied to it: [None] for a column
    that is not in the table. *)
Definition column_step (f : list pyval -> exn + list pyval)
  (before after : option (list pyval)) : Prop :=
  match before with
  | Some c => exists c', f c = inr c' /\ after = Some c'
  | None => after = None
  end.

(** What a call of [load_data] on a decoded body comes to, given the table
    the constructor builds: the normalized table and no message, or the
    empty table and the message of line 62 when a conversion raises. *)
Definition outcome_of (lib : library) (w : world) (df0 : table) : result * world :=
  match normalize lib df0 with
  | inr df => (Returned df, requested w)
  | inl e => (Returned empty_table, st_error (ProcessingError e) (requested w))
  end.

(** *** Concrete inputs *)

(** The float nearest to a non-negative integer, ties to the even one;
    [None] beyond the largest float. *)
Definition nearest_float64 (n : Z) : option Z :=
  if n <=? FLOAT_EXACT then Some n
  else
    let e := Z.log2 n - 52 in
    let q := Z.shiftr n e in
    let r := n - Z.shiftl q e in
    let half := Z.shiftl 1 (e - 1) in
    let q' := if (half <? r) || ((r =? half) && Z.odd q) then q + 1 else q in
    let m := Z.shiftl q' e in
    if 2 ^ 1024 <=? m then None else Some m.

Definition too_large_for_float (v : pyval) : bool :=
  match v with
  | PInt z =>
      match nearest_float64 (Z.abs z) with
      | Some _ => false
      | None => true
      end
  | _ => false
  end.

Definition rounded_float (v : pyval) : pyval :=
  match v with
  | PNone => PFloat FNaN
  | PInt z =>
      match nearest_float64 (Z.abs z) with
      | Some m => PFloat (FInt (Z.sgn z * m))
      | None => v
      end
  | _ => v
  end.

(** A library instance to run the examples with.  It rounds to the nearest
    float and raises OverflowError on an int too large for a float; it
    gives no text to the values whose text is left to the library, parses
    no date, builds no table from the inputs of the constructor left to it,
    keeps the Python objects of a column of text, and stores a column with
    an overlong text of digits as missing cells. *)
Definition plain_library : library :=
  {| str_object := fun _ => "";
     frame_of_other := fun _ => inl RaisesValueError;
     records_error := fun _ => RaisesAttributeError;
     infer_string := false;
     convert_big_ints := fun col =>
       if existsb too_large_for_float col then inl RaisesOverflowError
       else if float_bound (fold_left see col seen_nothing) then inr rounded_float
       else inr (fun v => v);
     float_of_run := fun s =>
       match parse_digits s with
       | Some n =>
           match nearest_float64 n with
           | Some m => ParsedCount (Z.to_N m)
           | None => ParsedInf
           end
       | None => ParsedNaN
       end;
     numeric_of_long := fun _ => inr (fun _ => PFloat FNaN);
     infer_datetime := fun _ => inr (fun _ => None) |}.

(** The UTC offset a text ends with ([+01:00]), if any. *)
Definition utc_offset (s : string) : option string :=
  let tail := substring (String.length s - 6) 6 s in
  match tail with
  | String sign (String a (String b (String colon (String c (String d EmptyString))))) =>
      if (Ascii.eqb sign "+" || Ascii.eqb sign "-") && Ascii.eqb colon ":" &&
         is_digit a && is_digit b && is_digit c && is_digit d
      then Some tail
      else None
  | _ => None
  end.

Definition offsets (col : list pyval) : list string :=
  flat_map (fun v =>
              match v with
              | PStr s =>
                  match utc_offset s with
                  | Some o => [o]
                  | None => []
                  end
              | _ => []
              end) col.

(** The column holds texts with two different UTC offsets. *)
Definition mixed_offsets (col : list pyval) : bool :=
  match offsets col with
  | [] => false
  | o :: rest => existsb (fun o' => negb (String.eqb o o')) rest
  end.

(** The instance above with a date parser that, as the one of pandas 3,
    raises ValueError on a column of texts with two different UTC offsets. *)
Definition offset_strict_library : library :=
  {| str_object := str_object plain_library;
     frame_of_other := frame_of_other plain_library;
     records_error := records_error plain_library;
     infer_string := true;
     convert_big_ints := convert_big_ints plain_library;
     float_of_run := float_of_run plain_library;
     numeric_of_long := numeric_of_long plain_library;
     infer_datetime := fun col =>
       if mixed_offsets col then inl RaisesValueError else inr (fun _ => None) |}.

(** A world whose endpoint always ends a request the same way. *)
Definition always (o : http_outcome) : world :=
  {| network := fun _ => o; sent := []; shown := [] |}.

Definition scenario1 : pyval :=
  PDict [("data",
          PList [PDict [("Km", PStr "120 000 km");
                        ("Prix", PStr "85.000 MAD");
                        ("Marque", PStr "Dacia")]])].

(** The payload of scenario 1 with two more fields beside [data]. *)
Definition scenario1_with_fields : pyval :=
  PDict [("Km", PStr "7 km");
         ("count", PInt 1);
         ("data",
          PList [PDict [("Km", PStr "120 000 km");
                        ("Prix", PStr "85.000 MAD");
                        ("Marque", PStr "Dacia")]])].

Definition record_under_data : pyval :=
  PDict [("data", PDict [("Km", PStr "120 000 km")])].

Definition two_listings : pyval :=
  PList [PDict [("Km", PStr "12 345 MAD"); ("DateScraping", PStr "n/a")];
         PDict [("Km", PStr "MAD"); ("Etat", PStr "Neuf")]].

Definition km_with_gap_payload : pyval :=
  PList [PDict [("Km", PStr "12 345 MAD")]; PDict [("Km", PStr "MAD")]].

(** What [load_data] returns for [km_with_gap_payload]. *)
Definition km_with_gap : table :=
  {| index := [0; 1];
     columns := [(LStr "Km", [PFloat (FInt 12345); PFloat FNaN])] |}.

(** A mileage of 401 digits: 1 followed by 400 zeros. *)
Definition long_digits : string := String "1" (zeros 400).


(** Two listings scraped in two time zones. *)
Definition two_offsets : pyval :=
  PList [PDict [("Marque", PStr "Dacia");
                ("DateScraping", PStr "2024-05-01T10:00:00+01:00")];
         PDict [("Marque", PStr "Renault");
                ("DateScraping", PStr "2024-05-02T10:00:00+02:00")]].

(** The table the constructor builds for [two_offsets]. *)
Definition two_offsets_table : table :=
  {| index := [0; 1];
     columns := [(LStr "Marque", [PStr "Dacia"; PStr "Renault"]);
                 (LStr "DateScraping", [PStr "2024-05-01T10:00:00+01:00";
                                        PStr "2024-05-02T10:00:00+02:00"])] |}.

(** An endpoint that answers the first request and is unreachable after. *)
Definition first_visit : session :=
  {| env := {| network := fun n => match n with
                                   | O => Answer 200 (Json scenario1)
                                   | S _ => Unreachable
                                   end;
               sent := [];
               shown := [] |};
     cache := None |}.

(** A table with a listing whose source is literally named 'Tous'. *)
Definition tous_table : table :=
  {| index := [0; 1];
     columns := [(LStr "Source", [PStr "avito"; PStr "Tous"])] |}.

(** A table whose Marque column mixes text and a number. *)
Definition mixed_table : table :=
  {| index := [0; 1];
     columns := [(LStr "Marque", [PStr "Dacia"; PInt 208])] |}.

Definition small_table : table :=
  {| index := [0; 1; 2];
     columns := [(LStr "Source", [PStr "avito"; PStr "moteur"; PStr "avito"]);
                 (LStr "Km", [PInt 10; PInt 20; PInt 30])] |}.

(** [small_table] with the dates of its three listings, one of them
    missing. *)
Definition dated_table : table :=
  {| index := [0; 1; 2];
     columns := [(LStr "Source", [PStr "avito"; PStr "moteur"; PStr "avito"]);
                 (LStr "Km", [PInt 10; PInt 20; PInt 30]);
                 (LStr "DateScraping",
                  [PTimestamp 1714557600000000000; PNaT;
                   PTimestamp 1714644000000000000])] |}.

(* ===================================================================== *)
(** ** main, from the title to the filter summary (lines 257-279) *)
(* ===================================================================== *)

(** The calls [main] itself makes on the page, in order. *)
Inductive call : Type :=
| Title (text : string)
| Markdown (text : string)
| Spinner (text : string)
| Error (text : string)
| Stop
| Success (text : string)
| Info (text : string).

(** Where the run stands after line 279: stopped by [st.stop()], ended by an
    exception, or going on to render the filtered table (lines 281-326). *)
Inductive outcome : Type :=
| Stopped
| Raised (e : exn)
| Continues (df filtered_df : table).

(** [df.empty]: no row or no column. *)
Definition empty (df : table) : bool :=
  (nrows df =? 0)%nat || (List.length (columns df) =? 0)%nat.

(** [str(len(df))] *)
Definition len_text (df : table) : string := int_str (Z.of_nat (nrows df)).

Definition main_opening (lib : library) (ui : string -> nat) (now : Z) (s : session)
  : (list call * outcome) * session :=
  let page := [Title "🚗 Dashboard Voitures";
               Markdown "---";
               Spinner "🔄 Chargement des données en cours..."] in
  let (r, s') := cached_load_data lib now s in
  match r with
  | Escaped e => ((page, Raised e), s')
  | Returned df =>
      if empty df then
        ((page ++ [Error "❌ Aucune donnée disponible."; Stop], Stopped)%list, s')
      else
        let page :=
          (page ++ [Success ("✅ " ++ len_text df ++ " voitures chargées avec succès")])%list in
        match apply_filters ui df with
        | inl e => ((page, Raised e), s')
        | inr filtered_df =>
            if (nrows filtered_df =? nrows df)%nat then
              ((page, Continues df filtered_df), s')
            else
              ((page ++ [Info ("🔍 " ++ len_text filtered_df
                               ++ " voitures correspondent aux filtres sélectionnés (sur "
                               ++ len_text df ++ " total)")],
                Continues df filtered_df)%list, s')
        end
  end.

(** A run of calls of [load_data()] at the given times, oldest first: the
    results, and the session after the last call. *)
Fixpoint calls (lib : library) (times : list Z) (s : session)
  : list result * session :=
  match times with
  | [] => ([], s)
  | t :: rest =>
      let (r, s1) := cached_load_data lib t s in
      let (rs, s2) := calls lib rest s1 in
      (r :: rs, s2)
  end.

(* ===================================================================== *)
(** ** Vocabulary of the further properties *)
(* ===================================================================== *)

(** Every column holds one cell per row. *)
Definition well_formed (df : table) : Prop :=
  Forall (fun lc => List.length (snd lc) = nrows df) (columns df).

(** A cell of a freshly built column: a non-negative int of at most 14
    digits (its tenfold has at most 15), or a null ([None], or NaN for a
    record without the key). *)
Definition small_count_or_null (v : pyval) : bool :=
  match v with
  | PInt n => (0 <=? n) && (n <? 10 ^ 14)
  | PNone | PFloat FNaN => true
  | _ => false
  end.

(** The cell a row holds under a label, the cells of the row standing in
    the order of the labels. *)
Fixpoint cell_of (name : label) (ls : list label) (cells : list pyval) : option pyval :=
  match ls, cells with
  | l :: ls', v :: cells' => if label_eqb l name then Some v else cell_of name ls' cells'
  | _, _ => None
  end.

(** The value one of the six filters keeps: none when its column is absent,
    when its options cannot be built, or when the option chosen is 'Tous'. *)
Definition active (ui : string -> nat) (df : table) (f : string * string) : option pyval :=
  match get_column df (LStr (fst f)) with
  | Some c =>
      match options c with
      | inr opts =>
          let selected := selectbox ui (snd f) opts in
          if not_tous selected then Some selected else None
      | inl _ => None
      end
  | None => None
  end.

(** The row holds a cell equal to [selected] under [name]. *)
Definition keeps (selected : pyval) (name : label) (ls : list label)
  (r : Z * list pyval) : bool :=
  match cell_of name ls (snd r) with
  | Some v => py_eq v selected
  | None => false
  end.

(** The row passes filter [f]. *)
Definition passes (ui : string -> nat) (df : table) (f : string * string)
  (r : Z * list pyval) : bool :=
  match active ui df f with
  | Some selected => keeps selected (LStr (fst f)) (labels df) r
  | None => true
  end.

(** The row passes the six filters. *)
Definition row_passes (ui : string -> nat) (df : table) (r : Z * list pyval) : bool :=
  forallb (fun f => passes ui df f r) filters.

(** Text in ascending order, as Python compares it. *)
Definition text_lt (a b : pyval) : Prop := py_lt a b = Some true.

(** A digit sequence with one more [0] at its end. *)
Fixpoint snoc0 (d : uint) : uint :=
  match d with
  | Nil => D0 Nil
  | D0 l => D0 (snoc0 l)
  | D1 l => D1 (snoc0 l)
  | D2 l => D2 (snoc0 l)
  | D3 l => D3 (snoc0 l)
  | D4 l => D4 (snoc0 l)
  | D5 l => D5 (snoc0 l)
  | D6 l => D6 (snoc0 l)
  | D7 l => D7 (snoc0 l)
  | D8 l => D8 (snoc0 l)
  | D9 l => D9 (snoc0 l)
  end.

(* ===================================================================== *)
(** ** The model on small inputs *)
(* ===================================================================== *)

Example float_str_integral so : float_str so (FInt 12345) = "12345.0".
Proof. reflexivity. Qed.

Example float_str_trailing_zeros so : float_str so (FInt 120000) = "120000.0".
Proof. reflexivity. Qed.

Example float_str_exponent so : float_str so (FFrac false "1" 17) = "1e+16".
Proof. reflexivity. Qed.

Example float_str_fraction so : float_str so (FFrac false "125" 2) = "12.5".
Proof. reflexivity. Qed.

Example float_str_small so : float_str so (FFrac true "15" (-4)) = "-1.5e-05".
Proof. reflexivity. Qed.

(** Beyond [2^53] the text of an integer-valued float is the library's. *)
Example float_str_beyond so :
  float_str so (FInt (2 ^ 60)) = so (PFloat (FInt (2 ^ 60))).
Proof. reflexivity. Qed.

Example int_str_negative : int_str (-42) = "-42".
Proof. reflexivity. Qed.

Example nearest_float64_tie :
  nearest_float64 9007199254740993 = Some 9007199254740992.
Proof. reflexivity. Qed.

Example nearest_float64_down :
  nearest_float64 90071992547409910 = Some 90071992547409904.
Proof. reflexivity. Qed.

Example nearest_float64_up :
  nearest_float64 9007199254740995 = Some 9007199254740996.
Proof. reflexivity. Qed.

(** Ints next to a [None] are stored as floats, ints alone stay ints, and
    a column that mixes text and numbers keeps every cell as it is. *)
Example convert_int_none lib :
  maybe_convert_objects lib [PInt 120000; PNone] =
  inr [PFloat (FInt 120000); PFloat FNaN].
Proof. reflexivity. Qed.

Example convert_ints lib :
  maybe_convert_objects lib [PInt 1; PInt 2] = inr [PInt 1; PInt 2].
Proof. reflexivity. Qed.

Example convert_mixed lib :
  maybe_convert_objects lib [PStr "12 km"; PNone; PInt 3] =
  inr [PStr "12 km"; PNone; PInt 3].
Proof. reflexivity. Qed.

(** A [None] in a column of text stays, or becomes NaN when the library
    gives the column the string type. *)
Example convert_text :
  maybe_convert_objects plain_library [PStr "Dacia"; PNone] =
  inr [PStr "Dacia"; PNone] /\
  maybe_convert_objects offset_strict_library [PStr "Dacia"; PNone] =
  inr [PStr "Dacia"; PFloat FNaN].
Proof. split; reflexivity. Qed.

(** An int beyond [2^53] next to a [None] is rounded by the library, and
    one too large for a float makes it raise. *)
Example convert_rounds :
  maybe_convert_objects plain_library [PInt 9007199254740993; PNone] =
  inr [PFloat (FInt 9007199254740992); PFloat FNaN].
Proof. reflexivity. Qed.

Example convert_overflows :
  maybe_convert_objects plain_library [PInt (10 ^ 400)] = inl OverflowError.
Proof. vm_compute. reflexivity. Qed.

Example record_keys_order :
  record_keys [[("b", PNone); ("a", PNone)]; [("a", PNone); ("c", PNone)]] = ["b"; "a"; "c"].
Proof. reflexivity. Qed.

(** The digits of the text of a float cell include the [0] after the point. *)
Example cleaned_float_cell lib :
  cleaned_column lib [PFloat (FInt 120000); PFloat FNaN] =
  inr [PFloat (FInt 1200000); PFloat FNaN].
Proof. reflexivity. Qed.

(** A run of digits beside a missing cell is stored as a float: rounded
    by the library beyond 15 digits, infinite beyond the float range. *)
Example cleaned_rounded_cell :
  cleaned_column plain_library [PStr "90071992547409910"; PStr ""] =
  inr [PFloat (FInt 90071992547409904); PFloat FNaN].
Proof. reflexivity. Qed.

Example cleaned_long_cell lib :
  cleaned_column lib [PStr long_digits] = inr [PFloat (FInf false)].
Proof. vm_compute. reflexivity. Qed.

Example dates_two_offsets :
  to_datetime_coerce offset_strict_library
    [PStr "2024-05-01T10:00:00+01:00"; PStr "2024-05-02T10:00:00+02:00"] =
  inl ValueError.
Proof. reflexivity. Qed.

Example dates_one_offset :
  to_datetime_coerce offset_strict_library
    [PStr "2024-05-01T10:00:00+01:00"; PNone; PTimestamp 5] =
  inr [PNaT; PNaT; PTimestamp 5].
Proof. reflexivity. Qed.

Example options_of_text :
  options [PStr "moteur"; PNone; PStr "avito"; PStr "moteur"] =
  inr [PStr "Tous"; PStr "avito"; PStr "moteur"].
Proof. reflexivity. Qed.

Example options_mixed : options [PStr "avito"; PInt 1] = inl TypeError.
Proof. reflexivity. Qed.

Example fetch_not_json :
  load_data plain_library (always (Answer 200 NotJson)) =
  (Returned empty_table,
   st_error (FetchError JSONDecodeError) (requested (always (Answer 200 NotJson)))).
Proof. reflexivity. Qed.

(** ** Lemmas on tables *)
(* ===================================================================== *)

Lemma label_eqb_eq (a b : label) : label_eqb a b = true <-> a = b.
Proof.
  destruct a, b; simpl; split; intro H; try discriminate; try congruence.
  - apply String.eqb_eq in H. congruence.
  - inversion H. apply String.eqb_refl.
  - apply Z.eqb_eq in H. congruence.
  - inversion H. apply Z.eqb_refl.
Qed.

Lemma label_eqb_refl (a : label) : label_eqb a a = true.
Proof. apply label_eqb_eq. reflexivity. Qed.

Lemma label_eqb_neq (a b : label) : label_eqb a b = false <-> a <> b.
Proof.
  split.
  - intros H E. apply label_eqb_eq in E. congruence.
  - intro H. destruct (label_eqb a b) eqn:E; [|reflexivity].
    apply label_eqb_eq in E. contradiction.
Qed.

Lemma lookup_assign_same name vals cols :
  lookup_column name (assign_column name vals cols) = Some vals.
Proof.
  induction cols as [|[l c] rest IH]; simpl.
  - rewrite label_eqb_refl. reflexivity.
  - destruct (label_eqb l name) eqn:E; simpl; rewrite E; auto.
Qed.

Lemma lookup_assign_other name other vals cols :
  name <> other ->
  lookup_column other (assign_column name vals cols) = lookup_column other cols.
Proof.
  intro Hne. induction cols as [|[l c] rest IH]; simpl.
  - apply label_eqb_neq in Hne. rewrite Hne. reflexivity.
  - destruct (label_eqb l name) eqn:E; simpl.
    + apply label_eqb_eq in E. subst l.
      apply label_eqb_neq in Hne. rewrite Hne. reflexivity.
    + destruct (label_eqb l other); auto.
Qed.

Lemma assign_present_labels name vals cols c :
  lookup_column name cols = Some c ->
  map fst (assign_column name vals cols) = map fst cols.
Proof.
  induction cols as [|[l c'] rest IH]; simpl; [discriminate|].
  destruct (label_eqb l name) eqn:E; simpl; intro H; [reflexivity|].
  f_equal. auto.
Qed.

Lemma assign_same_values name cols c :
  lookup_column name cols = Some c -> assign_column name c cols = cols.
Proof.
  induction cols as [|[l c'] rest IH]; simpl; [discriminate|].
  destruct (label_eqb l name) eqn:E; intro H.
  - congruence.
  - f_equal. auto.
Qed.


Lemma raised_caught e : processing_exception (raised e).
Proof. destruct e; split; reflexivity. Qed.

Lemma from_library_caught {A : Type} (r : library_error + A) e :
  from_library r = inl e -> processing_exception e.
Proof. destruct r; simpl; intros [= <-]. apply raised_caught. Qed.

Lemma update_column_absent f name df :
  get_column df name = None -> update_column f name df = inr df.
Proof. intro H. unfold update_column. rewrite H. reflexivity. Qed.

Lemma update_column_present f name df c :
  get_column df name = Some c ->
  update_column f name df =
  and_then (f c) (fun vals => inr (set_column df name vals)).
Proof. intro H. unfold update_column. rewrite H. reflexivity. Qed.

Lemma update_column_labels f name df df' :
  update_column f name df = inr df' -> labels df' = labels df.
Proof.
  unfold update_column, get_column.
  destruct (lookup_column name (columns df)) eqn:E; [|intros [= <-]; reflexivity].
  destruct (f l); simpl; intros [= <-].
  unfold labels; simpl. eapply assign_present_labels; eauto.
Qed.

Lemma update_column_index f name df df' :
  update_column f name df = inr df' -> index df' = index df.
Proof.
  unfold update_column. destruct (get_column df name); [|intros [= <-]; reflexivity].
  destruct (f l); simpl; intros [= <-]. reflexivity.
Qed.

Lemma update_column_same f name df df' :
  update_column f name df = inr df' ->
  column_step f (get_column df name) (get_column df' name).
Proof.
  unfold update_column, column_step.
  destruct (get_column df name) as [c|] eqn:E.
  - destruct (f c) as [e|c'] eqn:Ef; simpl; intros [= <-].
    exists c'. split; [reflexivity|]. unfold get_column; simpl. apply lookup_assign_same.
  - intros [= <-]. exact E.
Qed.

Lemma update_column_other f name other df df' :
  name <> other ->
  update_column f name df = inr df' ->
  get_column df' other = get_column df other.
Proof.
  intro Hne. unfold update_column. destruct (get_column df name) as [c|] eqn:E;
    [|intros [= <-]; reflexivity].
  destruct (f c); simpl; intros [= <-].
  unfold get_column; simpl. apply lookup_assign_other; assumption.
Qed.

Lemma update_column_fixed f name df :
  (forall c, get_column df name = Some c -> f c = inr c) ->
  update_column f name df = inr df.
Proof.
  intro H. unfold update_column. destruct (get_column df name) eqn:E; [|reflexivity].
  rewrite (H l eq_refl). simpl. destruct df as [idx cols]. unfold set_column; simpl.
  do 2 f_equal. apply assign_same_values. exact E.
Qed.

Lemma update_column_raises f name df e :
  update_column f name df = inl e ->
  exists c, get_column df name = Some c /\ f c = inl e.
Proof.
  unfold update_column. destruct (get_column df name) as [c|]; [|discriminate].
  destruct (f c) eqn:Ef; simpl; intros [= <-]. exists c. auto.
Qed.

Lemma clean_numeric_update lib df col :
  clean_numeric lib df col = update_column (cleaned_column lib) (LStr col) df.
Proof. reflexivity. Qed.

Lemma convert_date_update lib df :
  convert_date lib df = update_column (to_datetime_coerce lib) (LStr "DateScraping") df.
Proof. reflexivity. Qed.

Lemma normalize_steps lib df :
  normalize lib df =
  and_then (update_column (cleaned_column lib) (LStr "Km") df) (fun d1 =>
  and_then (update_column (cleaned_column lib) (LStr "Prix") d1) (fun d2 =>
  and_then (update_column (cleaned_column lib) (LStr "Mc") d2) (fun d3 =>
  update_column (to_datetime_coerce lib) (LStr "DateScraping") d3))).
Proof.
  unfold normalize. cbn [fold_left and_then]. rewrite !clean_numeric_update.
  destruct (update_column (cleaned_column lib) (LStr "Km") df) as [e|d1];
    [reflexivity|]. cbn [and_then]. rewrite !clean_numeric_update.
  destruct (update_column (cleaned_column lib) (LStr "Prix") d1) as [e|d2];
    [reflexivity|]. cbn [and_then]. rewrite !clean_numeric_update.
  destruct (update_column (cleaned_column lib) (LStr "Mc") d2) as [e|d3];
    reflexivity.
Qed.

(** The four steps of a normalization that returns. *)
Lemma normalize_returns lib df df' :
  normalize lib df = inr df' ->
  exists d1 d2 d3,
    update_column (cleaned_column lib) (LStr "Km") df = inr d1 /\
    update_column (cleaned_column lib) (LStr "Prix") d1 = inr d2 /\
    update_column (cleaned_column lib) (LStr "Mc") d2 = inr d3 /\
    update_column (to_datetime_coerce lib) (LStr "DateScraping") d3 = inr df'.
Proof.
  rewrite normalize_steps.
  destruct (update_column (cleaned_column lib) (LStr "Km") df) as [e|d1];
    [discriminate|]. cbn [and_then].
  destruct (update_column (cleaned_column lib) (LStr "Prix") d1) as [e|d2] eqn:E2;
    [discriminate|]. cbn [and_then].
  destruct (update_column (cleaned_column lib) (LStr "Mc") d2) as [e|d3] eqn:E3;
    [discriminate|]. cbn [and_then].
  intro H. exists d1, d2, d3. auto.
Qed.

Lemma normalize_labels lib df df' : normalize lib df = inr df' -> labels df' = labels df.
Proof.
  intro H. destruct (normalize_returns _ _ _ H) as (d1 & d2 & d3 & H1 & H2 & H3 & H4).
  rewrite (update_column_labels _ _ _ _ H4), (update_column_labels _ _ _ _ H3),
    (update_column_labels _ _ _ _ H2). eapply update_column_labels; eauto.
Qed.

Lemma normalize_index lib df df' : normalize lib df = inr df' -> index df' = index df.
Proof.
  intro H. destruct (normalize_returns _ _ _ H) as (d1 & d2 & d3 & H1 & H2 & H3 & H4).
  rewrite (update_column_index _ _ _ _ H4), (update_column_index _ _ _ _ H3),
    (update_column_index _ _ _ _ H2). eapply update_column_index; eauto.
Qed.

Lemma normalize_other lib df df' l :
  normalize lib df = inr df' ->
  recognized l = false -> get_column df' l = get_column df l.
Proof.
  intros Hn H. destruct (normalize_returns _ _ _ Hn) as (d1 & d2 & d3 & H1 & H2 & H3 & H4).
  assert (forall s, In s ["Km"; "Prix"; "Mc"; "DateScraping"] -> LStr s <> l) as Hd.
  { intros s Hs E. subst l. simpl in H.
    simpl in Hs. destruct Hs as [<-|[<-|[<-|[<-|[]]]]]; discriminate. }
  rewrite (update_column_other _ _ l _ _ (Hd "DateScraping" ltac:(simpl; auto)) H4).
  rewrite (update_column_other _ _ l _ _ (Hd "Mc" ltac:(simpl; auto)) H3).
  rewrite (update_column_other _ _ l _ _ (Hd "Prix" ltac:(simpl; auto)) H2).
  apply (update_column_other _ _ l _ _ (Hd "Km" ltac:(simpl; auto)) H1).
Qed.

Lemma normalize_numeric lib df df' col :
  normalize lib df = inr df' ->
  In col ["Km"; "Prix"; "Mc"] ->
  column_step (cleaned_column lib) (get_column df (LStr col)) (get_column df' (LStr col)).
Proof.
  intros Hn H. destruct (normalize_returns _ _ _ Hn) as (d1 & d2 & d3 & H1 & H2 & H3 & H4).
  simpl in H. destruct H as [<-|[<-|[<-|[]]]].
  - rewrite (fun Hne => update_column_other _ _ (LStr "Km") _ _ Hne H4) by discriminate.
    rewrite (fun Hne => update_column_other _ _ (LStr "Km") _ _ Hne H3) by discriminate.
    rewrite (fun Hne => update_column_other _ _ (LStr "Km") _ _ Hne H2) by discriminate.
    apply update_column_same. exact H1.
  - rewrite (fun Hne => update_column_other _ _ (LStr "Prix") _ _ Hne H4) by discriminate.
    rewrite (fun Hne => update_column_other _ _ (LStr "Prix") _ _ Hne H3) by discriminate.
    rewrite <- (fun Hne => update_column_other _ _ (LStr "Prix") _ _ Hne H1) by discriminate.
    apply update_column_same. exact H2.
  - rewrite (fun Hne => update_column_other _ _ (LStr "Mc") _ _ Hne H4) by discriminate.
    rewrite <- (fun Hne => update_column_other _ _ (LStr "Mc") _ _ Hne H1) by discriminate.
    rewrite <- (fun Hne => update_column_other _ _ (LStr "Mc") _ _ Hne H2) by discriminate.
    apply update_column_same. exact H3.
Qed.


(** A normalization that raises: one of the four conversions raised. *)
Lemma normalize_raises lib df e :
  normalize lib df = inl e ->
  exists c, cleaned_column lib c = inl e \/ to_datetime_coerce lib c = inl e.
Proof.
  rewrite normalize_steps.
  destruct (update_column (cleaned_column lib) (LStr "Km") df) as [e1|d1] eqn:E1.
  { intros [= <-]. destruct (update_column_raises _ _ _ _ E1) as (c & _ & H). eauto. }
  cbn [and_then].
  destruct (update_column (cleaned_column lib) (LStr "Prix") d1) as [e2|d2] eqn:E2.
  { intros [= <-]. destruct (update_column_raises _ _ _ _ E2) as (c & _ & H). eauto. }
  cbn [and_then].
  destruct (update_column (cleaned_column lib) (LStr "Mc") d2) as [e3|d3] eqn:E3.
  { intros [= <-]. destruct (update_column_raises _ _ _ _ E3) as (c & _ & H). eauto. }
  cbn [and_then]. intro E4.
  destruct (update_column_raises _ _ _ _ E4) as (c & _ & H). eauto.
Qed.

(** A table without the four columns is left as it is. *)
Lemma normalize_unrecognized lib df :
  (forall l, In l (labels df) -> recognized l = false) ->
  normalize lib df = inr df.
Proof.
  intro H.
  assert (forall s, In s ["Km"; "Prix"; "Mc"; "DateScraping"] ->
                    get_column df (LStr s) = None) as Ha.
  { intros s Hs. destruct (get_column df (LStr s)) as [c|] eqn:E; [|reflexivity].
    exfalso. unfold get_column in E.
    assert (In (LStr s) (labels df)) as Hin.
    { unfold labels. clear - E. induction (columns df) as [|[l c'] cols IH];
        simpl in *; [discriminate|].
      destruct (label_eqb l (LStr s)) eqn:El; [left; apply label_eqb_eq; exact El|].
      right. auto. }
    specialize (H _ Hin). simpl in H.
    simpl in Hs. destruct Hs as [<-|[<-|[<-|[<-|[]]]]]; discriminate. }
  rewrite normalize_steps.
  rewrite (update_column_absent _ _ _ (Ha "Km" ltac:(simpl; auto))). cbn [and_then].
  rewrite (update_column_absent _ _ _ (Ha "Prix" ltac:(simpl; auto))). cbn [and_then].
  rewrite (update_column_absent _ _ _ (Ha "Mc" ltac:(simpl; auto))). cbn [and_then].
  apply update_column_absent. apply Ha. simpl; auto.
Qed.

(* ===================================================================== *)
(** ** Lemmas on the numeric cleaning *)
(* ===================================================================== *)


Lemma parse_cell_replace s :
  parse_cell (if String.eqb s "" then None else Some s) = parse_digits s.
Proof. destruct s; reflexivity. Qed.

(** Decimal text of a digit sequence passes the digit filter unchanged. *)
Lemma strip_digits_of_uint d :
  strip_non_digits (NilEmpty.string_of_uint d) = NilEmpty.string_of_uint d.
Proof. induction d; simpl; try rewrite IHd; reflexivity. Qed.

Lemma int_str_nonneg n :
  0 <= n ->
  exists d, d <> Nil /\ int_str n = NilEmpty.string_of_uint d /\ Z.of_uint d = n.
Proof.
  intro H. destruct n as [|p|p]; [| |lia].
  - exists Decimal.zero. repeat split. discriminate.
  - exists (Pos.to_uint p). split; [apply Unsigned.to_uint_nonnil|].
    split.
    + unfold int_str; simpl. unfold NilZero.string_of_uint.
      destruct (Pos.to_uint p) eqn:E; try reflexivity.
      exfalso. eapply Unsigned.to_uint_nonnil; eauto.
    + unfold Z.of_uint. rewrite Unsigned.of_to. reflexivity.
Qed.

Lemma string_of_uint_nonempty d : d <> Nil -> NilEmpty.string_of_uint d <> "".
Proof. destruct d; simpl; intros H; congruence. Qed.

(** Text, filter and parse give back a non-negative int. *)
Lemma parse_strip_int_str n :
  0 <= n -> parse_digits (strip_non_digits (int_str n)) = Some n.
Proof.
  intro H. destruct (int_str_nonneg n H) as (d & Hd & Hs & Hv).
  rewrite Hs, strip_digits_of_uint. unfold parse_digits.
  pose proof (string_of_uint_nonempty d Hd) as Hne.
  destruct (NilEmpty.string_of_uint d) eqn:E; [congruence|].
  rewrite <- E, NilEmpty.usu. simpl. congruence.
Qed.

Lemma strip_int_str n : 0 <= n -> strip_non_digits (int_str n) = int_str n.
Proof.
  intro H. destruct (int_str_nonneg n H) as (d & Hd & Hs & Hv).
  rewrite Hs. apply strip_digits_of_uint.
Qed.

Lemma string_of_uint_snoc0 d :
  NilEmpty.string_of_uint (snoc0 d) = NilEmpty.string_of_uint d ++ "0".
Proof. induction d; simpl; try rewrite IHd; reflexivity. Qed.

Lemma of_uint_acc_snoc0 l acc :
  Pos.of_uint_acc (snoc0 l) acc = (10 * Pos.of_uint_acc l acc)%positive.
Proof. revert acc. induction l; intro acc; simpl; try rewrite IHl; reflexivity. Qed.

Lemma of_uint_snoc0 d : Z.of_uint (snoc0 d) = 10 * Z.of_uint d.
Proof.
  unfold Z.of_uint. induction d; [reflexivity|exact IHd|..];
    cbn [snoc0 Pos.of_uint]; rewrite of_uint_acc_snoc0; reflexivity.
Qed.

Lemma length_string_of_uint d :
  String.length (NilEmpty.string_of_uint d) = nb_digits d.
Proof. induction d; simpl; try rewrite IHd; reflexivity. Qed.

Lemma of_uint_acc_lower l acc :
  Zpos acc * 10 ^ Z.of_nat (nb_digits l) <= Zpos (Pos.of_uint_acc l acc).
Proof.
  revert acc. induction l; intro acc;
    [cbn [Pos.of_uint_acc nb_digits]; change (Z.of_nat 0) with 0; rewrite Z.pow_0_r; lia|..];
    cbn [Pos.of_uint_acc nb_digits];
    rewrite Nat2Z.inj_succ, Z.pow_succ_r by lia;
    match goal with
    | |- _ <= Zpos (Pos.of_uint_acc l ?a) =>
        pose proof (IHl a) as H;
        assert (Zpos acc * 10 <= Zpos a) as Ha by lia
    end;
    assert (0 < 10 ^ Z.of_nat (nb_digits l)) by (apply Z.pow_pos_nonneg; lia);
    nia.
Qed.

Lemma normal_digits_lower d q :
  Pos.of_uint d = Npos q -> unorm d = d ->
  10 ^ (Z.of_nat (nb_digits d) - 1) <= Zpos q.
Proof.
  intros Hv Hn.
  destruct d; simpl in Hv; try discriminate Hv;
    try (inversion Hv; subst q;
         match goal with
         | |- _ <= Zpos (Pos.of_uint_acc ?l ?a) =>
             pose proof (of_uint_acc_lower l a) as H
         end;
         simpl nb_digits; rewrite Nat2Z.inj_succ;
         replace (Z.succ (Z.of_nat (nb_digits d)) - 1) with (Z.of_nat (nb_digits d)) by lia;
         assert (0 < 10 ^ Z.of_nat (nb_digits d)) by (apply Z.pow_pos_nonneg; lia);
         nia).
  exfalso. rewrite DecimalFacts.unorm_D0 in Hn.
  destruct d; [discriminate Hv| | | | | | | | | |];
    match type of Hn with
    | unorm ?l = _ =>
        assert (l <> Nil) as Hl by discriminate;
        pose proof (DecimalFacts.nb_digits_unorm l Hl) as Hle;
        rewrite Hn in Hle; simpl in Hle; lia
    end.
Qed.

(** A non-negative int below [10^k] has at most [k] digits. *)
Lemma digits_bound (k : nat) n :
  (1 <= k)%nat -> 0 <= n < 10 ^ Z.of_nat k -> (String.length (int_str n) <= k)%nat.
Proof.
  intros Hk [H0 H1]. destruct n as [|p|p]; [simpl; lia| |lia].
  unfold int_str; simpl. unfold NilZero.string_of_uint.
  assert (String.length (NilEmpty.string_of_uint (Pos.to_uint p)) <= k)%nat as Hlen.
  { rewrite length_string_of_uint.
    assert (unorm (Pos.to_uint p) = Pos.to_uint p) as Hn.
    { rewrite <- Unsigned.to_of, Unsigned.of_to. reflexivity. }
    pose proof (normal_digits_lower _ _ (Unsigned.of_to p) Hn) as Hl.
    destruct (Nat.le_gt_cases (nb_digits (Pos.to_uint p)) k) as [Hle|Hgt]; [exact Hle|].
    exfalso.
    assert (10 ^ Z.of_nat k <= 10 ^ (Z.of_nat (nb_digits (Pos.to_uint p)) - 1))
      by (apply Z.pow_le_mono_r; lia).
    lia. }
  destruct (Pos.to_uint p); try exact Hlen. simpl. lia.
Qed.

Lemma long_run_short s : (String.length s <= 20)%nat -> long_run s = false.
Proof.
  intro H. unfold long_run.
  assert ((20 <? String.length s)%nat = false) as -> by (apply Nat.ltb_ge; exact H).
  reflexivity.
Qed.

Lemma long_cell_replace runs :
  existsb long_cell (replace_empty_NA runs) = existsb long_run runs.
Proof.
  unfold replace_empty_NA. induction runs as [|s runs IH]; [reflexivity|].
  cbn [map existsb]. rewrite IH. destruct s; reflexivity.
Qed.

Lemma parse_cells_replace runs :
  map parse_cell (replace_empty_NA runs) = map parse_digits runs.
Proof.
  unfold replace_empty_NA. rewrite map_map. apply map_ext. apply parse_cell_replace.
Qed.

(** What the numeric parser returns on a column without overlong text. *)
Lemma to_numeric_plain lib runs :
  existsb long_run runs = false ->
  to_numeric_coerce lib (replace_empty_NA runs) =
  inr (if fits_integers runs then map int_of_text runs
       else map (float_of_text lib) runs).
Proof.
  intro H. unfold to_numeric_coerce. rewrite long_cell_replace, H.
  cbv zeta. rewrite parse_cells_replace. unfold fits_integers.
  assert (forall (f : option Z -> bool) l,
            forallb f (map parse_digits l) = forallb (fun s => f (parse_digits s)) l) as Hf.
  { intros f l. induction l as [|x l IH]; simpl; [reflexivity|]. rewrite IH. reflexivity. }
  rewrite Hf.
  destruct (forallb _ runs).
  - rewrite map_map. reflexivity.
  - unfold replace_empty_NA. rewrite map_map. reflexivity.
Qed.

Lemma to_numeric_long lib runs :
  existsb long_run runs = true ->
  to_numeric_coerce lib (replace_empty_NA runs) =
  match numeric_of_long lib (replace_empty_NA runs) with
  | inr cell => inr (map cell (replace_empty_NA runs))
  | inl e => inl (raised e)
  end.
Proof.
  intro H. unfold to_numeric_coerce. rewrite long_cell_replace, H. reflexivity.
Qed.

Lemma cleaned_column_plain lib c :
  existsb long_run (digit_runs lib c) = false ->
  cleaned_column lib c =
  inr (if fits_integers (digit_runs lib c) then map int_of_text (digit_runs lib c)
       else map (float_of_text lib) (digit_runs lib c)).
Proof. intro H. unfold cleaned_column. apply to_numeric_plain. exact H. Qed.

Lemma cleaned_column_length lib c c' :
  cleaned_column lib c = inr c' -> List.length c' = List.length c.
Proof.
  unfold cleaned_column.
  destruct (existsb long_run (digit_runs lib c)) eqn:E.
  - rewrite (to_numeric_long _ _ E).
    destruct (numeric_of_long lib _); intros [= <-].
    unfold replace_empty_NA, digit_runs, str_replace_non_digits, astype_str.
    rewrite !length_map. reflexivity.
  - rewrite (to_numeric_plain _ _ E).
    destruct (fits_integers _); intros [= <-];
      unfold digit_runs, str_replace_non_digits, astype_str;
      rewrite !length_map; reflexivity.
Qed.

Lemma cleaned_column_raises lib c e :
  cleaned_column lib c = inl e -> processing_exception e.
Proof.
  unfold cleaned_column.
  destruct (existsb long_run (digit_runs lib c)) eqn:E.
  - rewrite (to_numeric_long _ _ E).
    destruct (numeric_of_long lib _); intros [= <-]. apply raised_caught.
  - rewrite (to_numeric_plain _ _ E). discriminate.
Qed.




Lemma parse_digits_empty : parse_digits "" = None.
Proof. reflexivity. Qed.

Lemma float_of_text_exact lib s :
  exact_run s = true -> numeric_value (float_of_text lib s) = parse_digits s.
Proof.
  intro H. unfold float_of_text.
  destruct s as [|a s]; [reflexivity|].
  cbn [String.eqb]. unfold float_cell. rewrite H.
  destruct (parse_digits (String a s)); reflexivity.
Qed.




(** What the digit filter leaves is the decimal text of a digit sequence. *)
Lemma digit_char_parses c :
  is_digit c = true ->
  forall d, exists d', NilEmpty.uint_of_string (String c (NilEmpty.string_of_uint d)) = Some d'.
Proof.
  intros H d. simpl. rewrite NilEmpty.usu.
  destruct c as [[] [] [] [] [] [] [] []]; try discriminate H;
    eexists; reflexivity.
Qed.

Lemma strip_is_digits s :
  exists d, strip_non_digits s = NilEmpty.string_of_uint d.
Proof.
  induction s as [|c r [d IH]]; simpl.
  - exists Nil. reflexivity.
  - destruct (is_digit c) eqn:E; [|exists d; exact IH].
    rewrite IH. destruct (digit_char_parses c E d) as [d' Hd'].
    exists d'. symmetry. apply NilEmpty.sus. exact Hd'.
Qed.

Lemma parse_strip_none s :
  parse_digits (strip_non_digits s) = None <-> strip_non_digits s = "".
Proof.
  split.
  - destruct (strip_is_digits s) as [d Hd]. rewrite Hd.
    unfold parse_digits. destruct (NilEmpty.string_of_uint d) eqn:E; [reflexivity|].
    rewrite <- E, NilEmpty.usu. discriminate.
  - intros ->. reflexivity.
Qed.


Lemma digit_runs_parse lib c s :
  In s (digit_runs lib c) -> s = "" \/ exists n, parse_digits s = Some n.
Proof.
  unfold digit_runs, str_replace_non_digits, astype_str. rewrite map_map.
  intro H. apply in_map_iff in H. destruct H as (v & <- & _).
  destruct (parse_digits (strip_non_digits (py_str (str_object lib) v))) eqn:E.
  - right. eauto.
  - left. apply parse_strip_none. exact E.
Qed.

(** A column of counts that fit 64 bits is cleaned to itself. *)
Lemma cleaned_column_fixed lib c :
  Forall (fun v => stored_count v = true) c -> cleaned_column lib c = inr c.
Proof.
  intro H.
  assert (digit_runs lib c = map (fun v => match v with PInt n => int_str n | _ => "" end) c
          /\ Forall (fun s => (String.length s <= 20)%nat /\
                              exists n, parse_digits s = Some n /\ n <= UINT64_MAX /\
                                        s = int_str n /\ 0 <= n)
                    (digit_runs lib c)) as [Hr Hs].
  { unfold digit_runs, str_replace_non_digits, astype_str. rewrite map_map.
    induction H as [|v c Hv Hc [IH1 IH2]]; [split; constructor|].
    destruct v; try discriminate Hv. simpl in Hv.
    apply andb_true_iff in Hv. destruct Hv as [H0 H1].
    apply Z.leb_le in H0. apply Z.leb_le in H1.
    cbn [map py_str]. rewrite strip_int_str by exact H0. split.
    - f_equal. exact IH1.
    - constructor; [|exact IH2]. split.
      + apply digits_bound; [lia|]. split; [exact H0|].
        assert (UINT64_MAX < 10 ^ Z.of_nat 20) by reflexivity. lia.
      + exists z. rewrite <- (strip_int_str z H0) at 1.
        rewrite parse_strip_int_str by exact H0. auto. }
  rewrite cleaned_column_plain.
  - assert (fits_integers (digit_runs lib c) = true) as ->.
    { apply forallb_forall. intros s Hin. rewrite Forall_forall in Hs.
      destruct (Hs s Hin) as (_ & n & -> & Hn & _). apply Z.leb_le. exact Hn. }
    f_equal. rewrite Hr, map_map. rewrite <- (map_id c) at 2.
    apply map_ext_in. intros v Hv. rewrite Forall_forall in H. specialize (H v Hv).
    destruct v; try discriminate H. simpl in H.
    apply andb_true_iff in H. destruct H as [H0 _]. apply Z.leb_le in H0.
    unfold int_of_text. rewrite <- (strip_int_str z H0).
    rewrite parse_strip_int_str by exact H0. reflexivity.
  - apply not_true_is_false. intro E. apply existsb_exists in E.
    destruct E as (s & Hin & Hl). rewrite Forall_forall in Hs.
    destruct (Hs s Hin) as (Hlen & _). rewrite long_run_short in Hl by exact Hlen.
    discriminate Hl.
Qed.


Lemma to_datetime_fixed lib c :
  Forall (fun v => timestamp_or_missing v = true) c -> to_datetime_coerce lib c = inr c.
Proof.
  intro H. unfold to_datetime_coerce.
  assert (forallb settled c = true) as ->.
  { apply forallb_forall. intros v Hv. rewrite Forall_forall in H. specialize (H v Hv).
    destruct v; try discriminate; reflexivity. }
  f_equal. rewrite <- (map_id c) at 2. apply map_ext_in. intros v Hv.
  rewrite Forall_forall in H. specialize (H v Hv).
  destruct v; try discriminate; reflexivity.
Qed.

Lemma to_datetime_length lib c c' :
  to_datetime_coerce lib c = inr c' -> List.length c' = List.length c.
Proof.
  unfold to_datetime_coerce.
  destruct (forallb settled c); [intros [= <-]; apply length_map|].
  destruct (infer_datetime lib c); intros [= <-]. apply length_map.
Qed.

Lemma to_datetime_raises lib c e :
  to_datetime_coerce lib c = inl e -> processing_exception e.
Proof.
  unfold to_datetime_coerce.
  destruct (forallb settled c); [discriminate|].
  destruct (infer_datetime lib c); intros [= <-]. apply raised_caught.
Qed.

Lemma normalize_caught lib df e :
  normalize lib df = inl e -> processing_exception e.
Proof.
  intro H. destruct (normalize_raises _ _ _ H) as (c & [Hc|Hc]).
  - eapply cleaned_column_raises; eauto.
  - eapply to_datetime_raises; eauto.
Qed.

(* ===================================================================== *)
(** ** Lemmas on tables built from records *)
(* ===================================================================== *)

Lemma as_records_length l recs :
  as_records l = Some recs -> List.length recs = List.length l.
Proof.
  revert recs. induction l as [|v l IH]; simpl; intros recs H.
  - inversion H. reflexivity.
  - destruct v; try discriminate.
    destruct (as_records l) eqn:E; [|discriminate].
    inversion H; subst. simpl. f_equal. apply IH. reflexivity.
Qed.

Lemma maybe_convert_raises lib col e :
  maybe_convert_objects lib col = inl e -> processing_exception e.
Proof.
  unfold maybe_convert_objects.
  repeat match goal with
         | |- (if ?b then _ else _) = _ -> _ => destruct b
         | |- (match ?x with _ => _ end) = _ -> _ => destruct x
         end; intros [= <-]. apply raised_caught.
Qed.

Lemma maybe_convert_length lib col col' :
  maybe_convert_objects lib col = inr col' -> List.length col' = List.length col.
Proof.
  unfold maybe_convert_objects.
  repeat match goal with
         | |- (if ?b then _ else _) = _ -> _ => destruct b
         | |- (match ?x with _ => _ end) = _ -> _ => destruct x
         end; intros [= <-]; rewrite ?length_map; reflexivity.
Qed.

(** A column of one cell is kept as it is, unless the cell is an int at the
    end of the float range. *)
Lemma maybe_convert_single lib v :
  beyond_float v = false -> maybe_convert_objects lib [v] = inr [v].
Proof.
  intro H. unfold maybe_convert_objects. cbn [existsb]. rewrite H. cbn [orb].
  destruct v as [| |z|f| | | | | |]; try reflexivity.
  - cbn [fold_left see seen_nothing object_ null_]. unfold float_bound. cbn.
    match goal with
    | |- context [if ?b then false else false] => destruct b
    end; reflexivity.
  - destruct f; reflexivity.
  - cbn. destruct (infer_string lib); reflexivity.
Qed.

Lemma record_columns_raises lib recs keys e :
  record_columns lib recs keys = inl e -> processing_exception e.
Proof.
  induction keys as [|k keys IH]; simpl; [discriminate|].
  destruct (maybe_convert_objects lib (map (record_cell k) recs)) eqn:E.
  - intros [= <-]. eapply maybe_convert_raises; eauto.
  - destruct (record_columns lib recs keys); [|discriminate].
    intros [= <-]. apply IH. reflexivity.
Qed.

Lemma record_columns_returns lib recs keys cols :
  record_columns lib recs keys = inr cols ->
  map fst cols = map LStr keys /\
  Forall (fun lc => List.length (snd lc) = List.length recs) cols /\
  (forall k, In k keys ->
     exists c, maybe_convert_objects lib (map (record_cell k) recs) = inr c /\
               lookup_column (LStr k) cols = Some c).
Proof.
  revert cols. induction keys as [|k keys IH]; simpl; intros cols H.
  - inversion H; subst. repeat split; [constructor|intros k []].
  - destruct (maybe_convert_objects lib (map (record_cell k) recs)) as [e|c] eqn:E;
      [discriminate|].
    destruct (record_columns lib recs keys) as [e|cols'] eqn:E'; [discriminate|].
    inversion H; subst. destruct (IH _ eq_refl) as (H1 & H2 & H3).
    split; [simpl; f_equal; exact H1|]. split.
    + constructor; [|exact H2]. simpl.
      rewrite (maybe_convert_length _ _ _ E), length_map. reflexivity.
    + intros k' Hk'. simpl. destruct (String.eqb k k') eqn:Ek.
      * apply String.eqb_eq in Ek. subst k'. exists c. auto.
      * destruct Hk' as [->|Hk']; [rewrite String.eqb_refl in Ek; discriminate|].
        apply H3. exact Hk'.
Qed.

Lemma record_columns_all lib recs keys :
  (forall k, In k keys ->
     exists c, maybe_convert_objects lib (map (record_cell k) recs) = inr c) ->
  exists cols, record_columns lib recs keys = inr cols.
Proof.
  induction keys as [|k keys IH]; simpl; intro H; [eauto|].
  destruct (H k (or_introl eq_refl)) as (c & ->).
  destruct IH as (cols & ->); [intros; apply H; auto|]. eauto.
Qed.

Lemma from_records_raises lib recs e :
  from_records lib recs = inl e -> processing_exception e.
Proof.
  unfold from_records.
  destruct (record_columns lib recs (record_keys recs)) eqn:E; [|discriminate].
  intros [= <-]. eapply record_columns_raises; eauto.
Qed.

Lemma from_records_returns lib recs df :
  from_records lib recs = inr df ->
  index df = default_index (List.length recs) /\
  labels df = map LStr (record_keys recs) /\
  Forall (fun lc => List.length (snd lc) = List.length recs) (columns df) /\
  (forall k, In k (record_keys recs) ->
     exists c, maybe_convert_objects lib (map (record_cell k) recs) = inr c /\
               get_column df (LStr k) = Some c).
Proof.
  unfold from_records.
  destruct (record_columns lib recs (record_keys recs)) as [e|cols] eqn:E; [discriminate|].
  intros [= <-]. destruct (record_columns_returns _ _ _ _ E) as (H1 & H2 & H3).
  repeat split; assumption.
Qed.

Lemma from_records_all lib recs :
  (forall k, In k (record_keys recs) ->
     exists c, maybe_convert_objects lib (map (record_cell k) recs) = inr c) ->
  exists df, from_records lib recs = inr df.
Proof.
  intro H. unfold from_records.
  destruct (record_columns_all _ _ _ H) as (cols & ->). eauto.
Qed.

Lemma DataFrame_records lib l recs :
  as_records l = Some recs -> DataFrame lib (PList l) = from_records lib recs.
Proof.
  intro H. destruct l as [|v l].
  - inversion H. reflexivity.
  - destruct v; try discriminate. unfold DataFrame. rewrite H. reflexivity.
Qed.

Lemma nrows_from_records lib recs df :
  from_records lib recs = inr df -> nrows df = List.length recs.
Proof.
  intro H. destruct (from_records_returns _ _ _ H) as (Hi & _).
  unfold nrows. rewrite Hi. unfold default_index.
  rewrite length_map, length_seq. reflexivity.
Qed.

Lemma nrows_normalize lib df df' : normalize lib df = inr df' -> nrows df' = nrows df.
Proof. intro H. unfold nrows. rewrite (normalize_index _ _ _ H). reflexivity. Qed.

Lemma mem_string_In k l : mem_string k l = true <-> In k l.
Proof.
  unfold mem_string. rewrite existsb_exists. split.
  - intros (x & Hx & E). apply String.eqb_eq in E. subst. exact Hx.
  - intro H. exists k. split; [exact H|apply String.eqb_refl].
Qed.

Lemma add_keys_In k ks seen :
  In k (add_keys seen ks) <-> In k seen \/ In k ks.
Proof.
  unfold add_keys. revert seen. induction ks as [|x ks IH]; simpl; intro seen.
  - tauto.
  - rewrite IH. destruct (mem_string x seen) eqn:E.
    + apply mem_string_In in E. intuition (subst; auto).
    + rewrite in_app_iff. simpl. intuition (subst; auto).
Qed.

Lemma record_keys_In k recs :
  In k (record_keys recs) <-> exists r, In r recs /\ In k (map fst r).
Proof.
  unfold record_keys.
  assert (forall seen,
            In k (fold_left (fun acc r => add_keys acc (map fst r)) recs seen) <->
            In k seen \/ exists r, In r recs /\ In k (map fst r)) as H.
  { induction recs as [|r recs IH]; simpl; intro seen.
    - split; [tauto|]. intros [H|(r & [] & _)]. exact H.
    - rewrite IH, add_keys_In. split.
      + intros [[H|H]|(r' & H1 & H2)]; [left; exact H|right; eauto|right; eauto].
      + intros [H|(r' & [->|H1] & H2)]; [left; left; exact H|left; right; exact H2|].
        right. eauto. }
  rewrite H. simpl. split; [intros [[]|H']; exact H'|auto].
Qed.

Lemma labels_of_records lib recs df k :
  from_records lib recs = inr df ->
  (In (LStr k) (labels df) <-> exists r, In r recs /\ In k (map fst r)).
Proof.
  intro H. destruct (from_records_returns _ _ _ H) as (_ & Hl & _).
  rewrite Hl, <- record_keys_In, in_map_iff. split.
  - intros (x & E & Hx). inversion E; subst. exact Hx.
  - intro Hk. exists k. split; [reflexivity|exact Hk].
Qed.

(* ===================================================================== *)
(** ** Lemmas on load_data *)
(* ===================================================================== *)

Lemma DataFrame_raises lib v e :
  DataFrame lib v = inl e -> processing_exception e.
Proof.
  assert (processing_exception ValueError) as Hv by (split; reflexivity).
  unfold DataFrame. intro H.
  repeat match type of H with
         | (match ?x with _ => _ end) = _ => destruct x
         | (if ?x then _ else _) = _ => destruct x
         end;
    try (inversion H; subst; first [exact Hv | apply raised_caught]);
    try (eapply from_library_caught; eassumption);
    try (eapply from_records_raises; eassumption).
Qed.

(** What [load_data] does with a decoded body: the flat form of lines
    35-63. *)
Lemma load_data_answer lib w st data :
  network w (List.length (sent w)) = Answer st (Json data) ->
  error_status st = false ->
  load_data lib w =
  match tabulated data with
  | None => (Returned empty_table, requested w)
  | Some v =>
      match DataFrame lib v with
      | inr df0 => outcome_of lib w df0
      | inl e => (Returned empty_table, st_error (ProcessingError e) (requested w))
      end
  end.
Proof.
  intros Hn Hs. unfold load_data, load_data_try, bind, get, lift, ret.
  rewrite Hn. unfold raise_for_status; simpl. unfold error_status in Hs. rewrite Hs.
  fold (requested w).
  assert (forall v,
    (let (r, w') :=
       match DataFrame lib v with
       | inl e => (@inl exn table e, requested w)
       | inr a => (normalize lib a, requested w)
       end in
     match r with
     | inl e =>
         if is_RequestException e
         then (Returned empty_table, st_error (FetchError e) w')
         else if is_Exception e
              then (Returned empty_table, st_error (ProcessingError e) w')
              else (Escaped e, w')
     | inr df => (Returned df, w')
     end) =
    match DataFrame lib v with
    | inr df0 => outcome_of lib w df0
    | inl e => (Returned empty_table, st_error (ProcessingError e) (requested w))
    end) as Hv.
  { intro v. destruct (DataFrame lib v) as [e|df0] eqn:E.
    - destruct (DataFrame_raises _ _ _ E) as [H1 H2]. rewrite H1, H2. reflexivity.
    - unfold outcome_of. destruct (normalize lib df0) as [e|df] eqn:En; [|reflexivity].
      destruct (normalize_caught _ _ _ En) as [H1 H2]. rewrite H1, H2. reflexivity. }
  destruct data; try reflexivity.
  - apply Hv.
  - simpl tabulated. destruct (dict_get "data" d); [apply Hv|exact (Hv (PList [PDict d]))].
Qed.

Lemma load_data_unreachable lib w :
  network w (List.length (sent w)) = Unreachable ->
  load_data lib w =
  (Returned empty_table, st_error (FetchError ConnectionError) (requested w)).
Proof.
  intro Hn. unfold load_data, load_data_try, bind, get. rewrite Hn. reflexivity.
Qed.

Lemma load_data_timed_out lib w :
  network w (List.length (sent w)) = TimedOut ->
  load_data lib w =
  (Returned empty_table, st_error (FetchError Timeout) (requested w)).
Proof.
  intro Hn. unfold load_data, load_data_try, bind, get. rewrite Hn. reflexivity.
Qed.

Lemma load_data_error_status lib w st b :
  network w (List.length (sent w)) = Answer st b ->
  error_status st = true ->
  load_data lib w =
  (Returned empty_table, st_error (FetchError (HTTPError st)) (requested w)).
Proof.
  intros Hn Hs. unfold load_data, load_data_try, bind, get, lift. rewrite Hn.
  unfold raise_for_status; simpl. unfold error_status in Hs. rewrite Hs. reflexivity.
Qed.

Lemma load_data_not_json lib w st :
  network w (List.length (sent w)) = Answer st NotJson ->
  error_status st = false ->
  load_data lib w =
  (Returned empty_table, st_error (FetchError JSONDecodeError) (requested w)).
Proof.
  intros Hn Hs. unfold load_data, load_data_try, bind, get, lift. rewrite Hn.
  unfold raise_for_status; simpl. unfold error_status in Hs. rewrite Hs. reflexivity.
Qed.

(** Every call returns a table: an empty one with at most one message, or a
    normalized one with none; and it makes one request. *)
Lemma load_data_cases lib w :
  exists df w',
    load_data lib w = (Returned df, w') /\
    network w' = network w /\
    sent w' = (sent w ++ [(LAMBDA_URL, 30)])%list /\
    ((df = empty_table /\
      exists e, shown w' = (shown w ++ [FetchError e])%list /\
                is_RequestException e = true) \/
     (df = empty_table /\
      exists e, shown w' = (shown w ++ [ProcessingError e])%list /\
                is_RequestException e = false) \/
     (shown w' = shown w /\
      (df = empty_table \/
       exists v df0, DataFrame lib v = inr df0 /\ normalize lib df0 = inr df))).
Proof.
  destruct (network w (List.length (sent w))) as [| |st b] eqn:Hn.
  - rewrite (load_data_unreachable _ _ Hn). eexists _, _. split; [reflexivity|].
    repeat split. left. split; [reflexivity|]. eexists. split; reflexivity.
  - rewrite (load_data_timed_out _ _ Hn). eexists _, _. split; [reflexivity|].
    repeat split. left. split; [reflexivity|]. eexists. split; reflexivity.
  - destruct (error_status st) eqn:Hs.
    + rewrite (load_data_error_status _ _ _ _ Hn Hs). eexists _, _.
      split; [reflexivity|]. repeat split. left. split; [reflexivity|].
      eexists. split; reflexivity.
    + destruct b as [data|].
      * rewrite (load_data_answer _ _ _ _ Hn Hs).
        destruct (tabulated data) as [v|].
        -- destruct (DataFrame lib v) as [e|df0] eqn:E.
           ++ eexists _, _. split; [reflexivity|]. repeat split.
              right; left. split; [reflexivity|]. exists e. split; [reflexivity|].
              apply (DataFrame_raises _ _ _ E).
           ++ unfold outcome_of. destruct (normalize lib df0) as [e|df] eqn:En.
              ** eexists _, _. split; [reflexivity|]. repeat split.
                 right; left. split; [reflexivity|]. exists e. split; [reflexivity|].
                 apply (normalize_caught _ _ _ En).
              ** eexists _, _. split; [reflexivity|]. repeat split.
                 right; right. split; [reflexivity|]. right. eauto.
        -- eexists _, _. split; [reflexivity|]. repeat split.
           right; right. split; [reflexivity|]. left; reflexivity.
      * rewrite (load_data_not_json _ _ _ Hn Hs). eexists _, _.
        split; [reflexivity|]. repeat split. left. split; [reflexivity|].
        eexists. split; reflexivity.
Qed.

(** Where a returned table comes from. *)
Lemma load_data_table_origin lib w df :
  fst (load_data lib w) = Returned df ->
  df = empty_table \/
  exists v df0, DataFrame lib v = inr df0 /\ normalize lib df0 = inr df.
Proof.
  intro H. destruct (load_data_cases lib w) as (df' & w' & Hl & _ & _ & Hc).
  rewrite Hl in H. simpl in H. inversion H; subst df'.
  destruct Hc as [[-> _]|[[-> _]|[_ Hd]]]; auto.
Qed.

(** A decoded sequence of records: the table of the constructor normalized,
    or the message of line 62 with the empty table. *)
Lemma load_data_records lib w st l recs :
  network w (List.length (sent w)) = Answer st (Json (PList l)) ->
  error_status st = false ->
  as_records l = Some recs ->
  load_data lib w =
  match from_records lib recs with
  | inr df0 => outcome_of lib w df0
  | inl e => (Returned empty_table, st_error (ProcessingError e) (requested w))
  end.
Proof.
  intros Hn Hs Hr. rewrite (load_data_answer _ _ _ _ Hn Hs).
  change (tabulated (PList l)) with (Some (PList l)). cbv iota.
  rewrite (DataFrame_records _ _ _ Hr). reflexivity.
Qed.

(* ===================================================================== *)
(** ** The claims on load_data *)
(* ===================================================================== *)









(** What lines 36-56 come to for a value handed to the constructor. *)
Lemma tabulation_outcome lib w v :
  (exists df0 df,
     DataFrame lib v = inr df0 /\ normalize lib df0 = inr df /\
     match DataFrame lib v with
     | inr df0 => outcome_of lib w df0
     | inl e => (Returned empty_table, st_error (ProcessingError e) (requested w))
     end = (Returned df, requested w)) \/
  (exists e,
     (DataFrame lib v = inl e \/
      exists df0, DataFrame lib v = inr df0 /\ normalize lib df0 = inl e) /\
     match DataFrame lib v with
     | inr df0 => outcome_of lib w df0
     | inl e => (Returned empty_table, st_error (ProcessingError e) (requested w))
     end = (Returned empty_table, st_error (ProcessingError e) (requested w))).
Proof.
  destruct (DataFrame lib v) as [e|df0] eqn:Ed.
  - right. exists e. auto.
  - unfold outcome_of. destruct (normalize lib df0) as [e|df] eqn:En.
    + right. exists e. split; [right; eauto|reflexivity].
    + left. exists df0, df. auto.
Qed.

(** C7 as stated fails: for a sequence of two records whose dates carry two
    different UTC offsets, a date parser that refuses such a column (as the
    one of pandas 3 does) makes line 54 raise, and the function returns the
    empty table, of no row, after a ProcessingError message. *)
Lemma C7_counterexample :
  load_data offset_strict_library (always (Answer 200 (Json two_offsets))) =
  (Returned empty_table,
   st_error (ProcessingError ValueError)
     (requested (always (Answer 200 (Json two_offsets))))) /\
  (exists l recs,
     two_offsets = PList l /\ as_records l = Some recs /\ List.length l = 2%nat) /\
  nrows empty_table = 0%nat.
Proof.
  split; [reflexivity|]. split; [|reflexivity].
  eexists _, _. repeat split.
Qed.

(** C7, amended. When the body is a sequence of records, either the
    constructor and the conversions of lines 46-54 return, and [load_data]
    returns a table with one row per element of the sequence and shows no
    message; or one of them raises, and [load_data] returns the empty table
    after a ProcessingError message.  For the empty sequence the table is
    the empty table and no message is shown. *)
Theorem C7_record_sequence_row_count (lib : library) (w : world) (st : Z)
    (l : list pyval) (recs : list (list (string * pyval))) :
  network w (List.length (sent w)) = Answer st (Json (PList l)) ->
  error_status st = false ->
  as_records l = Some recs ->
  ((exists df0 df,
      DataFrame lib (PList l) = inr df0 /\ normalize lib df0 = inr df /\
      load_data lib w = (Returned df, requested w) /\
      nrows df = List.length l /\
      shown (requested w) = shown w) \/
   (exists e,
      (DataFrame lib (PList l) = inl e \/
       exists df0, DataFrame lib (PList l) = inr df0 /\ normalize lib df0 = inl e) /\
      load_data lib w =
      (Returned empty_table, st_error (ProcessingError e) (requested w)))) /\
  (l = [] -> load_data lib w = (Returned empty_table, requested w)).
Proof.
  intros Hn Hs Hr.
  assert (load_data lib w =
          match DataFrame lib (PList l) with
          | inr df0 => outcome_of lib w df0
          | inl e => (Returned empty_table, st_error (ProcessingError e) (requested w))
          end) as Hl.
  { rewrite (load_data_answer _ _ _ _ Hn Hs). reflexivity. }
  split.
  - destruct (tabulation_outcome lib w (PList l))
      as [(df0 & df & Hd & Hnorm & Ho)|(e & He & Ho)].
    + left. exists df0, df. repeat split; try assumption.
      * rewrite Hl. exact Ho.
      * rewrite (nrows_normalize _ _ _ Hnorm).
        rewrite (DataFrame_records _ _ _ Hr) in Hd.
        rewrite (nrows_from_records _ _ _ Hd). apply as_records_length. exact Hr.
    + right. exists e. split; [exact He|]. rewrite Hl. exact Ho.
  - intros ->. rewrite Hl. reflexivity.
Qed.

Lemma C7_witness :
  (exists df,
     load_data plain_library (always (Answer 200 (Json two_listings))) =
     (Returned df, requested (always (Answer 200 (Json two_listings)))) /\
     nrows df = 2%nat) /\
  load_data plain_library (always (Answer 200 (Json (PList [])))) =
  (Returned empty_table, requested (always (Answer 200 (Json (PList []))))).
Proof.
  split.
  - destruct (C7_record_sequence_row_count plain_library
                (always (Answer 200 (Json two_listings))) 200 _ _
                eq_refl eq_refl eq_refl) as [[(df0 & df & _ & _ & H1 & H2 & _)|(e & _ & H)] _].
    + exists df. split; assumption.
    + vm_compute in H. discriminate H.
  - apply (C7_record_sequence_row_count plain_library
             (always (Answer 200 (Json (PList [])))) 200 [] []
             eq_refl eq_refl eq_refl). reflexivity.
Defined.

(** C9 as stated fails: for the two listings whose dates carry two
    different UTC offsets, with a date parser that refuses such a column, the
    constructor builds a table with a Marque column and the table returned
    is the empty table: the Marque column did not pass through. *)
Lemma C9_counterexample :
  DataFrame offset_strict_library two_offsets = inr two_offsets_table /\
  get_column two_offsets_table (LStr "Marque") = Some [PStr "Dacia"; PStr "Renault"] /\
  fst (load_data offset_strict_library (always (Answer 200 (Json two_offsets)))) =
  Returned empty_table /\
  get_column empty_table (LStr "Marque") = None.
Proof. repeat split. Qed.

(** C9, amended. When the body decodes to a value [v] handed to the table
    constructor: if the constructor builds a table [df0] and the conversions
    of lines 46-54 return, the table [load_data] returns has the columns and
    the rows of [df0], every column other than Km, Prix, Mc and DateScraping
    holds the cells of [df0] unchanged, and no column is added (for a
    sequence of records, a column is in the table exactly when some record
    has it as a key); if the constructor or one of the conversions raises,
    [load_data] returns the empty table after a ProcessingError message and
    no column passes through. *)
Theorem C9_other_columns_pass_through (lib : library) (w : world) (st : Z)
    (data v : pyval) :
  network w (List.length (sent w)) = Answer st (Json data) ->
  error_status st = false ->
  tabulated data = Some v ->
  (forall df0 df,
     DataFrame lib v = inr df0 ->
     normalize lib df0 = inr df ->
     load_data lib w = (Returned df, requested w) /\
     labels df = labels df0 /\
     index df = index df0 /\
     (forall l, recognized l = false -> get_column df l = get_column df0 l) /\
     (forall l recs k,
        v = PList l -> as_records l = Some recs ->
        (In (LStr k) (labels df) <-> exists r, In r recs /\ In k (map fst r)))) /\
  (forall e,
     (DataFrame lib v = inl e \/
      exists df0, DataFrame lib v = inr df0 /\ normalize lib df0 = inl e) ->
     load_data lib w =
     (Returned empty_table, st_error (ProcessingError e) (requested w)) /\
     labels empty_table = []).
Proof.
  intros Hn Hs Ht.
  assert (load_data lib w =
          match DataFrame lib v with
          | inr df0 => outcome_of lib w df0
          | inl e => (Returned empty_table, st_error (ProcessingError e) (requested w))
          end) as Hl.
  { rewrite (load_data_answer _ _ _ _ Hn Hs), Ht. reflexivity. }
  split.
  - intros df0 df Hd Hnorm. rewrite Hd in Hl. split; [|split; [|split; [|split]]].
    + rewrite Hl. unfold outcome_of. rewrite Hnorm. reflexivity.
    + eapply normalize_labels; eauto.
    + eapply normalize_index; eauto.
    + intros l Hrec. eapply normalize_other; eauto.
    + intros l recs k -> Hr. rewrite (DataFrame_records _ _ _ Hr) in Hd.
      rewrite (normalize_labels _ _ _ Hnorm). eapply labels_of_records; eauto.
  - intros e [Hd|(df0 & Hd & Hnorm)]; (split; [|reflexivity]); rewrite Hl, Hd.
    + reflexivity.
    + unfold outcome_of. rewrite Hnorm. reflexivity.
Qed.

Lemma C9_witness :
  exists df,
    fst (load_data plain_library (always (Answer 200 (Json two_listings)))) =
    Returned df /\
    labels df = [LStr "Km"; LStr "DateScraping"; LStr "Etat"] /\
    get_column df (LStr "Etat") = Some [PFloat FNaN; PStr "Neuf"] /\
    ~ In (LStr "Prix") (labels df).
Proof.
  destruct (C9_other_columns_pass_through plain_library
              (always (Answer 200 (Json two_listings))) 200 two_listings
              two_listings eq_refl eq_refl eq_refl) as [H _].
  destruct (H _ _ eq_refl eq_refl) as (H1 & H2 & _ & H4 & _).
  eexists. split; [rewrite H1; reflexivity|]. split; [exact H2|]. split.
  - rewrite H4 by reflexivity. reflexivity.
  - rewrite H2. simpl. intros [E|[E|[E|[]]]]; discriminate.
Defined.

(** C2 as stated fails: for the body "unexpected-scalar" the function
    returns the empty table and shows no message, so no ProcessingError is
    reported. *)
Lemma C2_counterexample :
  load_data plain_library (always (Answer 200 (Json (PStr "unexpected-scalar")))) =
  (Returned empty_table,
   requested (always (Answer 200 (Json (PStr "unexpected-scalar"))))) /\
  shown (snd (load_data plain_library
                (always (Answer 200 (Json (PStr "unexpected-scalar")))))) = [] /\
  ~ (exists e,
       In (ProcessingError e)
          (shown (snd (load_data plain_library
                         (always (Answer 200 (Json (PStr "unexpected-scalar")))))))).
Proof.
  split; [reflexivity|]. split; [reflexivity|]. intros (e & []).
Qed.

(** C2, amended. For a fetched body that decodes to a value that is neither
    a sequence nor a mapping, [load_data] returns the empty table through the
    [else] branch of line 42: one request was made and no message is shown. *)
Theorem C2_scalar_payload_silent (lib : library) (w : world) (st : Z) (data : pyval) :
  network w (List.length (sent w)) = Answer st (Json data) ->
  error_status st = false ->
  is_scalar data = true ->
  load_data lib w = (Returned empty_table, requested w) /\
  shown (snd (load_data lib w)) = shown w.
Proof.
  intros Hn Hs Hd.
  assert (load_data lib w = (Returned empty_table, requested w)) as H.
  { rewrite (load_data_answer _ _ _ _ Hn Hs).
    destruct data; try discriminate; reflexivity. }
  split; [exact H|]. rewrite H. reflexivity.
Qed.

Lemma C2_witness :
  load_data plain_library (always (Answer 200 (Json (PInt 42)))) =
  (Returned empty_table, requested (always (Answer 200 (Json (PInt 42))))).
Proof.
  apply (C2_scalar_payload_silent plain_library
           (always (Answer 200 (Json (PInt 42)))) 200 (PInt 42)
           eq_refl eq_refl eq_refl).
Defined.

(** C4 as stated fails: a record under [data] is not wrapped as a
    single-row table (the table of one row that wrapping it would give);
    the constructor refuses it and the function returns the empty table
    after a ProcessingError message. *)
Lemma C4_counterexample :
  load_data plain_library (always (Answer 200 (Json record_under_data))) =
  (Returned empty_table,
   st_error (ProcessingError ValueError)
     (requested (always (Answer 200 (Json record_under_data))))) /\
  and_then (DataFrame plain_library (PList [PDict [("Km", PStr "120 000 km")]]))
           (normalize plain_library) =
  inr {| index := [0]; columns := [(LStr "Km", [PInt 120000])] |} /\
  fst (load_data plain_library (always (Answer 200 (Json record_under_data)))) <>
  Returned {| index := [0]; columns := [(LStr "Km", [PInt 120000])] |} /\
  nrows {| index := [0]; columns := [(LStr "Km", [PInt 120000])] |} = 1%nat.
Proof.
  split; [reflexivity|]. split; [reflexivity|]. split; [|reflexivity].
  simpl. intro H. inversion H.
Qed.

(** C4, amended. For a mapping with the key [data], [load_data] hands the
    value at [data], as it is, to the table constructor and normalizes what
    it builds; when the constructor or a conversion of lines 46-54 raises,
    it returns the empty table after a ProcessingError message.  A sequence
    of records becomes one row per element, unless one of these calls
    raises.  A value that is not a sequence is not wrapped: text, a number,
    a boolean or a mapping of scalars is refused by the constructor, and the
    function returns the empty table after a ProcessingError message; null
    and the empty mapping give the empty table with no message. *)
Theorem C4_data_key_tabulated (lib : library) (w : world) (st : Z)
    (d : list (string * pyval)) (v : pyval) :
  network w (List.length (sent w)) = Answer st (Json (PDict d)) ->
  error_status st = false ->
  dict_get "data" d = Some v ->
  load_data lib w =
    match DataFrame lib v with
    | inr df0 =>
        match normalize lib df0 with
        | inr df => (Returned df, requested w)
        | inl e => (Returned empty_table, st_error (ProcessingError e) (requested w))
        end
    | inl e => (Returned empty_table, st_error (ProcessingError e) (requested w))
    end /\
  (forall l recs,
     v = PList l -> as_records l = Some recs ->
     (exists df0 df,
        DataFrame lib v = inr df0 /\ normalize lib df0 = inr df /\
        load_data lib w = (Returned df, requested w) /\
        nrows df = List.length l) \/
     (exists e,
        (DataFrame lib v = inl e \/
         exists df0, DataFrame lib v = inr df0 /\ normalize lib df0 = inl e) /\
        load_data lib w =
        (Returned empty_table, st_error (ProcessingError e) (requested w)))) /\
  (refused_value v = true ->
   load_data lib w =
   (Returned empty_table, st_error (ProcessingError ValueError) (requested w))) /\
  (v = PNone \/ v = PDict [] ->
   load_data lib w = (Returned empty_table, requested w)).
Proof.
  intros Hn Hs Hd.
  assert (load_data lib w =
          match DataFrame lib v with
          | inr df0 => outcome_of lib w df0
          | inl e => (Returned empty_table, st_error (ProcessingError e) (requested w))
          end) as H.
  { rewrite (load_data_answer _ _ _ _ Hn Hs). simpl tabulated. rewrite Hd. reflexivity. }
  split; [exact H|]. split; [|split].
  - intros l recs -> Hr.
    destruct (tabulation_outcome lib w (PList l))
      as [(df0 & df & Hdf & Hnorm & Ho)|(e & He & Ho)].
    + left. exists df0, df. repeat split; try assumption.
      * rewrite H. exact Ho.
      * rewrite (nrows_normalize _ _ _ Hnorm).
        rewrite (DataFrame_records _ _ _ Hr) in Hdf.
        rewrite (nrows_from_records _ _ _ Hdf). apply as_records_length. exact Hr.
    + right. exists e. split; [exact He|]. rewrite H. exact Ho.
  - intro Hv. rewrite H. destruct v; try discriminate; try reflexivity.
    destruct d0 as [|kv rest]; [discriminate|].
    unfold refused_value in Hv. unfold DataFrame. rewrite Hv. reflexivity.
  - intros [->| ->]; rewrite H; reflexivity.
Qed.

Lemma C4_witness :
  (exists df,
     load_data plain_library (always (Answer 200 (Json scenario1))) =
     (Returned df, requested (always (Answer 200 (Json scenario1)))) /\
     nrows df = 1%nat) /\
  load_data plain_library (always (Answer 200 (Json record_under_data))) =
  (Returned empty_table,
   st_error (ProcessingError ValueError)
     (requested (always (Answer 200 (Json record_under_data))))).
Proof.
  split.
  - destruct (C4_data_key_tabulated plain_library
                (always (Answer 200 (Json scenario1))) 200 _ _
                eq_refl eq_refl eq_refl) as (_ & H & _).
    destruct (H _ _ eq_refl eq_refl) as [(df0 & df & _ & _ & H1 & H2)|(e & _ & He)].
    + exists df. split; assumption.
    + vm_compute in He. discriminate He.
  - destruct (C4_data_key_tabulated plain_library
                (always (Answer 200 (Json record_under_data))) 200 _ _
                eq_refl eq_refl eq_refl) as (_ & _ & H & _).
    apply H. reflexivity.
Defined.

(** C5. A request that fails at the transport level (no connection, no
    answer within the timeout of 30, a status that [raise_for_status] raises
    on) makes [load_data] show the FetchError message and return the empty
    table.  On every path exactly one request is made, with timeout 30, and
    the call returns a table: no exception reaches the caller, and a message
    is shown only together with the empty table. *)
Theorem C5_transport_failure (lib : library) (w : world) :
  (transport_failure (network w (List.length (sent w))) = true ->
   exists e,
     load_data lib w = (Returned empty_table, st_error (FetchError e) (requested w)) /\
     is_RequestException e = true) /\
  (exists df, fst (load_data lib w) = Returned df) /\
  sent (snd (load_data lib w)) = (sent w ++ [(LAMBDA_URL, 30)])%list /\
  (shown (snd (load_data lib w)) = shown w \/
   fst (load_data lib w) = Returned empty_table /\
   exists e, shown (snd (load_data lib w)) = (shown w ++ [FetchError e])%list \/
             shown (snd (load_data lib w)) = (shown w ++ [ProcessingError e])%list).
Proof.
  split; [|split; [|split]].
  - intro H. destruct (network w (List.length (sent w))) as [| |st b] eqn:Hn.
    + exists ConnectionError. split; [apply load_data_unreachable; exact Hn|reflexivity].
    + exists Timeout. split; [apply load_data_timed_out; exact Hn|reflexivity].
    + exists (HTTPError st).
      split; [eapply load_data_error_status; eauto|reflexivity].
  - destruct (load_data_cases lib w) as (df & w' & Hl & _). exists df. rewrite Hl. reflexivity.
  - destruct (load_data_cases lib w) as (df & w' & Hl & _ & Hsent & _).
    rewrite Hl. exact Hsent.
  - destruct (load_data_cases lib w) as (df & w' & Hl & _ & _ & Hc).
    rewrite Hl. simpl. destruct Hc as [[-> (e & He & _)]|[[-> (e & He & _)]|[Hsh _]]].
    + right. split; [reflexivity|]. exists e. left. exact He.
    + right. split; [reflexivity|]. exists e. right. exact He.
    + left. exact Hsh.
Qed.

Lemma C5_witness :
  transport_failure (network (always TimedOut) 0) = true /\
  (exists e,
     load_data plain_library (always TimedOut) =
     (Returned empty_table, st_error (FetchError e) (requested (always TimedOut))) /\
     is_RequestException e = true) /\
  transport_failure (network (always (Answer 503 NotJson)) 0) = true /\
  (exists e,
     load_data plain_library (always (Answer 503 NotJson)) =
     (Returned empty_table,
      st_error (FetchError e) (requested (always (Answer 503 NotJson)))) /\
     is_RequestException e = true).
Proof.
  split; [reflexivity|]. split.
  - exact (proj1 (C5_transport_failure plain_library (always TimedOut)) eq_refl).
  - split; [reflexivity|].
    exact (proj1 (C5_transport_failure plain_library (always (Answer 503 NotJson)))
             eq_refl).
Defined.

(** C3 as stated fails: the table returned for two listings, one of them
    without digits in Km, has a numeric Km column (12345.0 and NaN); running
    the coercion again on it gives 123450.0, since the text of the float
    12345.0 has the digits 1 2 3 4 5 0. *)
Lemma C3_counterexample :
  fst (load_data plain_library (always (Answer 200 (Json km_with_gap_payload)))) =
  Returned km_with_gap /\
  normalize plain_library km_with_gap =
  inr {| index := [0; 1];
         columns := [(LStr "Km", [PFloat (FInt 123450); PFloat FNaN])] |} /\
  normalize plain_library km_with_gap <> inr km_with_gap.
Proof.
  split; [reflexivity|]. split; [reflexivity|].
  intro H. vm_compute in H. inversion H.
Qed.

(** C3, amended. On a table whose Km, Prix and Mc columns are integer
    columns of non-negative values (no missing cell) and whose DateScraping
    column holds timestamps or NaT, running the coercion steps again raises
    nothing and changes nothing. *)
Theorem C3_idempotent_on_integer_columns (lib : library) (df : table) :
  (forall col c,
     In col ["Km"; "Prix"; "Mc"] ->
     get_column df (LStr col) = Some c ->
     Forall (fun v => stored_count v = true) c) ->
  (forall c,
     get_column df (LStr "DateScraping") = Some c ->
     Forall (fun v => timestamp_or_missing v = true) c) ->
  normalize lib df = inr df.
Proof.
  intros Hn Hd. rewrite normalize_steps.
  assert (forall col, In col ["Km"; "Prix"; "Mc"] ->
            update_column (cleaned_column lib) (LStr col) df = inr df) as Hc.
  { intros col Hin. apply update_column_fixed. intros c Hg.
    apply cleaned_column_fixed. eapply Hn; eauto. }
  rewrite (Hc "Km") by (simpl; auto). cbn [and_then].
  rewrite (Hc "Prix") by (simpl; auto). cbn [and_then].
  rewrite (Hc "Mc") by (simpl; auto). cbn [and_then].
  apply update_column_fixed. intros c Hg. apply to_datetime_fixed. auto.
Qed.

Lemma C3_witness : normalize plain_library dated_table = inr dated_table.
Proof.
  apply C3_idempotent_on_integer_columns.
  - intros col c [<-|[<-|[<-|[]]]] H; try discriminate H.
    inversion H. repeat constructor.
  - intros c H. inversion H. repeat constructor.
Defined.

(* ===================================================================== *)
(** ** The claim on the cache *)
(* ===================================================================== *)

Lemma replay_sent msgs w :
  sent (fold_left (fun w m => st_error m w) msgs w) = sent w.
Proof.
  revert w. induction msgs as [|m msgs IH]; simpl; intro w; [reflexivity|].
  rewrite IH. reflexivity.
Qed.

(** A call that finds no fresh entry runs the function and stores what it
    returns. *)
Lemma cached_miss lib now s :
  (forall e, cache s = Some e -> fresh now e = false) ->
  exists df w',
    load_data lib (env s) = (Returned df, w') /\
    cached_load_data lib now s =
    (Returned df,
     {| env := w';
        cache := Some {| stored_at := now; value := df;
                         messages := skipn (List.length (shown (env s))) (shown w') |} |}).
Proof.
  intro H. destruct (load_data_cases lib (env s)) as (df & w' & Hl & _).
  exists df, w'. split; [exact Hl|].
  unfold cached_load_data. rewrite Hl.
  destruct (cache s) as [e|]; [|reflexivity].
  rewrite (H e eq_refl). reflexivity.
Qed.



(* ===================================================================== *)
(** ** The claim on apply_filters *)
(* ===================================================================== *)

Lemma subseq_refl {A : Type} (l : list A) : subseq l l.
Proof. induction l; constructor; assumption. Qed.

Lemma subseq_trans {A : Type} (l1 l2 l3 : list A) :
  subseq l1 l2 -> subseq l2 l3 -> subseq l1 l3.
Proof.
  intros H12 H23. revert l1 H12.
  induction H23 as [|x l2 l3 H23 IH|x l2 l3 H23 IH]; intros l1 H12.
  - exact H12.
  - constructor. apply IH. exact H12.
  - inversion H12; subst.
    + constructor. apply IH. assumption.
    + apply subseq_keep. apply IH. assumption.
Qed.

Lemma mask_filter_nil {A : Type} (mask : list bool) : @mask_filter A mask [] = [].
Proof. destruct mask; reflexivity. Qed.

Lemma mask_filter_subseq {A : Type} (mask : list bool) (l : list A) :
  subseq (mask_filter mask l) l.
Proof.
  revert mask. induction l as [|x l IH]; intro mask.
  - rewrite mask_filter_nil. constructor.
  - destruct mask as [|b mask]; simpl.
    + constructor. apply (IH []).
    + destruct b; constructor; apply IH.
Qed.

Lemma mask_filter_tails b mask (cols : list (list pyval)) :
  map (@tl pyval) (map (mask_filter (true :: mask)) cols) =
  map (mask_filter mask) (map (@tl pyval) cols) /\
  map (hd PNone) (map (mask_filter (true :: mask)) cols) = map (hd PNone) cols /\
  (b = false ->
   map (mask_filter (b :: mask)) cols = map (mask_filter mask) (map (@tl pyval) cols)).
Proof.
  repeat split; [| |intros ->]; rewrite !map_map; apply map_ext; intros [|x c]; simpl;
    try reflexivity; rewrite mask_filter_nil; reflexivity.
Qed.

Lemma rows_of_cons i idx cols :
  rows_of (i :: idx) cols = (i, map (hd PNone) cols) :: rows_of idx (map (@tl pyval) cols).
Proof. reflexivity. Qed.

(** Taking rows out by a mask takes the same rows out of every column. *)
Lemma rows_of_mask mask idx cols :
  rows_of (mask_filter mask idx) (map (mask_filter mask) cols) =
  mask_filter mask (rows_of idx cols).
Proof.
  revert idx cols. induction mask as [|b mask IH]; intros idx cols.
  - reflexivity.
  - destruct idx as [|i idx]; [reflexivity|].
    destruct (mask_filter_tails b mask cols) as (Ht & Hh & Hf).
    destruct b.
    + change (mask_filter (true :: mask) (i :: idx)) with (i :: mask_filter mask idx).
      rewrite !rows_of_cons, Ht, Hh, IH. reflexivity.
    + change (mask_filter (false :: mask) (i :: idx)) with (mask_filter mask idx).
      rewrite (Hf eq_refl), IH, rows_of_cons. reflexivity.
Qed.

Lemma rows_select mask df :
  rows (select_rows mask df) = mask_filter mask (rows df).
Proof.
  unfold rows, select_rows; simpl. rewrite <- rows_of_mask. f_equal.
  rewrite !map_map. reflexivity.
Qed.

Lemma labels_select mask df : labels (select_rows mask df) = labels df.
Proof. unfold labels, select_rows; simpl. rewrite map_map. reflexivity. Qed.

Lemma options_head c opts : options c = inr opts -> hd PNone opts = PStr "Tous".
Proof.
  unfold options. destruct (unique (dropna c)); [discriminate|].
  destruct (sorted l); [discriminate|]. intros [= <-]. reflexivity.
Qed.

Lemma dropna_text c :
  Forall (fun v => text_or_missing v = true) c ->
  Forall (fun v => is_text v = true) (dropna c).
Proof.
  intro H. unfold dropna. apply Forall_forall. intros v Hv.
  apply filter_In in Hv. destruct Hv as [Hin Hna].
  rewrite Forall_forall in H. specialize (H v Hin).
  destruct v; simpl in *; try discriminate; try reflexivity.
  rewrite H in Hna. discriminate.
Qed.

Lemma unique_text l :
  Forall (fun v => is_text v = true) l ->
  exists u, unique l = inr u /\ Forall (fun v => is_text v = true) u.
Proof.
  intro H. unfold unique.
  assert (forallb hashable l = true) as ->.
  { apply forallb_forall. intros v Hv. rewrite Forall_forall in H.
    specialize (H v Hv). destruct v; try discriminate; reflexivity. }
  eexists. split; [reflexivity|].
  assert (forall acc, Forall (fun v => is_text v = true) acc ->
            Forall (fun v => is_text v = true)
              (fold_left
                 (fun acc v => if existsb (fun u => py_eq u v) acc then acc
                               else (acc ++ [v])%list) l acc)) as Hf.
  { induction H as [|v l Hv Hl IH]; simpl; intros acc Hacc; [exact Hacc|].
    apply IH. destruct (existsb _ acc); [exact Hacc|].
    apply Forall_app. split; [exact Hacc|]. constructor; [exact Hv|constructor]. }
  apply Hf. constructor.
Qed.

Lemma insert_sorted_text x l :
  is_text x = true ->
  Forall (fun v => is_text v = true) l ->
  exists r, insert_sorted x l = inr r /\ Forall (fun v => is_text v = true) r.
Proof.
  intros Hx Hl. induction Hl as [|y l Hy Hl IH]; simpl.
  - eexists. split; [reflexivity|]. constructor; [exact Hx|constructor].
  - destruct x; try discriminate. destruct y; try discriminate. simpl.
    destruct (String.ltb s s0).
    + eexists. split; [reflexivity|]. repeat constructor; assumption.
    + destruct IH as (r & -> & Hr). eexists. split; [reflexivity|].
      constructor; assumption.
Qed.

Lemma sorted_text l :
  Forall (fun v => is_text v = true) l -> exists r, sorted l = inr r.
Proof.
  intro H. unfold sorted.
  assert (forall done, Forall (fun v => is_text v = true) done ->
            exists r,
              fold_left
                (fun acc x =>
                   match acc with
                   | inr done => insert_sorted x done
                   | inl e => inl e
                   end) l (inr done) = inr r) as Hf.
  { induction H as [|x l Hx Hl IH]; simpl; intros done Hd.
    - eexists; reflexivity.
    - destruct (insert_sorted_text x done Hx Hd) as (r & -> & Hr). apply IH. exact Hr. }
  apply Hf. constructor.
Qed.

Lemma options_text c :
  Forall (fun v => text_or_missing v = true) c -> exists opts, options c = inr opts.
Proof.
  intro H. unfold options.
  destruct (unique_text _ (dropna_text _ H)) as (u & -> & Hu).
  destruct (sorted_text _ Hu) as (r & ->). eexists; reflexivity.
Qed.

Lemma lookup_column_labels name cols1 cols2 :
  map fst cols1 = map fst cols2 ->
  lookup_column name cols1 = None -> lookup_column name cols2 = None.
Proof.
  revert cols2. induction cols1 as [|[l c] cols1 IH]; intros [|[l' c'] cols2] E;
    simpl in *; try discriminate; [reflexivity|].
  inversion E; subst. destruct (label_eqb l' name); [discriminate|]. apply IH. assumption.
Qed.

(** One block keeps a subsequence of the rows and all the columns; with the
    first option chosen it keeps everything. *)
Lemma filter_on_subseq ui df col caption filtered_df out :
  filter_on ui df col caption filtered_df = inr out ->
  subseq (rows out) (rows filtered_df) /\
  labels out = labels filtered_df /\
  (ui caption = 0%nat -> out = filtered_df).
Proof.
  unfold filter_on. destruct (get_column df (LStr col)) as [c|].
  - destruct (options c) as [e|opts] eqn:Ho; [discriminate|].
    destruct (not_tous (selectbox ui caption opts)) eqn:Hn.
    + destruct (get_column filtered_df (LStr col)) as [fc|]; [|discriminate].
      intros [= <-]. rewrite rows_select, labels_select.
      split; [apply mask_filter_subseq|]. split; [reflexivity|].
      intro H0. exfalso. unfold selectbox in Hn. rewrite H0 in Hn.
      pose proof (options_head _ _ Ho) as Hh.
      destruct opts as [|o opts]; simpl in *; subst; discriminate.
    + intros [= <-]. split; [apply subseq_refl|]. split; reflexivity.
  - intros [= <-]. split; [apply subseq_refl|]. split; reflexivity.
Qed.

Lemma apply_filters_fold ui df fs start out :
  fold_left
    (fun acc f =>
       match acc with
       | inr filtered_df => filter_on ui df (fst f) (snd f) filtered_df
       | inl e => inl e
       end) fs start = inr out ->
  exists t, start = inr t /\
            subseq (rows out) (rows t) /\
            labels out = labels t /\
            ((forall caption, ui caption = 0%nat) -> out = t).
Proof.
  revert start. induction fs as [|f fs IH]; simpl; intros start H.
  - exists out. split; [exact H|]. split; [apply subseq_refl|]. split; reflexivity.
  - destruct (IH _ H) as (t & Ht & Hsub & Hlab & Hall).
    destruct start as [e|t0]; [discriminate|].
    destruct (filter_on_subseq _ _ _ _ _ _ Ht) as (Hsub' & Hlab' & Hall').
    exists t0. split; [reflexivity|]. split; [|split].
    + eapply subseq_trans; eauto.
    + congruence.
    + intro H0. rewrite (Hall H0). apply Hall'. apply H0.
Qed.

Lemma filter_on_returns ui df col caption filtered_df :
  (forall c, get_column df (LStr col) = Some c ->
             Forall (fun v => text_or_missing v = true) c) ->
  labels filtered_df = labels df ->
  exists out, filter_on ui df col caption filtered_df = inr out /\
              labels out = labels df.
Proof.
  intros Htext Hlab. unfold filter_on.
  destruct (get_column df (LStr col)) as [c|] eqn:Hg.
  - destruct (options_text c (Htext c eq_refl)) as (opts & ->).
    destruct (not_tous (selectbox ui caption opts)).
    + destruct (get_column filtered_df (LStr col)) as [fc|] eqn:Hf.
      * eexists. split; [reflexivity|]. rewrite labels_select. exact Hlab.
      * exfalso. unfold get_column in *.
        rewrite (lookup_column_labels _ _ _ Hlab Hf) in Hg. discriminate.
    + eexists. split; [reflexivity|exact Hlab].
  - eexists. split; [reflexivity|exact Hlab].
Qed.

Lemma fold_filters_absent ui df fs :
  (forall f, In f fs -> get_column df (LStr (fst f)) = None) ->
  fold_left
    (fun acc f =>
       match acc with
       | inr filtered_df => filter_on ui df (fst f) (snd f) filtered_df
       | inl e => inl e
       end) fs (inr df) = inr df.
Proof.
  induction fs as [|f fs IH]; simpl; intro Hn; [reflexivity|].
  unfold filter_on at 2. rewrite (Hn f (or_introl eq_refl)).
  apply IH. intros g Hg. apply Hn. right. exact Hg.
Qed.

Lemma fold_filters_returns ui df fs t :
  (forall f c, In f fs -> get_column df (LStr (fst f)) = Some c ->
               Forall (fun v => text_or_missing v = true) c) ->
  labels t = labels df ->
  exists out,
    fold_left
      (fun acc f =>
         match acc with
         | inr filtered_df => filter_on ui df (fst f) (snd f) filtered_df
         | inl e => inl e
         end) fs (inr t) = inr out.
Proof.
  revert t. induction fs as [|f fs IH]; simpl; intros t Ht Hlab; [eexists; reflexivity|].
  destruct (filter_on_returns ui df (fst f) (snd f) t) as (out & -> & Hout).
  - intros c Hc. apply (Ht f c); [left; reflexivity|exact Hc].
  - exact Hlab.
  - apply IH; [|exact Hout]. intros g c Hg. apply Ht. right. exact Hg.
Qed.

(** C10. The table [apply_filters] returns has the columns of the input and
    its rows are a subsequence of the rows of the input (each row with its
    row label, order kept, none added).  With the first option, 'Tous',
    chosen in every select box the output is the input; without any of the
    six filter columns the function returns the input; and it does return a
    table whenever the filter columns hold text or missing cells. *)
Theorem C10_apply_filters_subsequence (ui : string -> nat) (df : table) :
  (forall out,
     apply_filters ui df = inr out ->
     subseq (rows out) (rows df) /\
     labels out = labels df /\
     ((forall caption, ui caption = 0%nat) -> out = df)) /\
  ((forall f, In f filters -> get_column df (LStr (fst f)) = None) ->
   apply_filters ui df = inr df) /\
  ((forall f c, In f filters -> get_column df (LStr (fst f)) = Some c ->
                Forall (fun v => text_or_missing v = true) c) ->
   exists out, apply_filters ui df = inr out).
Proof.
  split; [|split].
  - intros out H. unfold apply_filters in H.
    destruct (apply_filters_fold _ _ _ _ _ H) as (t & Ht & Hsub & Hlab & Hall).
    inversion Ht; subst t. auto.
  - apply fold_filters_absent.
  - intro H. apply fold_filters_returns; [exact H|reflexivity].
Qed.

Lemma C10_witness :
  apply_filters (fun caption => if String.eqb caption "📍 Source" then 1%nat else 0%nat)
    small_table =
  inr {| index := [0; 2];
         columns := [(LStr "Source", [PStr "avito"; PStr "avito"]);
                     (LStr "Km", [PInt 10; PInt 30])] |} /\
  subseq [(0, [PStr "avito"; PInt 10]); (2, [PStr "avito"; PInt 30])] (rows small_table) /\
  (forall out, apply_filters (fun _ => 0%nat) small_table = inr out -> out = small_table).
Proof.
  split; [reflexivity|]. split.
  - apply (proj1 (C10_apply_filters_subsequence
                    (fun caption => if String.eqb caption "📍 Source" then 1%nat else 0%nat)
                    small_table) _ eq_refl).
  - intros out H.
    apply (proj2 (proj2 (proj1 (C10_apply_filters_subsequence (fun _ => 0%nat)
                                  small_table) out H))).
    reflexivity.
Defined.

(* ===================================================================== *)
(** ** Further properties of load_data *)
(* ===================================================================== *)

Lemma strip_app s1 s2 :
  strip_non_digits (s1 ++ s2) = strip_non_digits s1 ++ strip_non_digits s2.
Proof.
  induction s1 as [|c r IH]; simpl; [reflexivity|].
  destruct (is_digit c); simpl; rewrite IH; reflexivity.
Qed.



Lemma dict_get_In k d v : dict_get k d = Some v -> In k (map fst d).
Proof.
  induction d as [|[k' v'] d IH]; simpl; [discriminate|].
  destruct (String.eqb k' k) eqn:E.
  - apply String.eqb_eq in E. auto.
  - intro H. right. auto.
Qed.

Lemma dict_get_of_key k d : In k (map fst d) -> exists v, dict_get k d = Some v.
Proof.
  induction d as [|[k' v'] d IH]; simpl; [intros []|].
  destruct (String.eqb k' k) eqn:E; [eauto|].
  intros [->|H]; [rewrite String.eqb_refl in E; discriminate|auto].
Qed.

Lemma single_record_keys d k : In k (record_keys [d]) <-> In k (map fst d).
Proof.
  rewrite record_keys_In. split.
  - intros (r & [<-|[]] & Hr). exact Hr.
  - intro H. exists d. split; [left; reflexivity|exact H].
Qed.

(** X2. A mapping without the key [data] is tabulated as a sequence of one
    record.  Either the constructor and the conversions return: the table
    has exactly one row, its columns are the keys of the mapping, no message
    is shown, and the value under every key other than Km, Prix, Mc and
    DateScraping is the cell of its column, unchanged (an int of 2^1023 or
    more apart, which the library converts).  Or one of them raises: the
    empty table is returned after a ProcessingError message.  Nothing
    raises when the mapping has none of the four keys and no such int. *)
Theorem single_mapping_is_one_row (lib : library) (w : world) (st : Z)
    (d : list (string * pyval)) :
  network w (List.length (sent w)) = Answer st (Json (PDict d)) ->
  error_status st = false ->
  dict_get "data" d = None ->
  ((exists df,
      load_data lib w = (Returned df, requested w) /\
      nrows df = 1%nat /\
      (forall k, In (LStr k) (labels df) <-> In k (map fst d)) /\
      (forall k v,
         recognized (LStr k) = false -> dict_get k d = Some v ->
         beyond_float v = false ->
         get_column df (LStr k) = Some [v])) \/
   (exists e,
      load_data lib w =
      (Returned empty_table, st_error (ProcessingError e) (requested w)))) /\
  ((forall k v, dict_get k d = Some v ->
                recognized (LStr k) = false /\ beyond_float v = false) ->
   exists df, load_data lib w = (Returned df, requested w) /\ nrows df = 1%nat).
Proof.
  intros Hn Hs Hd.
  assert (load_data lib w =
          match from_records lib [d] with
          | inr df0 => outcome_of lib w df0
          | inl e => (Returned empty_table, st_error (ProcessingError e) (requested w))
          end) as Hl.
  { rewrite (load_data_answer _ _ _ _ Hn Hs). simpl tabulated. rewrite Hd. reflexivity. }
  split.
  - destruct (from_records lib [d]) as [e|df0] eqn:Ef; [right; eauto|].
    unfold outcome_of in Hl. destruct (normalize lib df0) as [e|df] eqn:En; [right; eauto|].
    left. exists df. split; [exact Hl|].
    destruct (from_records_returns _ _ _ Ef) as (_ & Hlab & _ & Hcols).
    split; [|split].
    + rewrite (nrows_normalize _ _ _ En). apply (nrows_from_records _ _ _ Ef).
    + intro k. rewrite (normalize_labels _ _ _ En), (labels_of_records _ _ _ k Ef).
      split.
      * intros (r & [<-|[]] & Hr). exact Hr.
      * intro H. exists d. split; [left; reflexivity|exact H].
    + intros k v Hrec Hg Hv. rewrite (normalize_other _ _ _ _ En Hrec).
      destruct (Hcols k) as (c & Hc & Hget).
      { apply single_record_keys. eapply dict_get_In; eauto. }
      rewrite Hget. f_equal. cbn [map] in Hc. unfold record_cell in Hc. rewrite Hg in Hc.
      rewrite (maybe_convert_single _ _ Hv) in Hc. congruence.
  - intro Hall.
    destruct (from_records_all lib [d]) as (df0 & Ef).
    { intros k Hk. apply single_record_keys in Hk.
      destruct (dict_get_of_key _ _ Hk) as (v & Hv).
      cbn [map]. unfold record_cell. rewrite Hv.
      exists [v]. apply maybe_convert_single. apply (Hall _ _ Hv). }
    rewrite Ef in Hl. unfold outcome_of in Hl.
    destruct (from_records_returns _ _ _ Ef) as (_ & Hlab & _).
    rewrite (normalize_unrecognized lib df0) in Hl.
    + exists df0. split; [exact Hl|]. apply (nrows_from_records _ _ _ Ef).
    + intros l Hin. rewrite Hlab in Hin. apply in_map_iff in Hin.
      destruct Hin as (k & <- & Hk). apply single_record_keys in Hk.
      destruct (dict_get_of_key _ _ Hk) as (v & Hv). apply (Hall _ _ Hv).
Qed.

Lemma single_mapping_is_one_row_witness :
  exists df,
    load_data plain_library
      (always (Answer 200 (Json (PDict [("Marque", PStr "Dacia"); ("Annee", PInt 2019)])))) =
    (Returned df,
     requested (always (Answer 200
                  (Json (PDict [("Marque", PStr "Dacia"); ("Annee", PInt 2019)]))))) /\
    nrows df = 1%nat.
Proof.
  apply (proj2 (single_mapping_is_one_row plain_library
                  (always (Answer 200
                     (Json (PDict [("Marque", PStr "Dacia"); ("Annee", PInt 2019)]))))
                  200 _ eq_refl eq_refl eq_refl)).
  intros k v H. cbn [dict_get] in H.
  destruct (String.eqb "Marque" k) eqn:E1.
  - apply String.eqb_eq in E1. subst k. inversion H. split; reflexivity.
  - destruct (String.eqb "Annee" k) eqn:E2; [|discriminate H].
    apply String.eqb_eq in E2. subst k. inversion H. split; reflexivity.
Defined.

(** *** Rectangular tables *)

Lemma well_formed_from_records lib recs df :
  from_records lib recs = inr df -> well_formed df.
Proof.
  intro H. unfold well_formed. rewrite (nrows_from_records _ _ _ H).
  apply (from_records_returns _ _ _ H).
Qed.

Lemma assign_column_lengths name vals cols n c :
  lookup_column name cols = Some c ->
  List.length vals = List.length c ->
  Forall (fun lc => List.length (snd lc) = n) cols ->
  Forall (fun lc : label * list pyval => List.length (snd lc) = n)
    (assign_column name vals cols).
Proof.
  intros Hl Hv H. induction H as [|[l c'] cols Hc Hcols IH]; simpl in *; [discriminate|].
  destruct (label_eqb l name).
  - inversion Hl; subst. constructor; [simpl; congruence|exact Hcols].
  - constructor; [exact Hc|]. apply IH. exact Hl.
Qed.

Lemma well_formed_update f name df df' :
  (forall c c', f c = inr c' -> List.length c' = List.length c) ->
  well_formed df -> update_column f name df = inr df' -> well_formed df'.
Proof.
  intros Hf Hw. unfold update_column.
  destruct (get_column df name) as [c|] eqn:E; [|intros [= <-]; exact Hw].
  destruct (f c) as [e|c'] eqn:Ef; simpl; intros [= <-].
  unfold well_formed, set_column, nrows; simpl.
  eapply assign_column_lengths; eauto.
Qed.

Lemma well_formed_normalize lib df df' :
  well_formed df -> normalize lib df = inr df' -> well_formed df'.
Proof.
  intros H Hn.
  destruct (normalize_returns _ _ _ Hn) as (d1 & d2 & d3 & H1 & H2 & H3 & H4).
  eapply well_formed_update; [apply to_datetime_length| |exact H4].
  eapply well_formed_update; [apply cleaned_column_length| |exact H3].
  eapply well_formed_update; [apply cleaned_column_length| |exact H2].
  eapply well_formed_update; [apply cleaned_column_length| |exact H1].
  exact H.
Qed.

Lemma well_formed_empty : well_formed empty_table.
Proof. constructor. Qed.

Lemma well_formed_DataFrame lib v df0 :
  (forall v df, frame_of_other lib v = inr df -> well_formed df) ->
  DataFrame lib v = inr df0 -> well_formed df0.
Proof.
  intros Hlib H. unfold DataFrame, from_library in H.
  repeat match type of H with
         | (match ?x with _ => _ end) = _ => destruct x eqn:?
         | (if ?x then _ else _) = _ => destruct x eqn:?
         end; try discriminate H;
    first [ solve [inversion H; subst; apply well_formed_empty]
          | solve [eapply well_formed_from_records; eassumption]
          | solve [inversion H; subst; eapply Hlib; eassumption] ].
Qed.

(** X3. Whatever the endpoint does, the table [load_data] returns is
    rectangular: every column holds exactly one cell per row.  The tables
    built from records are rectangular by construction; for the other
    inputs of the constructor this is what the library provides. *)
Theorem load_data_returns_rectangular (lib : library) (w : world) (df : table) :
  (forall v df0, frame_of_other lib v = inr df0 -> well_formed df0) ->
  fst (load_data lib w) = Returned df ->
  well_formed df.
Proof.
  intros Hlib H. destruct (load_data_table_origin _ _ _ H) as [->|(v & df0 & Hd & Hn)].
  - apply well_formed_empty.
  - eapply well_formed_normalize; [|exact Hn]. eapply well_formed_DataFrame; eauto.
Qed.

Lemma load_data_returns_rectangular_witness :
  exists df,
    fst (load_data plain_library (always (Answer 200 (Json two_listings)))) = Returned df /\
    well_formed df.
Proof.
  eexists. split; [reflexivity|].
  apply (load_data_returns_rectangular plain_library
           (always (Answer 200 (Json two_listings)))).
  - intros v df0 H. discriminate H.
  - reflexivity.
Defined.

(** *** Integers beside a null *)

Lemma zeros_append a b : zeros a ++ zeros b = zeros (a + b).
Proof. induction a; simpl; [reflexivity|]. rewrite IHa. reflexivity. Qed.

Lemma rstrip_restore s :
  (String.length (rstrip_zeros s) <= String.length s)%nat /\
  rstrip_zeros s ++ zeros (String.length s - String.length (rstrip_zeros s)) = s.
Proof.
  induction s as [|c r [IHl IH]]; [split; reflexivity|].
  simpl rstrip_zeros.
  destruct (String.eqb (rstrip_zeros r) "" && Ascii.eqb c "0")%bool eqn:E.
  - apply andb_true_iff in E. destruct E as [Er Ec].
    apply String.eqb_eq in Er. apply Ascii.eqb_eq in Ec. subst c.
    rewrite Er in IH. simpl in IH. rewrite Nat.sub_0_r in IH.
    split; [simpl; lia|]. simpl. rewrite IH. reflexivity.
  - split; [simpl; lia|]. simpl. rewrite IH. reflexivity.
Qed.

Lemma append_assoc_string (a b c : string) : (a ++ b) ++ c = a ++ (b ++ c).
Proof. induction a; simpl; [reflexivity|]. rewrite IHa. reflexivity. Qed.

Lemma length_append_string (a b : string) :
  String.length (a ++ b) = (String.length a + String.length b)%nat.
Proof. induction a; simpl; [reflexivity|]. rewrite IHa. reflexivity. Qed.

Lemma exact_below_sixteen_digits n : 0 <= n <= FLOAT_EXACT -> 0 <= n < 10 ^ Z.of_nat 16.
Proof.
  intro H. assert (FLOAT_EXACT < 10 ^ Z.of_nat 16) by reflexivity. lia.
Qed.

(** The text of an integer-valued float up to [2^53] is the text of the
    integer followed by [.0]. *)
Lemma float_str_integral_text so n :
  0 <= n <= FLOAT_EXACT -> float_str so (FInt n) = int_str n ++ ".0".
Proof.
  intro H.
  pose proof (digits_bound 16 n ltac:(lia) (exact_below_sixteen_digits n H)) as Hlen.
  unfold float_str. destruct (n =? 0) eqn:E0.
  - apply Z.eqb_eq in E0. subst. reflexivity.
  - apply Z.eqb_neq in E0. rewrite Z.abs_eq by lia.
    assert ((n <=? FLOAT_EXACT) = true) as -> by (apply Z.leb_le; lia).
    assert ((n <? 0) = false) as -> by (apply Z.ltb_ge; lia).
    destruct (int_str_nonneg n (proj1 H)) as (d & Hd & Hs & _).
    assert (String.length (int_str n) <> 0)%nat as Hpos.
    { rewrite Hs. destruct d; simpl; congruence. }
    destruct (rstrip_restore (int_str n)) as [Hle Hr].
    unfold format_short.
    assert ((Z.of_nat (String.length (int_str n)) <=? -4) = false) as -> by (apply Z.leb_gt; lia).
    assert ((16 <? Z.of_nat (String.length (int_str n))) = false) as -> by (apply Z.ltb_ge; lia).
    assert ((Z.of_nat (String.length (int_str n)) <=? 0) = false) as -> by (apply Z.leb_gt; lia).
    assert ((Z.of_nat (String.length (rstrip_zeros (int_str n))) <=?
             Z.of_nat (String.length (int_str n))) = true) as -> by (apply Z.leb_le; lia).
    simpl orb. cbv iota.
    replace (Z.to_nat (Z.of_nat (String.length (int_str n)) -
                       Z.of_nat (String.length (rstrip_zeros (int_str n)))))
      with (String.length (int_str n) - String.length (rstrip_zeros (int_str n)))%nat by lia.
    rewrite <- append_assoc_string, Hr. reflexivity.
Qed.

(** The digits of an int below [10^15] are read exactly. *)
Lemma int_run_exact n :
  0 <= n < 10 ^ 15 ->
  strip_non_digits (int_str n) = int_str n /\
  parse_digits (int_str n) = Some n /\
  exact_run (int_str n) = true.
Proof.
  intro H. pose proof (strip_int_str n (proj1 H)) as Hs.
  assert (parse_digits (int_str n) = Some n) as Hp
      by (rewrite <- Hs; apply parse_strip_int_str; lia).
  repeat split; try assumption.
  unfold exact_run. apply Nat.leb_le. apply digits_bound; [lia|exact H].
Qed.

(** The digits of the text of a float worth an integer below [10^14]: the
    digits of the integer and the [0] after the point, read exactly. *)
Lemma float_run_exact so n :
  0 <= n < 10 ^ 14 ->
  strip_non_digits (float_str so (FInt n)) = int_str n ++ "0" /\
  parse_digits (int_str n ++ "0") = Some (10 * n) /\
  exact_run (int_str n ++ "0") = true.
Proof.
  intros [H0 H1].
  assert (0 <= n <= FLOAT_EXACT) as Hn.
  { assert (10 ^ 14 < FLOAT_EXACT) by reflexivity. lia. }
  rewrite (float_str_integral_text so n Hn).
  destruct (int_str_nonneg n H0) as (d & Hd & Hs & Hv).
  assert (strip_non_digits (int_str n ++ ".0") = int_str n ++ "0") as E1.
  { rewrite strip_app, Hs, strip_digits_of_uint. reflexivity. }
  assert (parse_digits (int_str n ++ "0") = Some (10 * n)) as E2.
  { rewrite Hs, <- string_of_uint_snoc0. unfold parse_digits.
    assert (NilEmpty.string_of_uint (snoc0 d) <> "") as Hne
        by (apply string_of_uint_nonempty; destruct d; discriminate).
    destruct (NilEmpty.string_of_uint (snoc0 d)) eqn:E; [congruence|].
    rewrite <- E, NilEmpty.usu. simpl. rewrite of_uint_snoc0, Hv. reflexivity. }
  repeat split; try assumption.
  unfold exact_run.
  pose proof (digits_bound 14 n ltac:(lia) (conj H0 H1)) as Hlen.
  rewrite length_append_string. simpl String.length.
  apply Nat.leb_le. lia.
Qed.

Lemma small_count_bound z :
  (0 <=? z) && (z <? 10 ^ 14) = true -> 0 <= z < 10 ^ 14.
Proof.
  intro H. apply andb_true_iff in H. destruct H as [H0 H1].
  apply Z.leb_le in H0. apply Z.ltb_lt in H1. auto.
Qed.

Lemma small_count_in_range z :
  0 <= z < 10 ^ 14 ->
  ((INT64_MIN <=? z) && (z <? 0) = false) /\
  ((INT64_MAX <? z) && (z <=? UINT64_MAX) = false) /\
  (UINT64_MAX <? z) = false /\ (z <? INT64_MIN) = false /\
  (FLOAT_EXACT <? Z.abs z) = false /\ (2 ^ 1023 <=? Z.abs z) = false.
Proof.
  intro H.
  assert (INT64_MIN = -9223372036854775808) as -> by reflexivity.
  assert (INT64_MAX = 9223372036854775807) as -> by reflexivity.
  assert (UINT64_MAX = 18446744073709551615) as -> by reflexivity.
  assert (FLOAT_EXACT = 9007199254740992) as -> by reflexivity.
  assert (10 ^ 14 = 100000000000000) as E by reflexivity. rewrite E in H.
  assert (9007199254740992 < 2 ^ 1023) as Hbig by reflexivity.
  rewrite Z.abs_eq by lia.
  split; [|split; [|split; [|split; [|split]]]].
  - apply andb_false_iff. right. apply Z.ltb_ge. lia.
  - apply andb_false_iff. left. apply Z.ltb_ge. lia.
  - apply Z.ltb_ge. lia.
  - apply Z.ltb_ge. lia.
  - apply Z.ltb_ge. lia.
  - apply Z.leb_gt. lia.
Qed.

Lemma see_small_count n a i z :
  0 <= z < 10 ^ 14 ->
  see {| null_ := n; nan_ := a; bool_ := false; float_ := false;
         int_ := i; uint_ := false; sint_ := false; object_ := false |} (PInt z) =
  {| null_ := n; nan_ := a; bool_ := false; float_ := false;
     int_ := true; uint_ := false; sint_ := false; object_ := false |}.
Proof.
  intro H. destruct (small_count_in_range z H) as (R1 & R2 & R3 & R4 & _).
  cbv [see object_ null_ nan_ bool_ float_ int_ uint_ sint_].
  destruct n; [reflexivity|].
  cbv [orb]. rewrite R1, R2, R3, R4. reflexivity.
Qed.

(** What the inference has seen after a column of small counts and nulls. *)
Lemma seen_counts_and_nulls col s0 :
  Forall (fun v => small_count_or_null v = true) col ->
  object_ s0 = false -> bool_ s0 = false -> float_ s0 = false ->
  uint_ s0 = false -> sint_ s0 = false ->
  let s := fold_left see col s0 in
  object_ s = false /\ bool_ s = false /\ float_ s = false /\
  null_ s = (null_ s0 || existsb (fun v => match v with PNone => true | _ => false end) col) /\
  nan_ s = (nan_ s0 || existsb (fun v => match v with PFloat FNaN => true | _ => false end) col) /\
  int_ s = (int_ s0 || existsb (fun v => match v with PInt _ => true | _ => false end) col).
Proof.
  intro H. revert s0. induction H as [|v col Hv Hcol IH]; intros s0 Ho Hb Hf Hu Hs.
  - simpl. rewrite !orb_false_r. repeat split; assumption || reflexivity.
  - cbn [fold_left existsb].
    destruct s0 as [n a b f i u si o]. simpl in Ho, Hb, Hf, Hu, Hs. subst.
    destruct v as [| |z|fl| | | | | |]; try discriminate Hv.
    + specialize (IH {| null_ := true; nan_ := a; bool_ := false; float_ := false;
                        int_ := i; uint_ := false; sint_ := false; object_ := false |}
                    eq_refl eq_refl eq_refl eq_refl eq_refl).
      cbn [see object_ null_ nan_ bool_ float_ int_ uint_ sint_].
      cbn [null_ nan_ int_] in IH. rewrite !orb_false_l.
      destruct IH as (H1 & H2 & H3 & H4 & H5 & H6).
      repeat split; try assumption.
      rewrite H4. rewrite !orb_true_r. reflexivity.
    + simpl in Hv. apply small_count_bound in Hv.
      rewrite (see_small_count n a i z Hv).
      specialize (IH {| null_ := n; nan_ := a; bool_ := false; float_ := false;
                        int_ := true; uint_ := false; sint_ := false; object_ := false |}
                    eq_refl eq_refl eq_refl eq_refl eq_refl).
      cbn [null_ nan_ int_] in IH. cbn [null_ nan_ int_].
      destruct IH as (H1' & H2 & H3 & H4 & H5 & H6).
      repeat split; try assumption.
      rewrite H6. rewrite !orb_true_r. reflexivity.
    + destruct fl; try discriminate Hv.
      specialize (IH {| null_ := n; nan_ := true; bool_ := false; float_ := false;
                        int_ := i; uint_ := false; sint_ := false; object_ := false |}
                    eq_refl eq_refl eq_refl eq_refl eq_refl).
      cbn [see object_ null_ nan_ bool_ float_ int_ uint_ sint_].
      cbn [null_ nan_ int_] in IH. rewrite !orb_false_l.
      destruct IH as (H1 & H2 & H3 & H4 & H5 & H6).
      repeat split; try assumption.
      rewrite H5. rewrite !orb_true_r. reflexivity.
Qed.

Lemma existsb_false_In {A : Type} (f : A -> bool) l x :
  existsb f l = false -> In x l -> f x = false.
Proof.
  intros H Hx. destruct (f x) eqn:E; [|reflexivity].
  assert (existsb f l = true) by (apply existsb_exists; eauto). congruence.
Qed.

Lemma existsb_none {A : Type} (f : A -> bool) l :
  (forall x, In x l -> f x = false) -> existsb f l = false.
Proof.
  intro H. apply not_true_is_false. intro E. apply existsb_exists in E.
  destruct E as (x & Hx & Hf). rewrite (H x Hx) in Hf. discriminate Hf.
Qed.

(** The column the inference builds from small counts and nulls: floats as
    soon as a null stands beside a number. *)
Lemma convert_small_counts lib col :
  Forall (fun v => small_count_or_null v = true) col ->
  maybe_convert_objects lib col =
  inr (if existsb isna col &&
          (existsb (fun v => match v with PInt _ => true | _ => false end) col ||
           existsb (fun v => match v with PFloat FNaN => true | _ => false end) col)
       then map as_float col else col).
Proof.
  intro H.
  pose proof (seen_counts_and_nulls col seen_nothing H eq_refl eq_refl eq_refl eq_refl eq_refl)
    as (Ho & Hb & Hf & Hn & Ha & Hi).
  cbv zeta in Ho, Hb, Hf, Hn, Ha, Hi. simpl in Hn, Ha, Hi.
  set (has_none := existsb (fun v => match v with PNone => true | _ => false end) col) in *.
  set (has_nan := existsb (fun v => match v with PFloat FNaN => true | _ => false end) col) in *.
  set (has_int := existsb (fun v => match v with PInt _ => true | _ => false end) col) in *.
  assert (existsb isna col = has_none || has_nan) as Hna.
  { subst has_none has_nan. clear - H. induction H as [|v col Hv Hcol IH]; [reflexivity|].
    cbn [existsb]. rewrite IH.
    destruct v as [| |z|fl| | | | | |]; try discriminate Hv; simpl;
      try (destruct fl; try discriminate Hv; simpl);
      repeat match goal with |- context [existsb ?f col] => destruct (existsb f col) end;
      reflexivity. }
  rewrite Forall_forall in H.
  assert (existsb beyond_float col = false) as Hbeyond.
  { apply existsb_none. intros v Hv. specialize (H v Hv).
    destruct v; try reflexivity. simpl in H. apply small_count_bound in H.
    apply (small_count_in_range z H). }
  assert (existsb needs_rounding col = false) as Hround.
  { apply existsb_none. intros v Hv. specialize (H v Hv).
    destruct v; try reflexivity. simpl in H. apply small_count_bound in H.
    apply (small_count_in_range z H). }
  assert (existsb is_text col = false) as Htext.
  { apply existsb_none. intros v Hv. specialize (H v Hv).
    destruct v; try reflexivity. discriminate H. }
  unfold maybe_convert_objects. cbv zeta.
  rewrite Hbeyond, Hround, Htext, andb_false_r. cbn [orb andb].
  unfold float_bound. rewrite Ho, Hb, Hf, Hn, Ha, Hi, Hna.
  destruct has_none, has_nan, has_int; reflexivity.
Qed.

(** On texts of at most 15 digits the cleaning reads the integers. *)
Lemma cleaned_column_exact lib c0 c :
  Forall (fun s => exact_run s = true) (digit_runs lib c0) ->
  cleaned_column lib c0 = inr c ->
  map numeric_value c = map parse_digits (digit_runs lib c0).
Proof.
  intros Hruns Hc. rewrite Forall_forall in Hruns.
  assert (existsb long_run (digit_runs lib c0) = false) as Hlong.
  { apply existsb_none. intros s Hs. specialize (Hruns s Hs).
    apply long_run_short. unfold exact_run in Hruns. apply Nat.leb_le in Hruns. lia. }
  rewrite (cleaned_column_plain _ _ Hlong) in Hc. inversion Hc; subst c. clear Hc.
  destruct (fits_integers (digit_runs lib c0)); rewrite map_map;
    apply map_ext_in; intros s Hs.
  - unfold int_of_text. destruct (parse_digits s); reflexivity.
  - apply float_of_text_exact. apply Hruns. exact Hs.
Qed.

(** Building a column of counts and nulls and then cleaning it. *)
Lemma convert_then_clean lib col c0 c :
  Forall (fun v => small_count_or_null v = true) col ->
  maybe_convert_objects lib col = inr c0 ->
  cleaned_column lib c0 = inr c ->
  map numeric_value c =
  map (fun v => match v with
                | PInt n => Some (if existsb isna col then 10 * n else n)
                | _ => None
                end) col.
Proof.
  intros H Hc0 Hc. rewrite (convert_small_counts lib col H) in Hc0.
  inversion Hc0; subst c0. clear Hc0.
  set (has_nan := existsb (fun v => match v with PFloat FNaN => true | _ => false end) col) in *.
  set (has_int := existsb (fun v => match v with PInt _ => true | _ => false end) col) in *.
  rewrite Forall_forall in H.
  set (to_float := existsb isna col && (has_int || has_nan)) in *.
  set (cell := fun v : pyval => if to_float then as_float v else v).
  assert ((if to_float then map as_float col else col) = map cell col) as Ecol.
  { unfold cell. destruct to_float; [reflexivity|]. symmetry. apply map_id. }
  rewrite Ecol in Hc.
  assert (forall v, In v col ->
            let s := strip_non_digits (py_str (str_object lib) (cell v)) in
            exact_run s = true /\
            parse_digits s =
            match v with
            | PInt n => Some (if existsb isna col then 10 * n else n)
            | _ => None
            end) as Hcell.
  { intros v Hv. cbv zeta. specialize (H v Hv). unfold cell, to_float.
    destruct (existsb isna col) eqn:Ena.
    - destruct (has_int || has_nan) eqn:Eor; cbn [andb].
      + destruct v as [| |z|fl| | | | | |]; try discriminate H.
        * split; reflexivity.
        * simpl in H. apply small_count_bound in H.
          cbn [as_float py_str].
          destruct (float_run_exact (str_object lib) z H) as (E1 & E2 & E3).
          rewrite E1. split; [exact E3|exact E2].
        * destruct fl; try discriminate H. split; reflexivity.
      + apply orb_false_iff in Eor. destruct Eor as [Ei Ea].
        destruct v as [| |z|fl| | | | | |]; try discriminate H.
        * split; reflexivity.
        * subst has_int. pose proof (existsb_false_In _ _ _ Ei Hv) as Hx. discriminate Hx.
        * destruct fl; try discriminate H.
          subst has_nan. pose proof (existsb_false_In _ _ _ Ea Hv) as Hx. discriminate Hx.
    - cbn [andb]. pose proof (existsb_false_In _ _ _ Ena Hv) as Hx.
      destruct v as [| |z|fl| | | | | |]; try discriminate H; try discriminate Hx.
      + simpl in H. apply small_count_bound in H.
        assert (0 <= z < 10 ^ 15) as Hz.
        { assert (10 ^ 14 < 10 ^ 15) by reflexivity. lia. }
        destruct (int_run_exact z Hz) as (E1 & E2 & E3).
        cbn [py_str]. rewrite E1. split; [exact E3|exact E2].
      + destruct fl; try discriminate H. discriminate Hx. }
  assert (digit_runs lib (map cell col) =
          map (fun v => strip_non_digits (py_str (str_object lib) (cell v))) col) as Eruns.
  { unfold digit_runs, str_replace_non_digits, astype_str. rewrite !map_map. reflexivity. }
  assert (Forall (fun s => exact_run s = true) (digit_runs lib (map cell col)))
    as Hexact.
  { rewrite Eruns. apply Forall_map, Forall_forall. intros v Hv. apply (Hcell v Hv). }
  rewrite (cleaned_column_exact lib _ _ Hexact Hc).
  rewrite Eruns, map_map. apply map_ext_in. intros v Hv. apply (Hcell v Hv).
Qed.

Lemma existsb_map {A B : Type} (f : B -> bool) (g : A -> B) l :
  existsb f (map g l) = existsb (fun x => f (g x)) l.
Proof. induction l; simpl; [reflexivity|]. rewrite IHl. reflexivity. Qed.

(** X4. Km, Prix or Mc given as JSON integers (non-negative, of at most 14
    digits), in a sequence of records the constructor tabulates and
    lines 46-54 convert without raising: when every record has the integer,
    the column keeps each value; when some record has null or lacks the key,
    the column is built as floats, their text ends in [.0], the digit filter
    keeps that zero, and every integer of the column comes out multiplied by
    ten (the null cells come out missing). *)
Theorem integers_beside_a_null_times_ten (lib : library) (w : world) (st : Z)
    (l : list pyval) (recs : list (list (string * pyval))) (col : string)
    (df0 df : table) :
  network w (List.length (sent w)) = Answer st (Json (PList l)) ->
  error_status st = false ->
  as_records l = Some recs ->
  In col ["Km"; "Prix"; "Mc"] ->
  In col (record_keys recs) ->
  Forall (fun r => small_count_or_null (record_cell col r) = true) recs ->
  DataFrame lib (PList l) = inr df0 ->
  normalize lib df0 = inr df ->
  load_data lib w = (Returned df, requested w) /\
  exists c,
    get_column df (LStr col) = Some c /\
    map numeric_value c =
    map (fun r =>
           match record_cell col r with
           | PInt n =>
               Some (if existsb (fun r' => isna (record_cell col r')) recs
                     then 10 * n else n)
           | _ => None
           end) recs.
Proof.
  intros Hn Hs Hr Hcol Hkey Hcells Hd Hnorm. split.
  - rewrite (load_data_answer _ _ _ _ Hn Hs).
    change (tabulated (PList l)) with (Some (PList l)). cbv iota.
    rewrite Hd. unfold outcome_of. rewrite Hnorm. reflexivity.
  - rewrite (DataFrame_records _ _ _ Hr) in Hd.
    destruct (from_records_returns _ _ _ Hd) as (_ & _ & _ & Hcols).
    destruct (Hcols col Hkey) as (c0 & Hc0 & Hg0).
    pose proof (normalize_numeric _ _ _ _ Hnorm Hcol) as Hstep.
    unfold column_step in Hstep. rewrite Hg0 in Hstep.
    destruct Hstep as (c & Hc & Hg). exists c. split; [exact Hg|].
    assert (Forall (fun v => small_count_or_null v = true) (map (record_cell col) recs))
      as Hsmall by (apply Forall_map; exact Hcells).
    rewrite (convert_then_clean lib _ _ _ Hsmall Hc0 Hc).
    rewrite map_map, existsb_map. reflexivity.
Qed.

Lemma integers_beside_a_null_times_ten_witness :
  exists df,
    load_data plain_library
      (always (Answer 200 (Json (PList [PDict [("Km", PInt 120000)];
                                        PDict [("Km", PNone)]])))) =
    (Returned df,
     requested (always (Answer 200 (Json (PList [PDict [("Km", PInt 120000)];
                                                 PDict [("Km", PNone)]]))))) /\
    option_map (map numeric_value) (get_column df (LStr "Km")) =
    Some [Some 1200000; None].
Proof.
  destruct (integers_beside_a_null_times_ten plain_library
              (always (Answer 200 (Json (PList [PDict [("Km", PInt 120000)];
                                                PDict [("Km", PNone)]]))))
              200 _ [[("Km", PInt 120000)]; [("Km", PNone)]] "Km" _ _
              eq_refl eq_refl eq_refl (or_introl eq_refl) (or_introl eq_refl)
              ltac:(repeat constructor) eq_refl eq_refl)
    as (H1 & c & H2 & H3).
  eexists. split; [exact H1|]. rewrite H2. simpl. rewrite H3. reflexivity.
Defined.

(* ===================================================================== *)
(** ** Further properties of apply_filters *)
(* ===================================================================== *)

Lemma lookup_map_values (g : list pyval -> list pyval) name cols :
  lookup_column name (map (fun lc => (fst lc, g (snd lc))) cols) =
  option_map g (lookup_column name cols).
Proof.
  induction cols as [|[l c] cols IH]; simpl; [reflexivity|].
  destruct (label_eqb l name); [reflexivity|exact IH].
Qed.

Lemma cell_of_column (g : list pyval -> pyval) name cols c :
  lookup_column name cols = Some c ->
  cell_of name (map fst cols) (map g (map snd cols)) = Some (g c).
Proof.
  induction cols as [|[l c'] cols IH]; simpl; [discriminate|].
  destruct (label_eqb l name); [intros [= ->]; reflexivity|exact IH].
Qed.

Lemma lookup_column_In name cols c :
  lookup_column name cols = Some c -> exists l, In (l, c) cols.
Proof.
  induction cols as [|[l c'] cols IH]; simpl; [discriminate|].
  destruct (label_eqb l name).
  - intros [= ->]. exists l. left. reflexivity.
  - intro H. destruct (IH H) as [l' Hl]. exists l'. right. exact Hl.
Qed.

(** In a rectangular table the rows hold, under a label, the cells of the
    column of that label. *)
Lemma rows_cells idx cols name c :
  Forall (fun lc : label * list pyval => List.length (snd lc) = List.length idx) cols ->
  lookup_column name cols = Some c ->
  map (fun r => cell_of name (map fst cols) (snd r)) (rows_of idx (map snd cols)) =
  map Some c.
Proof.
  revert cols c. induction idx as [|i idx IH]; intros cols c Hw Hl.
  - destruct (lookup_column_In _ _ _ Hl) as [l Hin].
    rewrite Forall_forall in Hw. specialize (Hw _ Hin). simpl in Hw.
    destruct c; [reflexivity|discriminate].
  - rewrite rows_of_cons. cbn [map snd].
    assert (List.length c = S (List.length idx)) as Hc.
    { destruct (lookup_column_In _ _ _ Hl) as [l Hin].
      rewrite Forall_forall in Hw. apply (Hw _ Hin). }
    destruct c as [|v c]; [discriminate|].
    rewrite (cell_of_column (hd PNone) _ _ _ Hl). cbn [hd map]. f_equal.
    set (cols' := map (fun lc : label * list pyval => (fst lc, tl (snd lc))) cols).
    assert (map (@tl pyval) (map snd cols) = map snd cols') as ->
        by (unfold cols'; rewrite !map_map; reflexivity).
    assert (map fst cols = map fst cols') as ->
        by (unfold cols'; rewrite map_map; reflexivity).
    apply IH.
    + unfold cols'. apply Forall_map. eapply Forall_impl; [|exact Hw].
      intros [l c'] H. simpl in *. destruct c'; simpl in *; [discriminate|lia].
    + unfold cols'. rewrite (lookup_map_values (@tl pyval)), Hl. reflexivity.
Qed.

Lemma table_rows_cells df name c :
  well_formed df ->
  get_column df name = Some c ->
  map (fun r => cell_of name (labels df) (snd r)) (rows df) = map Some c.
Proof. intros Hw Hg. apply rows_cells; assumption. Qed.

Lemma mask_filter_as_filter {A : Type} (f : A -> bool) (l : list A) :
  mask_filter (map f l) l = filter f l.
Proof.
  induction l as [|x l IH]; simpl; [reflexivity|].
  rewrite IH. reflexivity.
Qed.

Lemma mask_filter_length {A B : Type} mask (l1 : list A) (l2 : list B) :
  List.length l1 = List.length l2 ->
  List.length (mask_filter mask l1) = List.length (mask_filter mask l2).
Proof.
  revert l1 l2. induction mask as [|b mask IH]; intros [|x l1] [|y l2] H;
    simpl in *; try reflexivity; try discriminate.
  destruct b; simpl; auto.
Qed.

Lemma well_formed_select mask df : well_formed df -> well_formed (select_rows mask df).
Proof.
  unfold well_formed, select_rows, nrows; simpl. intro H.
  apply Forall_map. eapply Forall_impl; [|exact H].
  intros [l c] Hc. simpl in *. apply mask_filter_length. exact Hc.
Qed.

Lemma filter_all {A : Type} (l : list A) : filter (fun _ => true) l = l.
Proof. induction l; simpl; congruence. Qed.

Lemma filter_twice {A : Type} (f g : A -> bool) (l : list A) :
  filter g (filter f l) = filter (fun x => f x && g x) l.
Proof.
  induction l as [|x l IH]; simpl; [reflexivity|].
  destruct (f x); simpl; [destruct (g x)|]; rewrite IH; reflexivity.
Qed.

(** One block keeps exactly the rows that pass its filter. *)
Lemma filter_on_exact ui df f filtered_df out :
  well_formed filtered_df ->
  labels filtered_df = labels df ->
  filter_on ui df (fst f) (snd f) filtered_df = inr out ->
  rows out = filter (passes ui df f) (rows filtered_df) /\
  labels out = labels df /\
  well_formed out.
Proof.
  intros Hw Hlab. unfold filter_on, passes, active.
  destruct (get_column df (LStr (fst f))) as [c|].
  - destruct (options c) as [e|opts]; [discriminate|]. cbv zeta.
    destruct (not_tous (selectbox ui (snd f) opts)).
    + destruct (get_column filtered_df (LStr (fst f))) as [fc|] eqn:Hf; [|discriminate].
      intros [= <-]. rewrite rows_select, labels_select.
      split; [|split; [exact Hlab|apply well_formed_select; exact Hw]].
      rewrite <- mask_filter_as_filter. f_equal.
      unfold keeps. rewrite <- Hlab.
      rewrite <- (map_map (fun r => cell_of (LStr (fst f)) (labels filtered_df) (snd r))
                    (fun o => match o with
                              | Some v => py_eq v (selectbox ui (snd f) opts)
                              | None => false
                              end)).
      rewrite (table_rows_cells _ _ _ Hw Hf), map_map. reflexivity.
    + intros [= <-]. rewrite filter_all. auto.
  - intros [= <-]. rewrite filter_all. auto.
Qed.

Lemma fold_filters_exact ui df fs t out :
  well_formed t ->
  labels t = labels df ->
  fold_left
    (fun acc f =>
       match acc with
       | inr filtered_df => filter_on ui df (fst f) (snd f) filtered_df
       | inl e => inl e
       end) fs (inr t) = inr out ->
  rows out = filter (fun r => forallb (fun f => passes ui df f r) fs) (rows t) /\
  labels out = labels df /\
  well_formed out.
Proof.
  revert t. induction fs as [|f fs IH]; simpl; intros t Hw Hlab H.
  - inversion H; subst. rewrite filter_all. auto.
  - destruct (filter_on ui df (fst f) (snd f) t) as [e|t'] eqn:E.
    + exfalso. clear - H. induction fs as [|g fs IH]; simpl in H; [discriminate|auto].
    + destruct (filter_on_exact _ _ _ _ _ Hw Hlab E) as (Hr & Hl & Hw').
      destruct (IH t' Hw' Hl H) as (Hr2 & Hl2 & Hw2).
      split; [|auto]. rewrite Hr2, Hr, filter_twice. reflexivity.
Qed.

(** X5. On a rectangular table, the rows [apply_filters] returns are exactly
    the rows of the input that hold, for every filter whose box is not on
    'Tous', a cell equal to the value chosen in that box; the result has the
    columns of the input and is rectangular. *)
Theorem apply_filters_keeps_matching_rows (ui : string -> nat) (df out : table) :
  well_formed df ->
  apply_filters ui df = inr out ->
  rows out = filter (row_passes ui df) (rows df) /\
  labels out = labels df /\
  well_formed out.
Proof.
  intros Hw H. unfold apply_filters in H.
  apply (fold_filters_exact ui df filters df out Hw eq_refl H).
Qed.

Lemma apply_filters_keeps_matching_rows_witness :
  well_formed small_table /\
  forall out,
    apply_filters (fun caption => if String.eqb caption "📍 Source" then 1%nat else 0%nat)
      small_table = inr out ->
    rows out = [(0, [PStr "avito"; PInt 10]); (2, [PStr "avito"; PInt 30])].
Proof.
  assert (well_formed small_table) as Hw by (repeat constructor).
  split; [exact Hw|]. intros out H.
  rewrite (proj1 (apply_filters_keeps_matching_rows _ _ _ Hw H)). reflexivity.
Defined.

(** *** What a select box offers *)

Lemma existsb_py_eq_text acc v :
  Forall (fun u => is_text u = true) acc -> is_text v = true ->
  (existsb (fun u => py_eq u v) acc = true <-> In v acc).
Proof.
  intros Hacc Hv. rewrite existsb_exists. rewrite Forall_forall in Hacc. split.
  - intros (u & Hu & E). specialize (Hacc u Hu).
    destruct u; try discriminate. destruct v; try discriminate.
    simpl in E. apply String.eqb_eq in E. subst. exact Hu.
  - intro H. exists v. split; [exact H|].
    destruct v; try discriminate. simpl. apply String.eqb_refl.
Qed.

Lemma unique_fold_text l acc :
  Forall (fun v => is_text v = true) l ->
  Forall (fun v => is_text v = true) acc ->
  NoDup acc ->
  NoDup (fold_left (fun acc v => if existsb (fun u => py_eq u v) acc then acc
                                 else (acc ++ [v])%list) l acc) /\
  (forall v,
     In v (fold_left (fun acc v => if existsb (fun u => py_eq u v) acc then acc
                                   else (acc ++ [v])%list) l acc) <->
     In v acc \/ In v l).
Proof.
  intro Hl. revert acc. induction Hl as [|x l Hx Hl IH]; simpl; intros acc Hacc Hnd.
  - split; [exact Hnd|]. intro v. tauto.
  - destruct (existsb (fun u => py_eq u x) acc) eqn:E.
    + destruct (IH acc Hacc Hnd) as [H1 H2]. split; [exact H1|].
      intro v. rewrite H2. apply (existsb_py_eq_text acc x Hacc Hx) in E.
      intuition (subst; auto).
    + assert (~ In x acc) as Hnot.
      { intro Hin. apply (existsb_py_eq_text acc x Hacc Hx) in Hin. congruence. }
      destruct (IH (acc ++ [x])%list) as [H1 H2].
      * apply Forall_app. split; [exact Hacc|]. constructor; [exact Hx|constructor].
      * apply NoDup_app; [exact Hnd|constructor; [intros []|constructor]|].
        intros a Ha [<-|[]]. contradiction.
      * split; [exact H1|]. intro v. rewrite H2, in_app_iff. simpl. tauto.
Qed.

Lemma text_lt_or_gt a b :
  String.ltb a b = false -> a <> b -> String.ltb b a = true.
Proof.
  unfold String.ltb. intros H Hne. rewrite String.compare_antisym.
  destruct (String.compare a b) eqn:E; simpl; try reflexivity; [|discriminate].
  apply String.compare_eq_iff in E. contradiction.
Qed.

Lemma insert_sorted_text_spec x l :
  is_text x = true ->
  Forall (fun v => is_text v = true) l ->
  Sorted text_lt l -> NoDup l -> ~ In x l ->
  exists r,
    insert_sorted x l = inr r /\
    Sorted text_lt r /\ NoDup r /\
    (forall v, In v r <-> v = x \/ In v l) /\
    (forall y, HdRel text_lt y l -> text_lt y x -> HdRel text_lt y r).
Proof.
  intros Hx Hl. induction Hl as [|y l Hy Hl IH]; intros Hs Hnd Hnot.
  - exists [x]. simpl. repeat split.
    + repeat constructor.
    + constructor; [intros []|constructor].
    + intros [<-|[]]. left. reflexivity.
    + intros [->|[]]. left. reflexivity.
    + intros y _ Hyx. constructor. exact Hyx.
  - destruct x as [| | | |a| | | | |]; try discriminate.
    destruct y as [| | | |b| | | | |]; try discriminate.
    cbn [insert_sorted py_lt]. destruct (String.ltb a b) eqn:E.
    + exists (PStr a :: PStr b :: l). repeat split.
      * constructor; [exact Hs|]. constructor. unfold text_lt. simpl. rewrite E. reflexivity.
      * constructor; assumption.
      * intros [<-|H]; [left; reflexivity|right; exact H].
      * intros [->|H]; [left; reflexivity|right; exact H].
      * intros y _ Hyx. constructor. exact Hyx.
    + inversion Hs as [|? ? Hs' Hhd]; subst. inversion Hnd as [|? ? Hnb Hnd']; subst.
      destruct IH as (r & Hr & Hsr & Hndr & Hin & Hhead); [exact Hs'|exact Hnd'| |].
      { intro H. apply Hnot. right. exact H. }
      rewrite Hr. exists (PStr b :: r).
      assert (text_lt (PStr b) (PStr a)) as Hba.
      { unfold text_lt. simpl. f_equal. apply text_lt_or_gt; [exact E|].
        intros ->. apply Hnot. left. reflexivity. }
      repeat split.
      * constructor; [exact Hsr|]. apply Hhead; assumption.
      * constructor; [|exact Hndr]. intro H. apply Hin in H. destruct H as [H|H].
        -- inversion H; subst. apply Hnot. left. reflexivity.
        -- contradiction.
      * intros [<-|H]; [right; left; reflexivity|].
        apply Hin in H. destruct H as [->|H]; [left; reflexivity|right; right; exact H].
      * intros [->|[<-|H]].
        -- right. apply Hin. left. reflexivity.
        -- left. reflexivity.
        -- right. apply Hin. right. exact H.
      * intros y Hy' _. inversion Hy'; subst. constructor. assumption.
Qed.

Lemma sorted_fold_text l done :
  Forall (fun v => is_text v = true) l ->
  Forall (fun v => is_text v = true) done ->
  Sorted text_lt done -> NoDup done -> NoDup l ->
  (forall v, In v l -> ~ In v done) ->
  exists r,
    fold_left
      (fun acc x =>
         match acc with
         | inr done => insert_sorted x done
         | inl e => inl e
         end) l (inr done) = inr r /\
    Sorted text_lt r /\ NoDup r /\
    (forall v, In v r <-> In v done \/ In v l).
Proof.
  intro Hl. revert done. induction Hl as [|x l Hx Hl IH]; simpl; intros done Hd Hs Hnd Hndl Hdis.
  - exists done. repeat split; try assumption; tauto.
  - inversion Hndl as [|? ? Hxl Hndl']; subst.
    destruct (insert_sorted_text_spec x done Hx Hd Hs Hnd) as (r & Hr & Hsr & Hndr & Hin & _).
    { apply Hdis. left. reflexivity. }
    rewrite Hr. destruct (IH r) as (r' & Hr' & Hs' & Hnd' & Hin').
    + apply Forall_forall. intros v Hv. apply Hin in Hv. destruct Hv as [->|Hv]; [exact Hx|].
      rewrite Forall_forall in Hd. auto.
    + exact Hsr.
    + exact Hndr.
    + exact Hndl'.
    + intros v Hv Hvr. apply Hin in Hvr. destruct Hvr as [->|Hvd]; [contradiction|].
      apply (Hdis v); [right; exact Hv|exact Hvd].
    + exists r'. repeat split; try assumption.
      * intro H. apply Hin' in H. destruct H as [H|H]; [|right; right; exact H].
        apply Hin in H. destruct H as [->|H]; [right; left; reflexivity|left; exact H].
      * intros [H|[<-|H]]; apply Hin'.
        -- left. apply Hin. right. exact H.
        -- left. apply Hin. left. reflexivity.
        -- right. exact H.
Qed.

Lemma options_text_spec (c : list pyval) :
  Forall (fun v => text_or_missing v = true) c ->
  exists vals,
    options c = inr (PStr "Tous" :: vals) /\
    NoDup vals /\
    Sorted text_lt vals /\
    (forall v, In v vals <-> In v c /\ is_text v = true).
Proof.
  intro H. pose proof (dropna_text c H) as Hd.
  destruct (unique_fold_text (dropna c) [] Hd (Forall_nil _) (NoDup_nil _)) as [Hnd Hin].
  unfold options, unique.
  assert (forallb hashable (dropna c) = true) as ->.
  { apply forallb_forall. intros v Hv. rewrite Forall_forall in Hd.
    specialize (Hd v Hv). destruct v; try discriminate; reflexivity. }
  set (u := fold_left _ (dropna c) []) in *.
  assert (Forall (fun v => is_text v = true) u) as Hu.
  { apply Forall_forall. intros v Hv. apply Hin in Hv. destruct Hv as [[]|Hv].
    rewrite Forall_forall in Hd. auto. }
  destruct (sorted_fold_text u [] Hu (Forall_nil _) (Sorted_nil _) (NoDup_nil _) Hnd)
    as (r & Hr & Hs & Hndr & Hinr); [intros v _ []|].
  unfold sorted. rewrite Hr. exists r. repeat split; try assumption.
  - apply Hinr in H0. destruct H0 as [[]|H0]. apply Hin in H0. destruct H0 as [[]|H0].
    unfold dropna in H0. apply filter_In in H0. tauto.
  - apply Hinr in H0. destruct H0 as [[]|H0]. rewrite Forall_forall in Hu. auto.
  - intros [Hc Ht]. apply Hinr. right. apply Hin. right.
    unfold dropna. apply filter_In. split; [exact Hc|].
    destruct v; try discriminate. reflexivity.
Qed.

(** X6. For a column of text and missing cells, the select box offers
    'Tous' first and then the values of the column: each distinct
    non-missing value exactly once, in ascending order, and nothing else. *)
Theorem options_are_the_distinct_values (c : list pyval) :
  Forall (fun v => text_or_missing v = true) c ->
  exists vals,
    options c = inr (PStr "Tous" :: vals) /\
    NoDup vals /\
    Sorted text_lt vals /\
    (forall v, In v vals <-> In v c /\ is_text v = true).
Proof. exact (options_text_spec c). Qed.

Lemma options_are_the_distinct_values_witness :
  exists vals,
    options [PStr "moteur"; PNone; PStr "avito"; PStr "moteur"] =
    inr (PStr "Tous" :: vals) /\
    NoDup vals /\
    (In (PStr "avito") vals /\ In (PStr "moteur") vals).
Proof.
  destruct (options_are_the_distinct_values
              [PStr "moteur"; PNone; PStr "avito"; PStr "moteur"])
    as (vals & H1 & H2 & _ & H4).
  - repeat constructor.
  - exists vals. split; [exact H1|]. split; [exact H2|].
    split; apply H4; simpl; auto.
Defined.

(** *** One filter at work *)

Lemma length_rows_of idx cols : List.length (rows_of idx cols) = List.length idx.
Proof.
  revert cols. induction idx as [|i idx IH]; intro cols; simpl; [reflexivity|].
  rewrite IH. reflexivity.
Qed.

Lemma py_eq_text_cell v s :
  text_or_missing v = true -> py_eq v (PStr s) = true -> v = PStr s.
Proof.
  intros Hv He. destruct v as [| | |f| | | | | |]; try discriminate.
  - destruct f; discriminate.
  - simpl in He. apply String.eqb_eq in He. congruence.
Qed.

Lemma first_option_is_inactive ui df f :
  (forall c, get_column df (LStr (fst f)) = Some c ->
             Forall (fun v => text_or_missing v = true) c) ->
  ui (snd f) = 0%nat ->
  active ui df f = None.
Proof.
  intros Ht H0. unfold active.
  destruct (get_column df (LStr (fst f))) as [c|]; [|reflexivity].
  destruct (options_text_spec c (Ht c eq_refl)) as (vals & -> & _).
  unfold selectbox. rewrite H0. reflexivity.
Qed.

(** X7. When the filter columns hold text or missing cells and the user
    picks, in one box, a value the box offers (any option after the first)
    while the other boxes stay on their first option, [apply_filters]
    returns a table with at least one row; the value picked is a value of
    the column, and unless it is the text 'Tous' every row returned holds it
    in the column of that box. *)
Theorem offered_value_keeps_a_row (ui : string -> nat) (df : table)
    (f0 : string * string) (c opts : list pyval) :
  well_formed df ->
  In f0 filters ->
  get_column df (LStr (fst f0)) = Some c ->
  (forall f c', In f filters -> get_column df (LStr (fst f)) = Some c' ->
                Forall (fun v => text_or_missing v = true) c') ->
  options c = inr opts ->
  (0 < ui (snd f0) < List.length opts)%nat ->
  (forall f, In f filters -> f <> f0 -> ui (snd f) = 0%nat) ->
  exists out,
    apply_filters ui df = inr out /\
    rows out <> [] /\
    In (selectbox ui (snd f0) opts) c /\
    (not_tous (selectbox ui (snd f0) opts) = true ->
     forall r, In r (rows out) ->
               cell_of (LStr (fst f0)) (labels df) (snd r) = Some (selectbox ui (snd f0) opts)).
Proof.
  intros Hw Hf0 Hc Htext Hopts Hk Hothers.
  destruct (fold_filters_returns ui df filters df Htext eq_refl) as [out Hout].
  destruct (fold_filters_exact ui df filters df out Hw eq_refl Hout) as (Hrows & _ & _).
  fold (row_passes ui df) in Hrows. fold (apply_filters ui df) in Hout.
  exists out. split; [exact Hout|].
  destruct (options_text_spec c (Htext f0 c Hf0 Hc)) as (vals & Hv & _ & _ & Hin).
  rewrite Hopts in Hv. inversion Hv; subst opts. clear Hv.
  set (sel := selectbox ui (snd f0) (PStr "Tous" :: vals)) in *.
  assert (In sel vals) as Hsel.
  { unfold sel, selectbox. destruct (ui (snd f0)) as [|k] eqn:E; [lia|].
    simpl. apply nth_In. simpl in Hk. lia. }
  apply Hin in Hsel. destruct Hsel as [Hselc Hselt].
  destruct sel as [| | | |s| | | | |] eqn:Esel; try discriminate Hselt.
  assert (forall f r, In f filters -> f <> f0 -> passes ui df f r = true) as Hpass.
  { intros f r Hf Hne. unfold passes.
    rewrite (first_option_is_inactive ui df f); [reflexivity| |auto].
    intros c' Hc'. eapply Htext; eauto. }
  assert (forall r, passes ui df f0 r = true ->
                    In r (rows df) ->
                    cell_of (LStr (fst f0)) (labels df) (snd r) = Some (PStr s) \/
                    not_tous (PStr s) = false) as Hkeep.
  { intros r Hp Hr. unfold passes, active in Hp. rewrite Hc, Hopts in Hp. cbv zeta in Hp.
    fold sel in Hp. rewrite Esel in Hp.
    destruct (not_tous (PStr s)); [|right; reflexivity]. left.
    unfold keeps in Hp.
    destruct (cell_of (LStr (fst f0)) (labels df) (snd r)) as [v|] eqn:Ev; [|discriminate].
    f_equal. apply py_eq_text_cell; [|exact Hp].
    assert (In (Some v) (map Some c)) as Hvc.
    { rewrite <- (table_rows_cells df (LStr (fst f0)) c Hw Hc).
      apply in_map_iff. exists r. split; assumption. }
    apply in_map_iff in Hvc. destruct Hvc as (v' & [= ->] & Hv').
    pose proof (Htext f0 c Hf0 Hc) as Hall. rewrite Forall_forall in Hall. auto. }
  assert (In (Some (PStr s)) (map (fun r => cell_of (LStr (fst f0)) (labels df) (snd r))
                                  (rows df))) as Hrow.
  { rewrite (table_rows_cells df (LStr (fst f0)) c Hw Hc). apply in_map. exact Hselc. }
  apply in_map_iff in Hrow. destruct Hrow as (r0 & Hr0 & Hr0in).
  assert (forall r, In r (rows df) ->
                    cell_of (LStr (fst f0)) (labels df) (snd r) = Some (PStr s) ->
                    row_passes ui df r = true) as Hall.
  { intros r Hr Hcell. unfold row_passes. apply forallb_forall. intros f Hf.
    destruct (string_dec (fst f) (fst f0)) as [E1|N1];
      [destruct (string_dec (snd f) (snd f0)) as [E2|N2]|].
    - assert (f = f0) as -> by (destruct f, f0; simpl in *; congruence).
      unfold passes, active. rewrite Hc, Hopts. cbv zeta. fold sel. rewrite Esel.
      destruct (not_tous (PStr s)); [|reflexivity].
      unfold keeps. rewrite Hcell. simpl. apply String.eqb_refl.
    - apply Hpass; [exact Hf|]. intros ->. contradiction.
    - apply Hpass; [exact Hf|]. intros ->. contradiction. }
  split; [|split; [exact Hselc|]].
  - rewrite Hrows. intro Hnil.
    assert (In r0 (filter (row_passes ui df) (rows df))) as Hin0.
    { apply filter_In. split; [exact Hr0in|]. apply Hall; assumption. }
    rewrite Hnil in Hin0. destruct Hin0.
  - intros Hnt r Hr. rewrite Hrows in Hr. apply filter_In in Hr. destruct Hr as [Hr Hp].
    unfold row_passes in Hp. rewrite forallb_forall in Hp. specialize (Hp f0 Hf0).
    destruct (Hkeep r Hp Hr) as [H|H]; [exact H|congruence].
Qed.

Lemma offered_value_keeps_a_row_witness :
  exists out,
    apply_filters (fun caption => if String.eqb caption "📍 Source" then 2%nat else 0%nat)
      small_table = inr out /\
    rows out <> [] /\
    (forall r, In r (rows out) ->
               cell_of (LStr "Source") (labels small_table) (snd r) = Some (PStr "moteur")).
Proof.
  destruct (offered_value_keeps_a_row
              (fun caption => if String.eqb caption "📍 Source" then 2%nat else 0%nat)
              small_table ("Source", "📍 Source")
              [PStr "avito"; PStr "moteur"; PStr "avito"]
              [PStr "Tous"; PStr "avito"; PStr "moteur"])
    as (out & H1 & H2 & _ & H4).
  - repeat constructor.
  - left. reflexivity.
  - reflexivity.
  - intros f c' Hf Hc'.
    simpl in Hf. destruct Hf as [<-|[<-|[<-|[<-|[<-|[<-|[]]]]]]];
      try discriminate Hc'. inversion Hc'. repeat constructor.
  - reflexivity.
  - simpl. lia.
  - intros f Hf Hne.
    simpl in Hf. destruct Hf as [<-|[<-|[<-|[<-|[<-|[<-|[]]]]]]];
      try reflexivity. contradiction.
  - exists out. split; [exact H1|]. split; [exact H2|]. apply H4. reflexivity.
Defined.

Lemma fold_filters_inl ui df fs e :
  fold_left
    (fun acc f =>
       match acc with
       | inr filtered_df => filter_on ui df (fst f) (snd f) filtered_df
       | inl e => inl e
       end) fs (inl e) = inl e.
Proof. induction fs as [|f fs IH]; simpl; [reflexivity|exact IH]. Qed.

Lemma fold_filters_inactive ui df fs t out :
  (forall f, In f fs -> active ui df f = None) ->
  fold_left
    (fun acc f =>
       match acc with
       | inr filtered_df => filter_on ui df (fst f) (snd f) filtered_df
       | inl e => inl e
       end) fs (inr t) = inr out ->
  out = t.
Proof.
  revert t. induction fs as [|f fs IH]; simpl; intros t Hin H; [congruence|].
  destruct (filter_on ui df (fst f) (snd f) t) as [e|t'] eqn:E.
  - rewrite fold_filters_inl in H. discriminate.
  - rewrite (IH t' (fun g Hg => Hin g (or_intror Hg)) H).
    pose proof (Hin f (or_introl eq_refl)) as Ha.
    unfold filter_on in E. unfold active in Ha.
    destruct (get_column df (LStr (fst f))) as [c|]; [|congruence].
    destruct (options c) as [e|opts]; [discriminate|]. cbv zeta in Ha.
    destruct (not_tous (selectbox ui (snd f) opts)); [discriminate|congruence].
Qed.

(** X8. A value of a filter column that is the text 'Tous' cannot be
    filtered on: when the option chosen in every box reads 'Tous', whether
    it is the first option or a value of the column listed after it,
    [apply_filters] returns the input with every row. *)
Theorem tous_value_cannot_be_selected (ui : string -> nat) (df out : table) :
  (forall f c opts,
     In f filters -> get_column df (LStr (fst f)) = Some c -> options c = inr opts ->
     selectbox ui (snd f) opts = PStr "Tous") ->
  apply_filters ui df = inr out ->
  out = df.
Proof.
  intros Hsel H. unfold apply_filters in H.
  apply (fold_filters_inactive ui df filters df out); [|exact H].
  intros f Hf. unfold active.
  destruct (get_column df (LStr (fst f))) as [c|] eqn:Hc; [|reflexivity].
  destruct (options c) as [e|opts] eqn:Ho; [reflexivity|]. cbv zeta.
  rewrite (Hsel f c opts Hf Hc Ho). reflexivity.
Qed.

Lemma tous_value_cannot_be_selected_witness :
  options [PStr "avito"; PStr "Tous"] = inr [PStr "Tous"; PStr "Tous"; PStr "avito"] /\
  forall out,
    apply_filters (fun caption => if String.eqb caption "📍 Source" then 1%nat else 0%nat)
      tous_table = inr out ->
    out = tous_table.
Proof.
  split; [reflexivity|]. intros out H.
  apply (tous_value_cannot_be_selected
           (fun caption => if String.eqb caption "📍 Source" then 1%nat else 0%nat)
           tous_table out); [|exact H].
  intros f c opts Hf Hc Ho.
  simpl in Hf. destruct Hf as [<-|[<-|[<-|[<-|[<-|[<-|[]]]]]]]; try discriminate Hc.
  inversion Hc; subst c. vm_compute in Ho. inversion Ho; subst opts. reflexivity.
Defined.

(** *** How apply_filters fails *)

Lemma insert_sorted_raises x l e : insert_sorted x l = inl e -> e = TypeError.
Proof.
  induction l as [|y l IH]; simpl; [discriminate|].
  destruct (py_lt x y) as [[|]|]; [discriminate| |congruence].
  destruct (insert_sorted x l); [|discriminate]. intros [= <-]. apply IH. reflexivity.
Qed.

Lemma sorted_raises l e : sorted l = inl e -> e = TypeError.
Proof.
  unfold sorted.
  assert (forall start,
            (forall e', start = inl e' -> e' = TypeError) ->
            fold_left
              (fun acc x =>
                 match acc with
                 | inr done => insert_sorted x done
                 | inl e => inl e
                 end) l start = inl e -> e = TypeError) as H.
  { induction l as [|x l IH]; simpl; intros start Hs H; [auto|].
    refine (IH _ _ H). intros e' He'.
    destruct start as [e0|done]; [auto|]. eapply insert_sorted_raises; eauto. }
  apply H. discriminate.
Qed.

Lemma options_raises c e : options c = inl e -> e = TypeError.
Proof.
  unfold options, unique.
  destruct (forallb hashable (dropna c)); [|congruence].
  match goal with |- context [sorted ?u] => destruct (sorted u) eqn:E end;
    [|discriminate].
  intros [= <-]. eapply sorted_raises; eauto.
Qed.

Lemma filter_on_raises ui df f t e :
  labels t = labels df ->
  filter_on ui df (fst f) (snd f) t = inl e ->
  e = TypeError /\
  exists c, get_column df (LStr (fst f)) = Some c /\ options c = inl TypeError.
Proof.
  intros Hlab. unfold filter_on.
  destruct (get_column df (LStr (fst f))) as [c|] eqn:Hc; [|discriminate].
  destruct (options c) as [e'|opts] eqn:Ho.
  - intros [= <-]. pose proof (options_raises _ _ Ho) as ->.
    split; [reflexivity|]. exists c. auto.
  - destruct (not_tous (selectbox ui (snd f) opts)); [|discriminate].
    destruct (get_column t (LStr (fst f))) eqn:Ht; [discriminate|].
    exfalso. unfold get_column in *.
    rewrite (lookup_column_labels _ _ _ Hlab Ht) in Hc. discriminate.
Qed.

Lemma fold_filters_raises ui df fs t e :
  labels t = labels df ->
  fold_left
    (fun acc f =>
       match acc with
       | inr filtered_df => filter_on ui df (fst f) (snd f) filtered_df
       | inl e => inl e
       end) fs (inr t) = inl e ->
  e = TypeError /\
  exists f c, In f fs /\ get_column df (LStr (fst f)) = Some c /\
              options c = inl TypeError.
Proof.
  revert t. induction fs as [|f fs IH]; simpl; intros t Hlab H; [discriminate|].
  destruct (filter_on ui df (fst f) (snd f) t) as [e'|t'] eqn:E.
  - rewrite fold_filters_inl in H. inversion H; subst e'.
    destruct (filter_on_raises _ _ _ _ _ Hlab E) as (-> & c & Hc & Ho).
    split; [reflexivity|]. exists f, c. auto.
  - destruct (filter_on_subseq _ _ _ _ _ _ E) as (_ & Hl & _).
    destruct (IH t' (eq_trans Hl Hlab) H) as (-> & g & c & Hg & Hc & Ho).
    split; [reflexivity|]. exists g, c. auto.
Qed.

Lemma fold_filters_must_raise ui df fs start f c e :
  In f fs -> get_column df (LStr (fst f)) = Some c -> options c = inl e ->
  exists e',
    fold_left
      (fun acc f =>
         match acc with
         | inr filtered_df => filter_on ui df (fst f) (snd f) filtered_df
         | inl e => inl e
         end) fs start = inl e'.
Proof.
  intros Hf Hc Ho. revert start. induction fs as [|g fs IH]; [destruct Hf|].
  simpl. intro start. destruct start as [e0|t].
  - exists e0. apply fold_filters_inl.
  - destruct Hf as [->|Hf].
    + unfold filter_on at 2. rewrite Hc, Ho. exists e. apply fold_filters_inl.
    + apply IH. exact Hf.
Qed.

(** X9. [apply_filters] fails in one way only: with [TypeError], because the
    values of one of the filter columns present cannot be listed (a cell
    that cannot be hashed, or values that cannot be ordered); it then fails
    whatever the user chooses.  It never fails on a missing column. *)
Theorem apply_filters_fails_only_on_options (df : table) :
  (forall ui e,
     apply_filters ui df = inl e ->
     e = TypeError /\
     exists f c, In f filters /\ get_column df (LStr (fst f)) = Some c /\
                 options c = inl TypeError) /\
  (forall f c e,
     In f filters -> get_column df (LStr (fst f)) = Some c -> options c = inl e ->
     forall ui, apply_filters ui df = inl TypeError).
Proof.
  split.
  - intros ui e H. unfold apply_filters in H.
    apply (fold_filters_raises ui df filters df e eq_refl H).
  - intros f c e Hf Hc Ho ui.
    destruct (fold_filters_must_raise ui df filters (inr df) f c e Hf Hc Ho) as [e' He'].
    fold (apply_filters ui df) in He'. rewrite He'. f_equal.
    unfold apply_filters in He'.
    apply (fold_filters_raises ui df filters df e' eq_refl He').
Qed.

Lemma apply_filters_fails_only_on_options_witness :
  options [PStr "Dacia"; PInt 208] = inl TypeError /\
  forall ui, apply_filters ui mixed_table = inl TypeError.
Proof.
  split; [reflexivity|].
  apply (proj2 (apply_filters_fails_only_on_options mixed_table)
               ("Marque", "🏷️ Marque") [PStr "Dacia"; PInt 208] TypeError).
  - simpl. auto 10.
  - reflexivity.
  - reflexivity.
Defined.

(* ===================================================================== *)
(** ** Further properties of the cache *)
(* ===================================================================== *)

Lemma cached_hit lib now s e :
  cache s = Some e -> fresh now e = true ->
  cached_load_data lib now s =
  (Returned (value e),
   {| env := fold_left (fun w m => st_error m w) (messages e) (env s);
      cache := cache s |}).
Proof.
  intros Hc Hf. unfold cached_load_data. rewrite Hc, Hf. reflexivity.
Qed.

Lemma calls_within_window lib e times s :
  cache s = Some e ->
  Forall (fun t => t < stored_at e + TTL) times ->
  Forall (fun r => r = Returned (value e)) (fst (calls lib times s)) /\
  sent (env (snd (calls lib times s))) = sent (env s) /\
  cache (snd (calls lib times s)) = Some e.
Proof.
  intros Hc Ht. revert s Hc. induction Ht as [|t times Hlt Ht IH]; intros s Hc.
  - simpl. auto.
  - cbn [calls].
    assert (fresh t e = true) as Hf by (apply Z.ltb_lt; exact Hlt).
    rewrite (cached_hit lib t s e Hc Hf).
    set (s1 := {| env := fold_left (fun w m => st_error m w) (messages e) (env s);
                  cache := cache s |}).
    destruct (IH s1 Hc) as (H1 & H2 & H3).
    destruct (calls lib times s1) as [rs s2]. simpl in *.
    split; [constructor; [reflexivity|exact H1]|].
    split; [|exact H3]. rewrite H2. unfold s1; simpl. apply replay_sent.
Qed.

(** X10. After a call at time [t1] that had to fetch, any number of calls at
    times before [t1 + 300] all return the result of that call and make no
    request: one request serves them all.  These calls do not extend the
    window: a call at [t3 >= t1 + 300] fetches again, however recent the
    last of them was. *)
Theorem one_fetch_serves_the_window (lib : library) (s : session) (t1 t3 : Z)
    (times : list Z) :
  (forall e, cache s = Some e -> fresh t1 e = false) ->
  Forall (fun t => t < t1 + TTL) times ->
  t1 + TTL <= t3 ->
  Forall (fun r => r = fst (cached_load_data lib t1 s))
         (fst (calls lib times (snd (cached_load_data lib t1 s)))) /\
  sent (env (snd (calls lib times (snd (cached_load_data lib t1 s))))) =
  (sent (env s) ++ [(LAMBDA_URL, 30)])%list /\
  sent (env (snd (cached_load_data lib t3
                    (snd (calls lib times (snd (cached_load_data lib t1 s))))))) =
  (sent (env s) ++ [(LAMBDA_URL, 30)] ++ [(LAMBDA_URL, 30)])%list.
Proof.
  intros Hmiss Ht H3.
  destruct (cached_miss lib t1 s Hmiss) as (df & w' & Hl & Hc). rewrite Hc.
  cbn [fst snd].
  set (e := {| stored_at := t1; value := df;
               messages := skipn (List.length (shown (env s))) (shown w') |}).
  set (s1 := {| env := w'; cache := Some e |}).
  destruct (load_data_cases lib (env s)) as (df1 & w1 & Hl1 & _ & Hs1 & _).
  rewrite Hl in Hl1. inversion Hl1; subst df1 w1. clear Hl1.
  destruct (calls_within_window lib e times s1 eq_refl Ht) as (H1 & H2 & H4).
  change (sent (env s1)) with (sent w') in H2. rewrite Hs1 in H2.
  split; [exact H1|]. split; [exact H2|].
  set (s2 := snd (calls lib times s1)) in *.
  assert (forall e', cache s2 = Some e' -> fresh t3 e' = false) as Hm2.
  { intros e' He'. rewrite H4 in He'. inversion He'; subst e'.
    unfold fresh; simpl. apply Z.ltb_ge. exact H3. }
  destruct (cached_miss lib t3 s2 Hm2) as (df2 & w2 & Hl2 & Hc2). rewrite Hc2. simpl.
  destruct (load_data_cases lib (env s2)) as (df3 & w3 & Hl3 & _ & Hs3 & _).
  rewrite Hl2 in Hl3. inversion Hl3; subst df3 w3. rewrite Hs3, H2.
  rewrite <- app_assoc. reflexivity.
Qed.

Lemma one_fetch_serves_the_window_witness :
  Forall (fun r => r = fst (cached_load_data plain_library 0 first_visit))
         (fst (calls plain_library [10; 200; 299]
                 (snd (cached_load_data plain_library 0 first_visit)))) /\
  sent (env (snd (cached_load_data plain_library 300
                    (snd (calls plain_library [10; 200; 299]
                            (snd (cached_load_data plain_library 0 first_visit))))))) =
  [(LAMBDA_URL, 30); (LAMBDA_URL, 30)].
Proof.
  destruct (one_fetch_serves_the_window plain_library first_visit 0 300 [10; 200; 299])
    as (H1 & _ & H3).
  - intros e H. discriminate H.
  - repeat constructor.
  - unfold TTL. lia.
  - split; [exact H1|exact H3].
Defined.

(* ===================================================================== *)
(* ===================================================================== *)
(** ** Properties of main *)
(* ===================================================================== *)

Lemma subseq_length {A : Type} (l1 l2 : list A) :
  subseq l1 l2 -> (List.length l1 <= List.length l2)%nat.
Proof. induction 1; simpl; lia. Qed.

Lemma subseq_same_length {A : Type} (l1 l2 : list A) :
  subseq l1 l2 -> List.length l1 = List.length l2 -> l1 = l2.
Proof.
  induction 1 as [|x l1 l2 H IH|x l1 l2 H IH]; simpl; intro E.
  - reflexivity.
  - apply subseq_length in H. lia.
  - f_equal. apply IH. lia.
Qed.

Lemma nrows_rows df : List.length (rows df) = nrows df.
Proof. unfold rows, nrows. apply length_rows_of. Qed.

(** X11. When the call of [load_data] has to fetch and shows a message
    (FetchError or ProcessingError), [main] shows the title, the rule and
    the spinner, then "Aucune donnée disponible." and stops: no select box
    is read and nothing of the table is rendered. *)
Theorem main_stops_after_an_error (lib : library) (ui : string -> nat) (now : Z)
    (s : session) :
  (forall e, cache s = Some e -> fresh now e = false) ->
  shown (env (snd (cached_load_data lib now s))) <> shown (env s) ->
  fst (main_opening lib ui now s) =
  ([Title "🚗 Dashboard Voitures";
    Markdown "---";
    Spinner "🔄 Chargement des données en cours...";
    Error "❌ Aucune donnée disponible.";
    Stop], Stopped).
Proof.
  intros Hmiss Hshown. unfold main_opening.
  destruct (cached_miss lib now s Hmiss) as (df & w' & Hl & Hc).
  rewrite Hc in Hshown |- *. simpl in Hshown.
  destruct (load_data_cases lib (env s)) as (df1 & w1 & Hl1 & _ & _ & Hcases).
  rewrite Hl in Hl1. inversion Hl1; subst df1 w1. clear Hl1.
  destruct Hcases as [[-> _]|[[-> _]|[Hsame _]]]; [reflexivity|reflexivity|contradiction].
Qed.

Lemma main_stops_after_an_error_witness :
  shown (env (snd (cached_load_data plain_library 0
                     {| env := always TimedOut; cache := None |}))) = [FetchError Timeout] /\
  snd (fst (main_opening plain_library (fun _ => 0%nat) 0
              {| env := always TimedOut; cache := None |})) = Stopped.
Proof.
  split; [reflexivity|].
  rewrite (main_stops_after_an_error plain_library (fun _ => 0%nat) 0
             {| env := always TimedOut; cache := None |}).
  - reflexivity.
  - intros e H. discriminate H.
  - discriminate.
Defined.

(** X12. When [main] goes on to render, the table loaded has at least one
    row and one column, the success line gives its row count, the filtered
    table has the same columns and at most as many rows, and the info line
    with the two counts is shown exactly when the filters removed a row. *)
Theorem main_counts (lib : library) (ui : string -> nat) (now : Z) (s : session)
    (page : list call) (df filtered_df : table) :
  fst (main_opening lib ui now s) = (page, Continues df filtered_df) ->
  (1 <= nrows df)%nat /\ columns df <> [] /\
  apply_filters ui df = inr filtered_df /\
  labels filtered_df = labels df /\
  (nrows filtered_df <= nrows df)%nat /\
  In (Success ("✅ " ++ len_text df ++ " voitures chargées avec succès")) page /\
  (In (Info ("🔍 " ++ len_text filtered_df
             ++ " voitures correspondent aux filtres sélectionnés (sur "
             ++ len_text df ++ " total)")) page <->
   rows filtered_df <> rows df).
Proof.
  unfold main_opening.
  destruct (cached_load_data lib now s) as [[df0|e] s'] eqn:Hc; [|discriminate].
  destruct (empty df0) eqn:He; [discriminate|].
  destruct (apply_filters ui df0) as [e|f] eqn:Ha; [discriminate|].
  pose proof Ha as Hfold. unfold apply_filters in Hfold.
  destruct (apply_filters_fold _ _ _ _ _ Hfold) as (t & Ht & Hsub & Hlab & _).
  inversion Ht; subst t. clear Ht Hfold.
  assert (nrows f <= nrows df0)%nat as Hle.
  { rewrite <- !nrows_rows. apply subseq_length. exact Hsub. }
  unfold empty in He. apply orb_false_iff in He. destruct He as [Hr Hcols].
  apply Nat.eqb_neq in Hr. apply Nat.eqb_neq in Hcols.
  assert (columns df0 <> []) as Hne by (intro E; rewrite E in Hcols; apply Hcols; reflexivity).
  destruct (nrows f =? nrows df0)%nat eqn:En; simpl; intros [= <- <- <-].
  - apply Nat.eqb_eq in En.
    assert (rows f = rows df0) as Hsame
        by (apply subseq_same_length; [exact Hsub|rewrite !nrows_rows; exact En]).
    repeat split; try assumption; try lia.
    + simpl. auto.
    + intro H. simpl in H. destruct H as [H|[H|[H|[H|[]]]]]; discriminate H.
    + intro H. contradiction.
  - apply Nat.eqb_neq in En.
    repeat split; try assumption; try lia.
    + simpl. auto.
    + intros _ E. apply En. rewrite <- !nrows_rows, E. reflexivity.
    + intros _. simpl. auto 10.
Qed.

Lemma main_counts_witness :
  exists page df,
    fst (main_opening plain_library (fun _ => 0%nat) 0 first_visit) =
    (page, Continues df df) /\
    nrows df = 1%nat /\
    In (Success "✅ 1 voitures chargées avec succès") page.
Proof.
  eexists _, _. split; [reflexivity|].
  destruct (main_counts plain_library (fun _ => 0%nat) 0 first_visit _ _ _ eq_refl)
    as (_ & _ & _ & _ & _ & H & _).
  split; [reflexivity|exact H].
Defined.

Lemma record_keys_without_fields recs :
  Forall (fun r : list (string * pyval) => r = []) recs -> record_keys recs = [].
Proof.
  intro H. unfold record_keys.
  assert (forall acc, fold_left (fun acc r => add_keys acc (map fst r)) recs acc = acc) as Hf.
  { induction H as [|r recs Hr Hrecs IH]; simpl; intro acc; [reflexivity|].
    subst r. simpl. apply IH. }
  apply Hf.
Qed.

(** X13. An answer that is a sequence of records none of which has a field
    (the empty sequence included) counts as no data: [load_data] shows no
    message, and [main] shows "Aucune donnée disponible." and stops. *)
Theorem main_stops_without_fields (lib : library) (ui : string -> nat) (now : Z)
    (s : session) (st : Z) (l : list pyval) (recs : list (list (string * pyval))) :
  (forall e, cache s = Some e -> fresh now e = false) ->
  network (env s) (List.length (sent (env s))) = Answer st (Json (PList l)) ->
  error_status st = false ->
  as_records l = Some recs ->
  Forall (fun r => r = []) recs ->
  shown (env (snd (main_opening lib ui now s))) = shown (env s) /\
  fst (main_opening lib ui now s) =
  ([Title "🚗 Dashboard Voitures";
    Markdown "---";
    Spinner "🔄 Chargement des données en cours...";
    Error "❌ Aucune donnée disponible.";
    Stop], Stopped).
Proof.
  intros Hmiss Hn Hs Hr Hempty. unfold main_opening.
  destruct (cached_miss lib now s Hmiss) as (df & w' & Hl & Hc). rewrite Hc.
  set (df0 := {| index := default_index (List.length recs); columns := [] |}).
  assert (from_records lib recs = inr df0) as Hf.
  { unfold from_records. rewrite (record_keys_without_fields recs Hempty). reflexivity. }
  assert (load_data lib (env s) = (Returned df0, requested (env s))) as Hld.
  { rewrite (load_data_records _ _ _ _ _ Hn Hs Hr), Hf. unfold outcome_of.
    rewrite (normalize_unrecognized lib df0); [reflexivity|]. intros l0 []. }
  rewrite Hl in Hld. inversion Hld; subst df w'.
  assert (empty df0 = true) as ->.
  { unfold empty. apply orb_true_iff. right. reflexivity. }
  split; reflexivity.
Qed.

Lemma main_stops_without_fields_witness :
  snd (fst (main_opening plain_library (fun _ => 0%nat) 0
              {| env := always (Answer 200 (Json (PList [PDict []; PDict []])));
                 cache := None |})) = Stopped.
Proof.
  rewrite (proj2 (main_stops_without_fields plain_library (fun _ => 0%nat) 0
                    {| env := always (Answer 200 (Json (PList [PDict []; PDict []])));
                       cache := None |}
                    200 [PDict []; PDict []] [[]; []]
                    (fun e H => ltac:(discriminate H)) eq_refl eq_refl eq_refl
                    ltac:(repeat constructor))).
  reflexivity.
Defined.

(** X14. A mapping with the key [data] is read through that key only: two
    answers whose mappings hold the same value under [data] give the same
    table, whatever other fields (a count, a status, even Km or Prix) the
    mappings carry beside it. *)
Theorem data_key_hides_other_fields (lib : library) (w1 w2 : world) (st1 st2 : Z)
    (d1 d2 : list (string * pyval)) (v : pyval) :
  network w1 (List.length (sent w1)) = Answer st1 (Json (PDict d1)) ->
  network w2 (List.length (sent w2)) = Answer st2 (Json (PDict d2)) ->
  error_status st1 = false ->
  error_status st2 = false ->
  dict_get "data" d1 = Some v ->
  dict_get "data" d2 = Some v ->
  fst (load_data lib w1) = fst (load_data lib w2).
Proof.
  intros Hn1 Hn2 Hs1 Hs2 Hd1 Hd2.
  rewrite (load_data_answer _ _ _ _ Hn1 Hs1), (load_data_answer _ _ _ _ Hn2 Hs2).
  simpl tabulated. rewrite Hd1, Hd2.
  destruct (DataFrame lib v) as [e|df0]; [reflexivity|].
  unfold outcome_of. destruct (normalize lib df0); reflexivity.
Qed.

Lemma data_key_hides_other_fields_witness :
  fst (load_data plain_library (always (Answer 200 (Json scenario1_with_fields)))) =
  fst (load_data plain_library (always (Answer 200 (Json scenario1)))).
Proof.
  unfold scenario1_with_fields, scenario1.
  eapply (data_key_hides_other_fields plain_library _ _ 200 200);
    reflexivity.
Defined.
